(** * The conversation engine: message store, turn loop and output sink

    A shallow embedding of [src/conversation.py], [src/engine.py] and
    [src/output_manager.py].

    Python objects live in a heap and are passed by reference, so that a
    list and its copy can share their elements; methods are computations
    in a state-and-exception monad over that heap.  Everything outside
    the repository (the inference service behind [Runner.run], the clock,
    the file system, [pathlib] and the case-mapping string methods) is
    collected in an environment record. *)

From Stdlib Require Import ZArith Lia Ascii.
From stdpp Require Import gmap strings list pretty.

(** ** Python strings

    A [str] is modelled by a [string] whose characters are the code points
    0..255.  On that range [str.isspace] holds for TAB..CR, FS..US, the
    space, NEL (U+0085) and the no-break space (U+00A0). *)

Module Str.

Definition nl : string := String (Stdlib.Strings.Ascii.ascii_of_nat 10) "".

Definition isspace (c : ascii) : bool :=
  let n := Stdlib.Strings.Ascii.nat_of_ascii c in
  ((9 <=? n) && (n <=? 13)) || ((28 <=? n) && (n <=? 32))
  || (n =? 133) || (n =? 160).

Fixpoint lstrip (s : string) : string :=
  match s with
  | EmptyString => EmptyString
  | String c s' => if isspace c then lstrip s' else s
  end.

Definition rstrip (s : string) : string := String.rev (lstrip (String.rev s)).

(** [s.strip()] *)
Definition strip (s : string) : string := rstrip (lstrip s).

(** [s.startswith(p)] *)
Definition startswith (s p : string) : bool := String.prefix p s.

(** [needle in hay] *)
Fixpoint contains (needle hay : string) : bool :=
  String.prefix needle hay ||
  match hay with
  | EmptyString => false
  | String _ hay' => contains needle hay'
  end.

(** [s[:n]] for [0 <= n] *)
Fixpoint take (n : nat) (s : string) : string :=
  match n, s with
  | S n', String c s' => String c (take n' s')
  | _, _ => EmptyString
  end.

(** [s.replace(a, b)] for single characters [a] and [b] *)
Fixpoint replace_char (a b : ascii) (s : string) : string :=
  match s with
  | EmptyString => EmptyString
  | String c s' => String (if Stdlib.Strings.Ascii.eqb c a then b else c) (replace_char a b s')
  end.

(** [sep.join(lines)] *)
Fixpoint join (sep : string) (lines : list string) : string :=
  match lines with
  | [] => ""
  | [l] => l
  | l :: rest => l +:+ sep +:+ join sep rest
  end.

End Str.

(** ** Python values and exceptions *)

(** The values that reach the checks [isinstance(x, str)] and
    [role not in [...]]: a [str], or something that is not one. *)
Inductive pyval :=
| PyNone
| PyInt (z : Z)
| PyStr (s : string).

Definition isinstance_str (v : pyval) : bool :=
  match v with PyStr _ => true | _ => false end.

#[global] Instance pyval_eq_dec : EqDecision pyval.
Proof. solve_decision. Defined.

(** The exception classes the code raises or tells apart.  [Exception_]
    stands for any other subclass of [Exception]; [TypeError] is what
    using an object at the wrong class gives.  Exceptions outside
    [Exception] (an interrupt, a cancellation), which no [except] clause
    of the code catches, are not modelled. *)
Inductive pyexn :=
| ValueError (msg : string)
| FileNotFoundError (msg : string)
| IOError (msg : string)
| RuntimeError (msg : string)
| IndexError (msg : string)
| KeyError (msg : string)
| TypeError (msg : string)
| Exception_ (msg : string).

(** [str(e)] *)
Definition exn_str (e : pyexn) : string :=
  match e with
  | ValueError m | FileNotFoundError m | IOError m | RuntimeError m
  | IndexError m | KeyError m | TypeError m | Exception_ m => m
  end.

Definition is_FileNotFoundError (e : pyexn) : bool :=
  match e with FileNotFoundError _ => true | _ => false end.

(** ** Messages *)

(** [Message = Dict[str, str]] *)
Abbreviation Message := (gmap string string).

(** [{"role": role, "content": content}] *)
Definition message (role content : string) : Message :=
  <["content" := content]> (<["role" := role]> ∅).

(** [m.get(key, default)] *)
Definition dict_get (m : Message) (key default : string) : string :=
  match m !! key with Some v => v | None => default end.

Definition role_of (m : Message) : string := dict_get m "role" "unknown".
Definition content_of (m : Message) : string := dict_get m "content" "".

(** ** The heap *)

Definition loc := nat.

(** The three classes of mutable object the code shares by reference:
    a message dict, a list of messages (holding references to the
    dicts), and an instance of [ConversationHistory] with its three
    attributes. *)
Inductive pyobj :=
| ODict (d : Message)
| OList (items : list loc)
| OHistory (max_iterations : Z) (messages : loc) (current_turn : Z).

(** ** The environment *)

Inductive agent := UserAgent | ExpertAgent.

#[global] Instance agent_eq_dec : EqDecision agent.
Proof. solve_decision. Defined.

(** Where in a run [Runner.run] is awaited: in the loop, at the 1-based
    turn number the loop computes for its log lines, or in
    [generate_takeaways]. *)
Inductive call_site :=
| AtTurn (current_turn : Z)
| Takeaways.

#[global] Instance call_site_eq_dec : EqDecision call_site.
Proof. solve_decision. Defined.

(** What [await Runner.run(...)] gives back: an exception, a falsy
    result, or a result object with its [final_output]. *)
Inductive run_result :=
| FalsyResult
| RunResult (final_output : pyval).

Inductive run_outcome :=
| Raises (msg : string)
| Returns (r : run_result).

Abbreviation Path := string (only parsing).

(** What a path leads to: nothing, something that is not a regular file,
    or a regular file with what reading it gives. *)
Inductive fs_node :=
| Absent
| Directory
| RegularFile (read_text : string + pyexn).

(** What the code gets from outside the repository.  The inference
    service is not a function of the program's state: a stub may answer
    its calls from a script, a model may answer the same input twice in
    two ways.  Its reply is therefore also indexed by the point of the
    run at which it is awaited; the loop awaits each agent at most once
    per turn, so this index tells the calls of a run apart. *)
Record Env := {
  (** the inference service: the reply may depend on the point of the run,
      the agent, the messages given as input and the goal in the context *)
  Runner_run : call_site -> agent -> list Message -> string -> run_outcome;
  (** [path.exists()], [path.is_file()], [path.read_text(encoding='utf-8')] *)
  fs_lookup : Path -> fs_node;
  (** [open(path, 'w', encoding='utf-8')] then [f.write(text)]:
      [None] when the text was written, otherwise what [open] or
      [f.write] raised *)
  fs_write : Path -> string -> option pyexn;
  (** [datetime.datetime.now().strftime(format)] *)
  strftime_now : string -> string;
  (** [dir / filename], [path.name], [Path(filename).stem] *)
  path_div : Path -> string -> Path;
  path_name : Path -> string;
  path_stem : string -> string;
  (** [s.capitalize()], [s.lower()] *)
  capitalize : string -> string;
  lower : string -> string;
}.

(** One awaited call of [Runner.run], as the service sees it. *)
Record call := {
  call_at : call_site;
  call_agent : agent;
  call_input : list Message;
  call_goal : string;
}.

(** ** The state-and-exception monad *)

Record world := {
  heap : list pyobj;
  calls : list call;               (* the calls of [Runner.run], oldest first *)
  files : list (Path * string);    (* the files written in full, oldest first *)
  (** the paths the code has opened, or tried to open, for writing,
      oldest first: each of them may since have been created or
      emptied, also when the write then failed *)
  attempts : list Path;
}.

Definition set_heap (w : world) (h : list pyobj) : world :=
  {| heap := h; calls := calls w; files := files w; attempts := attempts w |}.

Definition log_call (w : world) (c : call) : world :=
  {| heap := heap w; calls := calls w ++ [c]; files := files w;
     attempts := attempts w |}.

Definition log_attempt (w : world) (file_path : Path) : world :=
  {| heap := heap w; calls := calls w; files := files w;
     attempts := attempts w ++ [file_path] |}.

Definition log_file (w : world) (file_path : Path) (text : string) : world :=
  {| heap := heap w; calls := calls w; files := files w ++ [(file_path, text)];
     attempts := attempts w |}.

Inductive outcome (A : Type) :=
| Ret (a : A)
| Raise (e : pyexn).
Arguments Ret {A} a.
Arguments Raise {A} e.

Definition M (A : Type) : Type := world -> outcome A * world.

Definition ret {A} (a : A) : M A := fun w => (Ret a, w).
Definition raise {A} (e : pyexn) : M A := fun w => (Raise e, w).

Definition bind {A B} (m : M A) (k : A -> M B) : M B :=
  fun w =>
    match m w with
    | (Ret a, w') => k a w'
    | (Raise e, w') => (Raise e, w')
    end.

(** [try: m  except Exception as e: handler(e)] *)
Definition try_except {A} (m : M A) (handler : pyexn -> M A) : M A :=
  fun w =>
    match m w with
    | (Ret a, w') => (Ret a, w')
    | (Raise e, w') => handler e w'
    end.

Declare Scope py_scope.
Delimit Scope py_scope with py.
Notation "'let*' x ':=' m 'in' k" := (bind m (fun x => k))
  (at level 10, x pattern, m at level 100, k at level 200) : py_scope.
Notation "m ';;' k" := (bind m (fun _ => k))
  (at level 100, k at level 200, right associativity) : py_scope.
Open Scope py_scope.

(** Object allocation: a new object gets the next free address. *)
Definition alloc (o : pyobj) : M loc :=
  fun w => (Ret (length (heap w)), set_heap w (heap w ++ [o])).

(** In-place update of the object at [l]. *)
Definition update (l : loc) (o : pyobj) : M unit :=
  fun w => (Ret tt, set_heap w (<[l := o]> (heap w))).

Definition load_list (l : loc) : M (list loc) :=
  fun w =>
    match heap w !! l with
    | Some (OList items) => (Ret items, w)
    | _ => (Raise (TypeError "not a list"), w)
    end.

Definition load_dict (l : loc) : M Message :=
  fun w =>
    match heap w !! l with
    | Some (ODict d) => (Ret d, w)
    | _ => (Raise (TypeError "not a dict"), w)
    end.

Definition load_history (l : loc) : M (Z * loc * Z) :=
  fun w =>
    match heap w !! l with
    | Some (OHistory mx ms t) => (Ret (mx, ms, t), w)
    | _ => (Raise (TypeError "not a ConversationHistory"), w)
    end.

Fixpoint mapM {A B} (f : A -> M B) (l : list A) : M (list B) :=
  match l with
  | [] => ret []
  | x :: l' => let* y := f x in let* ys := mapM f l' in ret (y :: ys)
  end.

(** The messages a list object holds, read through its references. *)
Definition read_messages (l : loc) : M (list Message) :=
  let* items := load_list l in mapM load_dict items.

(** ** [class ConversationHistory] *)

(** [str(v)], as an f-string formats it *)
Definition pyval_str (v : pyval) : string :=
  match v with
  | PyNone => "None"
  | PyInt z => pretty z
  | PyStr s => s
  end.

Definition valid_roles : list pyval :=
  [PyStr "user"; PyStr "assistant"; PyStr "system"].

Definition add_message (self : loc) (role content : pyval) : M unit :=
  if bool_decide (role ∉ valid_roles) then
    raise (ValueError ("Invalid role '" +:+ pyval_str role +:+
                       "'. Must be 'user', 'assistant', or 'system'."))
  else
    match content with
    | PyStr content =>
        let* m := alloc (ODict (message (pyval_str role) content)) in
        let* (_, messages, _) := load_history self in
        let* items := load_list messages in
        update messages (OList (items ++ [m]))
    | _ => raise (ValueError "Message content must be a string.")
    end.

(** [return self.messages.copy()]: a new list object holding the same
    references. *)
Definition get_history (self : loc) : M loc :=
  let* (_, messages, _) := load_history self in
  let* items := load_list messages in
  alloc (OList items).

Definition increment_turn (self : loc) : M unit :=
  let* (max_iterations, messages, current_turn) := load_history self in
  update self (OHistory max_iterations messages (current_turn + 1)).

Definition is_complete (self : loc) : M bool :=
  let* (max_iterations, _, current_turn) := load_history self in
  ret (current_turn >=? max_iterations)%Z.

Definition get_current_turn (self : loc) : M Z :=
  let* (_, _, current_turn) := load_history self in ret current_turn.

Section WithEnv.

Variable env : Env.

Definition _load_from_file (self : loc) (file_path : Path) : M unit :=
  try_except
    (match fs_lookup env file_path with
     | Absent | Directory =>
         raise (FileNotFoundError ("History file not found: " +:+ file_path))
     | RegularFile (inr e) => raise e
     | RegularFile (inl text) =>
         let content := Str.strip text in
         if bool_decide (content ≠ "") then
           add_message self (PyStr "system")
             (PyStr ("Initial context from history file (" +:+
                     path_name env file_path +:+ "):" +:+ Str.nl +:+ "---" +:+
                     Str.nl +:+ content +:+ Str.nl +:+ "---"))
         else ret tt
     end)
    (fun e =>
       if is_FileNotFoundError e then raise e
       else raise (IOError ("Error processing history file " +:+ file_path +:+
                            ": " +:+ exn_str e))).

(** [ConversationHistory(max_iterations, history_file_path)] *)
Definition __init__ (max_iterations : Z) (history_file_path : option Path) : M loc :=
  let* messages := alloc (OList []) in
  let* self := alloc (OHistory max_iterations messages 0) in
  match history_file_path with
  | Some file_path => _load_from_file self file_path
  | None => ret tt
  end;;
  ret self.

(** *** The services of the environment, as computations *)

(** [await Runner.run(agent, input=input, context=context)]: the service
    is given the messages the list holds at the time of the call. *)
Definition runner_run (site : call_site) (a : agent) (input : loc)
    (user_goal : string) : M run_result :=
  let* messages := read_messages input in
  fun w =>
    let w' := log_call w {| call_at := site; call_agent := a;
                            call_input := messages; call_goal := user_goal |} in
    match Runner_run env site a messages user_goal with
    | Raises msg => (Raise (Exception_ msg), w')
    | Returns r => (Ret r, w')
    end.

(** [with open(file_path, 'w', encoding='utf-8') as f: f.write(text)].
    Opening comes first and creates or empties the file, so a block that
    raises, at [open] or at [f.write], may leave the file created or
    emptied: the attempt is logged whatever the outcome, and the text is
    logged as written only when the block ends normally. *)
Definition write_file (file_path : Path) (text : string) : M unit :=
  fun w =>
    let w := log_attempt w file_path in
    match fs_write env file_path text with
    | Some e => (Raise e, w)
    | None => (Ret tt, log_file w file_path text)
    end.

(** ** [class OutputManager] *)

Definition generate_filename (prefix extension : string) : string :=
  prefix +:+ "_" +:+ strftime_now env "%Y%m%d_%H%M%S" +:+ "." +:+ extension.

Definition role_title (role : string) : string :=
  if bool_decide (role = "user") then "User"
  else if bool_decide (role = "assistant") then "Expert"
  else if bool_decide (role = "system") then "System"
  else capitalize env role.

(** [(i+1)//2 if role != 'system' else 0] *)
Definition display_turn (i : Z) (role : string) : Z :=
  if bool_decide (role ≠ "system") then ((i + 1) `div` 2)%Z else 0%Z.

(** [f"## {role_title} (Turn {turn})"] *)
Definition heading (role_title : string) (turn : Z) : string :=
  "## " +:+ role_title +:+ " (Turn " +:+ pretty turn +:+ ")".

(** The body of [for i, message in enumerate(messages, 1)], from [i] on. *)
Fixpoint message_lines (i : Z) (messages : list Message) : list string :=
  match messages with
  | [] => []
  | message :: rest =>
      let role := role_of message in
      [heading (role_title role) (display_turn i role); content_of message; ""]
      ++ message_lines (i + 1) rest
  end.

Definition transcript_lines (current_turn : Z) (messages : list Message)
    : list string :=
  ["# Conversation Transcript (Generated: " +:+
     strftime_now env "%Y-%m-%d %H:%M:%S" +:+ ")";
   "# Total Turns: " +:+ pretty current_turn;
   ""]
  ++ message_lines 1 messages.

Definition format_conversation (history : loc) : M string :=
  let* snapshot := get_history history in
  let* messages := read_messages snapshot in
  match messages with
  | [] => ret "No conversation history available."
  | _ =>
      let* current_turn := get_current_turn history in
      ret (Str.join Str.nl (transcript_lines current_turn messages))
  end.

Definition save_transcript (output_dir : Path) (history : loc)
    (filename : option string) : M Path :=
  let filename :=
    match filename with
    | None | Some "" => generate_filename "conversation" "txt"
    | Some f => f
    end in
  let file_path := path_div env output_dir filename in
  let* formatted_text := format_conversation history in
  try_except
    (write_file file_path formatted_text;; ret file_path)
    (fun e => raise (RuntimeError ("Failed to save transcript: " +:+ exn_str e))).

Definition dquote : string := String (Stdlib.Strings.Ascii.ascii_of_nat 34) "".

Definition takeaway_prompt (user_goal : string) : string :=
  "Based on the preceding conversation transcript where the initial goal was " +:+
  dquote +:+ user_goal +:+ dquote +:+ ", " +:+
  "please distill the key takeaways, insights, and conclusions. " +:+
  "Focus on the most important information relevant to the original goal. " +:+
  "Present the takeaways clearly and concisely, perhaps as bullet points." +:+
  "Do not refer to yourself, just provide the takeaways.".

Definition generate_takeaways (history : loc) (user_goal : string)
    (expert_agent : agent) : M string :=
  let* full_history := get_history history in
  let* items := load_list full_history in
  match items with
  | [] => ret "Error: Cannot generate takeaways from empty history."
  | _ =>
      (* [full_history + [{...}]]: a new dict in a new list *)
      let* prompt := alloc (ODict (message "user" (takeaway_prompt user_goal))) in
      let* summarization_input := alloc (OList (items ++ [prompt])) in
      try_except
        (let* takeaway_result :=
           runner_run Takeaways expert_agent summarization_input user_goal in
         match takeaway_result with
         | RunResult (PyStr final_output) => ret (Str.strip final_output)
         | _ => ret "Error: Failed to generate valid takeaways from the LLM."
         end)
        (fun e => ret ("Error generating takeaways: " +:+ exn_str e))
  end.

Definition save_takeaways (output_dir : Path) (takeaways : string)
    (transcript_filename : string) : M Path :=
  let base_name := path_stem env transcript_filename in
  let takeaways_filename := base_name +:+ "_takeaways.txt" in
  let file_path := path_div env output_dir takeaways_filename in
  try_except
    (write_file file_path
       ("# Takeaways from: " +:+ transcript_filename +:+ Str.nl +:+ Str.nl +:+
        takeaways);;
     ret file_path)
    (fun e => raise (RuntimeError ("Failed to save takeaways: " +:+ exn_str e))).

(** ** [class ConversationEngine] *)

(** The attributes of the engine that [run_conversation] reads; none is
    reassigned after construction. *)
Record Engine := {
  history : loc;          (* [self.history] *)
  user_goal : string;     (* [self.context.user_goal] *)
  output_dir : Path;      (* [self.output_manager.output_dir] *)
}.

Inductive loop_ctl := Continue | Break.

(** [if not x] for [x] that is [None] or a [str] *)
Definition falsy (x : option string) : bool :=
  match x with
  | None => true
  | Some s => bool_decide (s = "")
  end.

Definition reply_text (x : option string) : string :=
  match x with Some s => s | None => "" end.

(** What a turn keeps of a result: [final_output.strip()] when the result
    is truthy and its output a string, and [None] otherwise. *)
Definition reply_of (result : run_result) : option string :=
  match result with
  | RunResult (PyStr final_output) => Some (Str.strip final_output)
  | _ => None
  end.

(** The User Agent part of an iteration: the [try] block that leaves
    [question] set.  The outer [None] stands for the [break] of the
    [except] branch. *)
Definition user_agent_turn (self : Engine) (current_turn : Z)
    : M (option (option string)) :=
  try_except
    (let* current_history_for_user := get_history (history self) in
     let* items := load_list current_history_for_user in
     let* user_agent_input :=
       match items with
       | [] =>
           let* initial := alloc (ODict (message "system"
                             ("The conversation goal is: " +:+ user_goal self))) in
           alloc (OList [initial])
       | _ => ret current_history_for_user
       end in
     let* user_agent_result :=
       runner_run (AtTurn current_turn) UserAgent user_agent_input (user_goal self) in
     ret (Some (reply_of user_agent_result)))
    (fun _ => ret None).

(** The Expert Agent part, likewise. *)
Definition expert_agent_turn (self : Engine) (current_turn : Z)
    : M (option (option string)) :=
  try_except
    (let* current_history_for_expert := get_history (history self) in
     let* expert_agent_result :=
       runner_run (AtTurn current_turn) ExpertAgent
         current_history_for_expert (user_goal self) in
     ret (Some (reply_of expert_agent_result)))
    (fun _ => ret None).

(** One iteration of [while not self.history.is_complete()], after the
    test. *)
Definition loop_body (self : Engine) : M loop_ctl :=
  let* turn := get_current_turn (history self) in
  let current_turn := (turn + 1)%Z in
  let* question := user_agent_turn self current_turn in
  match question with
  | None => ret Break
  | Some question =>
      if falsy question then
        increment_turn (history self);;
        ret Continue
      else
        add_message (history self) (PyStr "user") (PyStr (reply_text question));;
        let* answer := expert_agent_turn self current_turn in
        match answer with
        | None => ret Break
        | Some answer =>
            if falsy answer then ret Break
            else
              add_message (history self) (PyStr "assistant")
                (PyStr (reply_text answer));;
              increment_turn (history self);;
              ret Continue
        end
  end.

(** How the [while] loop is left: its condition turned false, or a
    [break]. *)
Inductive loop_exit := Completed | Aborted.

(** The [while] loop, for at most [fuel] iterations; [None] when they
    do not suffice. *)
Fixpoint while_loop (fuel : nat) (self : Engine) (w : world)
    : option (outcome loop_exit * world) :=
  match is_complete (history self) w with
  | (Raise e, w1) => Some (Raise e, w1)
  | (Ret true, w1) => Some (Ret Completed, w1)
  | (Ret false, w1) =>
      match fuel with
      | O => None
      | S fuel' =>
          match loop_body self w1 with
          | (Raise e, w2) => Some (Raise e, w2)
          | (Ret Break, w2) => Some (Ret Aborted, w2)
          | (Ret Continue, w2) => while_loop fuel' self w2
          end
      end
  end.

(** The turns still to run: [max_iterations - current_turn]. *)
Definition turns_left (self : Engine) (w : world) : nat :=
  match heap w !! history self with
  | Some (OHistory max_iterations _ current_turn) =>
      Z.to_nat (max_iterations - current_turn)
  | _ => 0
  end.

Definition conversation_loop (self : Engine) (w : world)
    : option (outcome loop_exit * world) :=
  while_loop (turns_left self w) self w.

(** [self.context.user_goal[:30].replace(' ', '_').lower()], or
    ["conversation"] when that has fewer than 5 characters *)
Definition goal_prefix (user_goal : string) : string :=
  let goal_prefix := lower env (Str.replace_char " " "_" (Str.take 30 user_goal)) in
  if (String.length goal_prefix <? 5)%nat then "conversation" else goal_prefix.

(** What follows the loop: the transcript is saved, then the takeaways. *)
Definition save_outputs (self : Engine) : M unit :=
  let* output_file_path :=
    try_except
      (let transcript_filename :=
         generate_filename (goal_prefix (user_goal self)) "txt" in
       let* p := save_transcript (output_dir self) (history self)
                   (Some transcript_filename) in
       ret (Some p))
      (fun _ => ret None) in
  match output_file_path with
  | Some output_file_path =>
      try_except
        (let* takeaways :=
           generate_takeaways (history self) (user_goal self) ExpertAgent in
         if negb (Str.startswith takeaways "Error:") then
           save_takeaways (output_dir self) takeaways
             (path_name env output_file_path);;
           ret tt
         else ret tt)
        (fun _ => ret tt)
  | None => ret tt
  end.

Definition run_conversation (self : Engine) (w : world)
    : option (outcome loc * world) :=
  match conversation_loop self w with
  | None => None
  | Some (Raise e, w1) => Some (Raise e, w1)
  | Some (Ret _, w1) => Some ((save_outputs self;; ret (history self)) w1)
  end.

End WithEnv.

(** ** Observing the store *)

(** The state of a [ConversationHistory] as its methods and its callers
    see it: the attributes, with the message list read through its
    references. *)
Record Store := {
  max_iterations : Z;
  messages : list Message;
  current_turn : Z;
}.

Definition observe (self : loc) (w : world) : option Store :=
  match heap w !! self with
  | Some (OHistory mx ml t) =>
      match read_messages ml w with
      | (Ret msgs, _) =>
          Some {| max_iterations := mx; messages := msgs; current_turn := t |}
      | _ => None
      end
  | _ => None
  end.

(** The store after [increment_turn], and after a message was appended. *)
Definition advance (s : Store) : Store :=
  {| max_iterations := max_iterations s; messages := messages s;
     current_turn := current_turn s + 1 |}.

Definition extend (s : Store) (m : Message) : Store :=
  {| max_iterations := max_iterations s; messages := messages s ++ [m];
     current_turn := current_turn s |}.

(** The messages a list object holds. *)
Definition observe_list (l : loc) (w : world) : option (list Message) :=
  match read_messages l w with
  | (Ret msgs, _) => Some msgs
  | _ => None
  end.

(** [dicts_at h items msgs]: the references [items] lead to the dicts
    [msgs] in the heap [h]. *)
Definition dicts_at (h : list pyobj) (items : list loc) (msgs : list Message) : Prop :=
  Forall2 (fun l m => h !! l = Some (ODict m)) items msgs.

Definition list_at (h : list pyobj) (l : loc) (msgs : list Message) : Prop :=
  exists items, h !! l = Some (OList items) /\ dicts_at h items msgs.

Definition store_at (h : list pyobj) (self : loc) (s : Store) : Prop :=
  exists ml, h !! self = Some (OHistory (max_iterations s) ml (current_turn s))
             /\ list_at h ml (messages s).

(** [agree_below n h h']: the heaps [h] and [h'] hold the same objects at
    the addresses below [n]. *)
Definition agree_below (n : nat) (h h' : list pyobj) : Prop :=
  forall l, l < n -> h' !! l = h !! l.

(** ** What a caller can do to a list it was handed *)

Inductive mutation :=
| Append (m : Message)                     (* [l.append({...})] *)
| SetItem (i : nat) (m : Message)          (* [l[i] = {...}] *)
| DelItem (i : nat)                        (* [del l[i]] *)
| Clear                                    (* [l.clear()] *)
| ItemSet (i : nat) (key value : string)   (* [l[i][key] = value] *)
| ItemDel (i : nat) (key : string).        (* [del l[i][key]] *)

Definition get_item (items : list loc) (i : nat) : M loc :=
  match items !! i with
  | Some d => ret d
  | None => raise (IndexError "list index out of range")
  end.

Definition mutate (l : loc) (mu : mutation) : M unit :=
  let* items := load_list l in
  match mu with
  | Append m =>
      let* d := alloc (ODict m) in update l (OList (items ++ [d]))
  | SetItem i m =>
      let* d := alloc (ODict m) in
      get_item items i;;
      update l (OList (<[i := d]> items))
  | DelItem i =>
      get_item items i;;
      update l (OList (delete i items))
  | Clear => update l (OList [])
  | ItemSet i key value =>
      let* d := get_item items i in
      let* m := load_dict d in
      update d (ODict (<[key := value]> m))
  | ItemDel i key =>
      let* d := get_item items i in
      let* m := load_dict d in
      match m !! key with
      | Some _ => update d (ODict (delete key m))
      | None => raise (KeyError key)
      end
  end.

(** Mutations of the list object itself, as opposed to its elements. *)
Definition list_level (mu : mutation) : bool :=
  match mu with
  | Append _ | SetItem _ _ | DelItem _ | Clear => true
  | ItemSet _ _ _ | ItemDel _ _ => false
  end.

(** The test the engine applies to the takeaways before saving them:
    [takeaways.startswith("Error:")]. *)
Definition error_flagged (text : string) : bool := Str.startswith text "Error:".

(** The call [generate_takeaways] makes on a store holding [msgs]. *)
Definition takeaways_call (expert_agent : agent) (msgs : list Message)
    (user_goal : string) : call :=
  {| call_at := Takeaways; call_agent := expert_agent;
     call_input := msgs ++ [message "user" (takeaway_prompt user_goal)];
     call_goal := user_goal |}.

(** ** The loop on observed stores

    What an iteration and the loop do, told on the observed store alone:
    the control outcome, the store afterwards and the calls made.  The
    lemmas [loop_body_eq] and [while_loop_eq] show that the code above
    does exactly this on every well-formed store. *)

(** The input of the User Agent: the history, or the goal as one system
    message when the history is empty. *)
Definition user_agent_input (user_goal : string) (msgs : list Message)
    : list Message :=
  match msgs with
  | [] => [message "system" ("The conversation goal is: " +:+ user_goal)]
  | _ => msgs
  end.

Definition turn_call (t : Z) (a : agent) (input : list Message)
    (user_goal : string) : call :=
  {| call_at := AtTurn t; call_agent := a; call_input := input;
     call_goal := user_goal |}.

Definition observed_turn (env : Env) (user_goal : string) (s : Store)
    : loop_ctl * Store * list call :=
  let t := (current_turn s + 1)%Z in
  let input := user_agent_input user_goal (messages s) in
  let asked := turn_call t UserAgent input user_goal in
  match Runner_run env (AtTurn t) UserAgent input user_goal with
  | Raises _ => (Break, s, [asked])
  | Returns result =>
      let question := reply_of result in
      if falsy question then (Continue, advance s, [asked])
      else
        let s1 := extend s (message "user" (reply_text question)) in
        let answered := turn_call t ExpertAgent (messages s1) user_goal in
        match Runner_run env (AtTurn t) ExpertAgent (messages s1) user_goal with
        | Raises _ => (Break, s1, [asked; answered])
        | Returns result' =>
            let answer := reply_of result' in
            if falsy answer then (Break, s1, [asked; answered])
            else (Continue,
                  advance (extend s1 (message "assistant" (reply_text answer))),
                  [asked; answered])
        end
  end.

Fixpoint observed_loop (fuel : nat) (env : Env) (user_goal : string) (s : Store)
    : option (loop_exit * Store * list call) :=
  if (current_turn s >=? max_iterations s)%Z then Some (Completed, s, [])
  else
    match fuel with
    | O => None
    | S fuel' =>
        match observed_turn env user_goal s with
        | (Break, s', cs) => Some (Aborted, s', cs)
        | (Continue, s', cs) =>
            match observed_loop fuel' env user_goal s' with
            | Some (exit, s'', cs') => Some (exit, s'', cs ++ cs')
            | None => None
            end
        end
    end.

(** The text of the transcript of a store, and the path the engine saves
    it to. *)
Definition transcript_text (env : Env) (s : Store) : string :=
  match messages s with
  | [] => "No conversation history available."
  | _ => Str.join Str.nl (transcript_lines env (current_turn s) (messages s))
  end.

Definition transcript_path (env : Env) (self : Engine) : Path :=
  path_div env (output_dir self)
    (generate_filename env (goal_prefix env (user_goal self)) "txt").

(** The messages of completed exchanges: each question followed by its
    answer. *)
Definition exchanges (qa : list (string * string)) : list Message :=
  flat_map (fun x => [message "user" x.1; message "assistant" x.2]) qa.

(** How many of the messages have the role [role]. *)
Definition count_role (role : string) (msgs : list Message) : nat :=
  length (filter (fun m => role_of m = role) msgs).

(** A reply the loop can use: a string that is not empty once stripped. *)
Definition usable (o : run_outcome) : Prop :=
  exists reply, o = Returns (RunResult (PyStr reply)) /\ Str.strip reply <> "".

(** A result that carries no question: a falsy result, or an output that
    is the empty string or not a string. *)
Definition empty_or_not_a_string (o : run_outcome) : Prop :=
  exists result,
    o = Returns result
    /\ (result = FalsyResult
        \/ result = RunResult (PyStr "")
        \/ exists v, result = RunResult v /\ isinstance_str v = false).

(** A reply that is a string and not the empty one. *)
Definition nonempty_text (o : run_outcome) : Prop :=
  exists reply, o = Returns (RunResult (PyStr reply)) /\ reply <> "".

(** [c] is a call to the Expert Agent on turn [k]. *)
Definition expert_call_on (k : Z) (c : call) : Prop :=
  call_at c = AtTurn k /\ call_agent c = ExpertAgent.

Definition user_call_on (k : Z) (c : call) : Prop :=
  call_at c = AtTurn k /\ call_agent c = UserAgent.

(** Messages of the two parties, the first of them a question. *)
Definition dialogue (msgs : list Message) : Prop :=
  Forall (fun m => role_of m = "user" \/ role_of m = "assistant") msgs
  /\ forall m, head msgs = Some m -> role_of m = "user".

(** The world with the calls [cs] added to its log. *)
Definition log_calls (w : world) (cs : list call) : world :=
  {| heap := heap w; calls := calls w ++ cs; files := files w;
     attempts := attempts w |}.

(** ** Scripted environments *)

(** An environment whose inference service replies by [reply] and whose
    file system is [fs]; writes succeed, the clock stands still. *)
Definition scripted (reply : call_site -> agent -> run_outcome)
    (fs : Path -> fs_node) : Env := {|
  Runner_run := fun site a _ _ => reply site a;
  fs_lookup := fs;
  fs_write := fun _ _ => None;
  strftime_now := fun _ => "20240101_000000";
  path_div := fun d f => d +:+ "/" +:+ f;
  path_name := fun p => p;
  path_stem := fun p => p;
  capitalize := fun s => s;
  lower := fun s => s;
|}.

Definition no_files : Path -> fs_node := fun _ => Absent.

(** A file system with the one regular file [name], holding [text]. *)
Definition one_file (name text : string) : Path -> fs_node :=
  fun p => if bool_decide (p = name) then RegularFile (inl text) else Absent.

(** The content of the system message a seed file gives. *)
Definition seed_content (name content : string) : string :=
  "Initial context from history file (" +:+ name +:+ "):" +:+ Str.nl +:+ "---" +:+
  Str.nl +:+ content +:+ Str.nl +:+ "---".

Definition says (s : string) : run_outcome := Returns (RunResult (PyStr s)).

Definition empty_world : world :=
  {| heap := []; calls := []; files := []; attempts := [] |}.

(** The world after [ConversationHistory(max_iterations)] in a new
    process, and the address of the store in it. *)
Definition new_store (max_iterations : Z) : world :=
  {| heap := [OList []; OHistory max_iterations 0 0]; calls := []; files := [];
     attempts := [] |}.

Definition the_store : loc := 1.

(** The world after one completed exchange, with a limit of one turn. *)
Definition one_exchange : world :=
  {| heap := [OList [2; 3]; OHistory 1 0 1;
              ODict (message "user" "Q1"); ODict (message "assistant" "A1")];
     calls := []; files := []; attempts := [] |}.

(** An environment with no files whose inference service always
    replies [ok]. *)
Definition plain_env : Env := scripted (fun _ _ => says "ok") no_files.

(** The stubs of the scenario with two turns: questions [Q1], [Q2] and
    answers [A1], [A2]. *)
Definition two_turns : Env :=
  scripted (fun site a =>
              match site, a with
              | AtTurn 1, UserAgent => says "Q1"
              | AtTurn 1, ExpertAgent => says "A1"
              | _, UserAgent => says "Q2"
              | _, ExpertAgent => says "A2"
              end) no_files.

(** Every reply is a string that is not empty; the questions are one
    space. *)
Definition blank_questions : Env :=
  scripted (fun _ a =>
              match a with
              | UserAgent => says " "
              | ExpertAgent => says "A"
              end) no_files.

(** The first question is one space; on the second turn the question is
    [Q2] and the Expert Agent raises. *)
Definition blank_then_failure : Env :=
  scripted (fun site a =>
              match site, a with
              | AtTurn 1, UserAgent => says " "
              | _, UserAgent => says "Q2"
              | AtTurn 2, ExpertAgent => Raises "service unavailable"
              | _, ExpertAgent => says "A1"
              end) no_files.

(** The Expert Agent raises on the second turn. *)
Definition failure_on_second : Env :=
  scripted (fun site a =>
              match site, a with
              | AtTurn 1, UserAgent => says "Q1"
              | _, UserAgent => says "Q2"
              | AtTurn 2, ExpertAgent => Raises "service unavailable"
              | _, ExpertAgent => says "A1"
              end) no_files.

(** The first question is empty; the other replies are [Q] and [A]. *)
Definition empty_first_question : Env :=
  scripted (fun site a =>
              match site, a with
              | AtTurn 1, UserAgent => says ""
              | _, UserAgent => says "Q"
              | _, ExpertAgent => says "A"
              end) no_files.

(** The first question is empty and the second is [Q]; every answer of
    the Expert Agent is one space. *)
Definition blank_answers : Env :=
  scripted (fun site a =>
              match site, a with
              | AtTurn 1, UserAgent => says ""
              | _, UserAgent => says "Q"
              | _, ExpertAgent => says " "
              end) no_files.


Definition the_engine : Engine :=
  {| history := the_store; user_goal := "find the answer"; output_dir := "out" |}.

(** ** Further notions: runs, outputs and the calls of a client *)

(** A text as the loop stores it: not empty, and with no whitespace left
    to strip. *)
Definition clean (x : string) : Prop := x <> "" /\ Str.strip x = x.

(** A result the loop cannot use: a falsy result, an output that is not
    a string, or a string that is empty once stripped. *)
Definition unusable (o : run_outcome) : Prop :=
  exists result,
    o = Returns result
    /\ (result = FalsyResult
        \/ (exists v, result = RunResult v /\ isinstance_str v = false)
        \/ exists reply, result = RunResult (PyStr reply) /\ Str.strip reply = "").


(** The turn and the agent of a call. *)
Definition call_key (c : call) : call_site * agent := (call_at c, call_agent c).


(** The User Agent raises on the second turn. *)
Definition user_failure_on_second : Env :=
  scripted (fun site a =>
              match site, a with
              | AtTurn 2, UserAgent => Raises "service unavailable"
              | _, UserAgent => says "Q1"
              | _, ExpertAgent => says "A1"
              end) no_files.

(** The Expert Agent's second answer is blank. *)
Definition blank_second_answer : Env :=
  scripted (fun site a =>
              match site, a with
              | AtTurn 1, UserAgent => says "Q1"
              | _, UserAgent => says "Q2"
              | AtTurn 2, ExpertAgent => says "  "
              | _, ExpertAgent => says "A1"
              end) no_files.

(** The User Agent never gives a question. *)
Definition no_questions : Env :=
  scripted (fun _ a =>
              match a with
              | UserAgent => Returns (RunResult PyNone)
              | ExpertAgent => says "A"
              end) no_files.

(** The text [generate_takeaways] returns on a store holding [msgs]
    (which is not empty). *)
Definition takeaways_text (env : Env) (user_goal : string) (msgs : list Message)
    : string :=
  match Runner_run env Takeaways ExpertAgent
          (msgs ++ [message "user" (takeaway_prompt user_goal)]) user_goal with
  | Returns (RunResult (PyStr reply)) => Str.strip reply
  | Returns _ => "Error: Failed to generate valid takeaways from the LLM."
  | Raises msg => "Error generating takeaways: " +:+ msg
  end.

(** The path and the text of the takeaways file that goes with the
    engine's transcript. *)
Definition takeaways_path (env : Env) (self : Engine) : Path :=
  path_div env (output_dir self)
    (path_stem env (path_name env (transcript_path env self)) +:+ "_takeaways.txt").

Definition takeaways_file_text (env : Env) (self : Engine) (takeaways : string)
    : string :=
  "# Takeaways from: " +:+ path_name env (transcript_path env self) +:+
  Str.nl +:+ Str.nl +:+ takeaways.

(** The files [run_conversation] writes for a final store [s], and
    whether it calls the service for the takeaways. *)
Definition takeaways_attempted (env : Env) (self : Engine) (s : Store) : bool :=
  match fs_write env (transcript_path env self) (transcript_text env s), messages s with
  | None, _ :: _ => true
  | _, _ => false
  end.

Definition saved_files (env : Env) (self : Engine) (s : Store)
    : list (Path * string) :=
  match fs_write env (transcript_path env self) (transcript_text env s) with
  | Some _ => []
  | None =>
      (transcript_path env self, transcript_text env s) ::
      match messages s with
      | [] => []
      | _ =>
          let takeaways := takeaways_text env (user_goal self) (messages s) in
          if error_flagged takeaways then []
          else
            match fs_write env (takeaways_path env self)
                    (takeaways_file_text env self takeaways) with
            | Some _ => []
            | None => [(takeaways_path env self, takeaways_file_text env self takeaways)]
            end
      end
  end.

(** The paths [run_conversation] opens, or tries to open, for writing
    for a final store [s]: the transcript's always, and the takeaways'
    when the transcript was written and there are takeaways to save. *)
Definition tried_paths (env : Env) (self : Engine) (s : Store) : list Path :=
  transcript_path env self ::
  match fs_write env (transcript_path env self) (transcript_text env s), messages s with
  | None, _ :: _ =>
      if error_flagged (takeaways_text env (user_goal self) (messages s)) then []
      else [takeaways_path env self]
  | _, _ => []
  end.

(** [env] with the file writes decided by [wr]. *)
Definition with_writes (env : Env) (wr : Path -> string -> option pyexn) : Env := {|
  Runner_run := Runner_run env;
  fs_lookup := fs_lookup env;
  fs_write := wr;
  strftime_now := strftime_now env;
  path_div := path_div env;
  path_name := path_name env;
  path_stem := path_stem env;
  capitalize := capitalize env;
  lower := lower env;
|}.

(** One turn, [Q1] and [A1]; no file can be written. *)
Definition disk_full : Env :=
  with_writes two_turns (fun _ _ => Some (IOError "No space left on device")).

(** [PurePosixPath(p).name] and [PurePosixPath(name).stem]: what follows
    the last slash, and that name without its last suffix (a name keeps
    a dot that is its first or its last character). *)
Fixpoint has_char (c : ascii) (s : string) : bool :=
  match s with
  | EmptyString => false
  | String c' s' => Stdlib.Strings.Ascii.eqb c' c || has_char c s'
  end.

Fixpoint posix_name (p : string) : string :=
  match p with
  | EmptyString => EmptyString
  | String c r =>
      if has_char "/" r then posix_name r
      else if Stdlib.Strings.Ascii.eqb c "/" then r else p
  end.

Fixpoint drop_suffix (r : string) : string :=
  match r with
  | EmptyString => EmptyString
  | String c r' =>
      if has_char "." r' then String c (drop_suffix r')
      else
        match r' with
        | EmptyString => r
        | _ => if Stdlib.Strings.Ascii.eqb c "." then EmptyString else r
        end
  end.

Definition posix_stem (name : string) : string :=
  match name with
  | EmptyString => EmptyString
  | String c r => String c (drop_suffix r)
  end.

(** [env] with the names and stems of POSIX paths. *)
Definition with_posix_paths (env : Env) : Env := {|
  Runner_run := Runner_run env;
  fs_lookup := fs_lookup env;
  fs_write := fs_write env;
  strftime_now := strftime_now env;
  path_div := path_div env;
  path_name := posix_name;
  path_stem := posix_stem;
  capitalize := capitalize env;
  lower := lower env;
|}.

(** One turn, [Q1] and [A1]; the takeaways are [- point]. *)
Definition takeaways_ok : Env :=
  with_posix_paths
    (scripted (fun site a =>
                 match site, a with
                 | Takeaways, _ => says " - point "
                 | _, UserAgent => says "Q1"
                 | _, ExpertAgent => says "A1"
                 end) no_files).

(** An engine whose goal holds a path separator: the name made from the
    goal then leads into a directory below the output directory. *)
Definition engine_with_slash : Engine :=
  {| history := the_store; user_goal := "a/b test goal"; output_dir := "out" |}.

(** One turn, [Q1] and [A1]; the reply for the takeaways begins with
    [Error:]. *)
Definition takeaways_flagged : Env :=
  scripted (fun site a =>
              match site, a with
              | Takeaways, _ => says "Error: the model was too confident"
              | _, UserAgent => says "Q1"
              | _, ExpertAgent => says "A1"
              end) no_files.

(** One turn, [Q1] and [A1]; the call for the takeaways raises. *)
Definition takeaways_fail : Env :=
  with_posix_paths
    (scripted (fun site a =>
                 match site, a with
                 | Takeaways, _ => Raises "rate limit"
                 | _, UserAgent => says "Q1"
                 | _, ExpertAgent => says "A1"
                 end) no_files).

(** ** The calls of a client on a store *)

Inductive store_op :=
| AddMessage (role content : pyval)   (* [history.add_message(role, content)] *)
| IncrementTurn                       (* [history.increment_turn()] *)
| GetHistory                          (* [history.get_history()] *)
| IsComplete.                         (* [history.is_complete()] *)

(** One call, whose result the client drops and whose exception it
    catches. *)
Definition run_op (self : loc) (op : store_op) (w : world) : world :=
  match op with
  | AddMessage role content => (add_message self role content w).2
  | IncrementTurn => (increment_turn self w).2
  | GetHistory => (get_history self w).2
  | IsComplete => (is_complete self w).2
  end.

Definition run_ops (self : loc) (ops : list store_op) (w : world) : world :=
  foldl (fun w op => run_op self op w) w ops.

(** The message a call adds, if any: that of an [add_message] with a
    role of the three and a string content. *)
Definition accepted (op : store_op) : list Message :=
  match op with
  | AddMessage (PyStr role) (PyStr content) =>
      if bool_decide (role ∈ ["user"; "assistant"; "system"])
      then [message role content] else []
  | _ => []
  end.

Definition counted (op : store_op) : Z :=
  match op with IncrementTurn => 1 | _ => 0 end.

Definition turns_counted (ops : list store_op) : Z :=
  foldr (fun op n => counted op + n)%Z 0%Z ops.

(** ** [AppConfig.history_file_must_exist]

    The validator of the field [history_file_path]: it returns the value
    or raises [ValueError]. *)
Definition history_file_must_exist (env : Env) (v : option Path)
    : pyexn + option Path :=
  match v with
  | None => inr v
  | Some p =>
      match fs_lookup env p with
      | Absent => inl (ValueError ("History file path does not exist: " +:+ p))
      | Directory => inl (ValueError ("History file path is not a file: " +:+ p))
      | RegularFile _ => inr v
      end
  end.

(** A file system whose one file [name] cannot be read. *)
Definition unreadable_file (name : string) (e : pyexn) : Path -> fs_node :=
  fun p => if bool_decide (p = name) then RegularFile (inr e) else Absent.

(** * The set-up of a run *)

(** ** The configuration ([config_loader.py]) *)

Module Config.

Record AgentRoleConfig := {
  name : string;
  description : string;
  instructions : string;
}.

Record AppConfig := {
  user_agent_goal : string;
  expert_agent_persona : string;
  max_iterations : Z;
  openai_api_key : option string;
  openai_model : string;
  output_dir : Path;
  history_file_path : option Path;
  user_agent_config : option AgentRoleConfig;
  expert_agent_config : option AgentRoleConfig;
}.

(** [config.max_iterations = n] *)
Definition set_max_iterations (self : AppConfig) (n : Z) : AppConfig := {|
  user_agent_goal := user_agent_goal self;
  expert_agent_persona := expert_agent_persona self;
  max_iterations := n;
  openai_api_key := openai_api_key self;
  openai_model := openai_model self;
  output_dir := output_dir self;
  history_file_path := history_file_path self;
  user_agent_config := user_agent_config self;
  expert_agent_config := expert_agent_config self;
|}.

Definition get_user_agent_instructions (self : AppConfig) : string :=
  match user_agent_config self with
  | Some c => instructions c
  | None => ""
  end.

Definition get_expert_agent_instructions (self : AppConfig) : string :=
  match expert_agent_config self with
  | Some c => instructions c
  | None => expert_agent_persona self
  end.

End Config.

(** [if key] for an optional text: the text when it is there and not
    empty. *)
Definition truthy_text (key : option string) : option string :=
  match key with
  | Some k => if bool_decide (k ≠ "") then Some k else None
  | None => None
  end.

(** ** What the set-up uses of the process and of the libraries *)

(** The [instructions] argument of an agent: a text, or the function
    [_get_user_agent_instructions], which the service calls with the
    context of each run. *)
Inductive instructions_arg :=
| Static (text : string)
| Dynamic.

(** [Agent[ConversationContext](name=, instructions=, model=)] *)
Record Agent := {
  Agent_name : string;
  Agent_instructions : instructions_arg;
  Agent_model : string;
}.

(** A value of a parsed configuration file, as far as the loader looks
    at it; [JOther] is a number that is no integer, a list or a dict,
    with its truth value. *)
Inductive jval :=
| JNull
| JBool (b : bool)
| JNum (z : Z)
| JStr (s : string)
| JOther (truth : bool).

Definition jval_truthy (v : option jval) : bool :=
  match v with
  | None | Some JNull => false
  | Some (JBool b) => b
  | Some (JNum z) => negb (z =? 0)%Z
  | Some (JStr s) => bool_decide (s ≠ "")
  | Some (JOther truth) => truth
  end.

Inductive raw_config :=
| RawDict (d : gmap string jval)
| RawOther.

(** [json.load(f)] or [yaml.safe_load(f)]: a parse error of the format
    ([JSONDecodeError], [YAMLError]), another exception, or a value. *)
Inductive parsing :=
| ParseError (msg : string)
| ParseRaises (e : pyexn)
| Parsed (raw : raw_config).

(** [AppConfig] called with the entries of [raw_config]: pydantic's
    [ValidationError], another exception, or the configuration. *)
Inductive validation :=
| ValidationError (msg : string)
| ValidationRaises (e : pyexn)
| Valid (config : Config.AppConfig).

(** [import openai]: the module is there, or the import raises
    [ImportError], which the code catches, or it raises something
    else. *)
Inductive importing :=
| Imported
| NotImportable
| ImportRaises (e : pyexn).

(** [parser.parse_args()]: the arguments, or the exit [argparse] makes
    on its own, with status 2 on a command line it rejects and status 0
    after [--help]. *)
Inductive parsed_args :=
| ArgsExit (code : Z)
| Args (config_file : string) (max_iterations : option Z).

Record Host := {
  (** [path.mkdir(parents=True, exist_ok=True)]: what it raises, if
      anything *)
  mkdir : Path -> option pyexn;
  import_openai : importing;
  (** the constructor of [Agent]: what it raises, if anything *)
  Agent_new : Agent -> option pyexn;
  (** [load_dotenv()], on the variable [OPENAI_API_KEY]: what it
      raises, or the value of the variable afterwards *)
  load_dotenv : option string -> pyexn + option string;
  (** [parser.parse_args()] on the command line [argv] *)
  parse_args : list string -> parsed_args;
  (** [open(config_path, 'r')]: what it raises, if anything *)
  open_config : Path -> option pyexn;
  (** [config_path.suffix] *)
  path_suffix : Path -> string;
  json_load : Path -> parsing;
  yaml_safe_load : Path -> parsing;
  AppConfig_new : gmap string jval -> validation;
}.

(** The process: the objects and the logs of the run, the environment
    variable [OPENAI_API_KEY], the attribute [openai.api_key] as far as
    the code has set it, and the directories made. *)
Record process := {
  the_world : world;
  OPENAI_API_KEY : option string;
  openai_api_key_attr : option string;
  made_dirs : list Path;
}.

Definition set_world (p : process) (w : world) : process :=
  {| the_world := w; OPENAI_API_KEY := OPENAI_API_KEY p;
     openai_api_key_attr := openai_api_key_attr p; made_dirs := made_dirs p |}.

Definition set_environ (p : process) (key : option string) : process :=
  {| the_world := the_world p; OPENAI_API_KEY := key;
     openai_api_key_attr := openai_api_key_attr p; made_dirs := made_dirs p |}.

(** Whether a text holds the character of code 0: such a text cannot be
    the value of an environment variable. *)
Definition embedded_null (s : string) : bool :=
  has_char (Stdlib.Strings.Ascii.ascii_of_nat 0) s.

(** ** [agent_factory.py] *)

Module AgentFactory.

(** [os.environ['OPENAI_API_KEY'] = api_key] raises [ValueError] on a
    text with an embedded null character and then leaves the variable as
    it was; the assignment comes before the import. *)
Definition _set_openai_key (host : Host) (api_key : option string) (p : process)
    : outcome unit * process :=
  match truthy_text api_key with
  | Some k =>
      if embedded_null k then (Raise (ValueError "embedded null byte"), p)
      else
        let p := set_environ p (Some k) in
        match import_openai host with
        | Imported =>
            (Ret tt,
             {| the_world := the_world p; OPENAI_API_KEY := OPENAI_API_KEY p;
                openai_api_key_attr := Some k; made_dirs := made_dirs p |})
        | NotImportable => (Ret tt, p)
        | ImportRaises e => (Raise e, p)
        end
  | None =>
      match truthy_text (OPENAI_API_KEY p) with
      | None =>
          (Raise (ValueError "OpenAI API Key must be provided either in config file or as OPENAI_API_KEY environment variable."),
           p)
      | Some _ => (Ret tt, p)
      end
  end.

Definition create_user_agent (host : Host) (config : Config.AppConfig) (p : process)
    : outcome Agent * process :=
  match _set_openai_key host (Config.openai_api_key config) p with
  | (Raise e, p') => (Raise e, p')
  | (Ret _, p') =>
      let instructions :=
        match Config.user_agent_config config with
        | Some _ => Static (Config.get_user_agent_instructions config)
        | None => Dynamic
        end in
      let user_agent :=
        {| Agent_name := match Config.user_agent_config config with
                         | None => "UserAgent"
                         | Some c => Config.name c
                         end;
           Agent_instructions := instructions;
           Agent_model := Config.openai_model config |} in
      match Agent_new host user_agent with
      | Some e => (Raise e, p')
      | None => (Ret user_agent, p')
      end
  end.

Definition create_expert_agent (host : Host) (config : Config.AppConfig) (p : process)
    : outcome Agent * process :=
  match _set_openai_key host (Config.openai_api_key config) p with
  | (Raise e, p') => (Raise e, p')
  | (Ret _, p') =>
      let expert_instructions := Config.get_expert_agent_instructions config in
      let expert_name :=
        match Config.expert_agent_config config with
        | Some c => Config.name c
        | None => "ExpertAgent"
        end in
      let expert_agent :=
        {| Agent_name := expert_name;
           Agent_instructions := Static expert_instructions;
           Agent_model := Config.openai_model config |} in
      match Agent_new host expert_agent with
      | Some e => (Raise e, p')
      | None => (Ret expert_agent, p')
      end
  end.

End AgentFactory.

(** ** [OutputManager.__init__] and [ConversationEngine.__init__] *)

(** [self.output_dir.mkdir(parents=True, exist_ok=True)], any exception
    replaced by a [RuntimeError] *)
Definition _ensure_output_dir_exists (host : Host) (output_dir : Path) (p : process)
    : outcome unit * process :=
  match mkdir host output_dir with
  | Some e => (Raise (RuntimeError ("Cannot create output directory: " +:+ exn_str e)), p)
  | None =>
      (Ret tt,
       {| the_world := the_world p; OPENAI_API_KEY := OPENAI_API_KEY p;
          openai_api_key_attr := openai_api_key_attr p;
          made_dirs := made_dirs p ++ [output_dir] |})
  end.

(** The engine once constructed: the attributes [run_conversation]
    reads, and the two agents. *)
Record ConversationEngine := {
  engine : Engine;
  user_agent : Agent;
  expert_agent : Agent;
}.

(** [ConversationEngine(config)] *)
Definition new_engine (host : Host) (env : Env) (config : Config.AppConfig)
    (p : process) : outcome ConversationEngine * process :=
  match __init__ env (Config.max_iterations config) (Config.history_file_path config)
          (the_world p) with
  | (Raise e, w) => (Raise e, set_world p w)
  | (Ret history, w) =>
      match _ensure_output_dir_exists host (Config.output_dir config) (set_world p w) with
      | (Raise e, p1) => (Raise e, p1)
      | (Ret _, p1) =>
          let failed :=
            RuntimeError "Failed to initialize agents for ConversationEngine" in
          match AgentFactory.create_user_agent host config p1 with
          | (Raise _, p2) => (Raise failed, p2)
          | (Ret user_agent, p2) =>
              match AgentFactory.create_expert_agent host config p2 with
              | (Raise _, p3) => (Raise failed, p3)
              | (Ret expert_agent, p3) =>
                  (Ret {| engine := {| history := history;
                                       user_goal := Config.user_agent_goal config;
                                       output_dir := Config.output_dir config |};
                          user_agent := user_agent;
                          expert_agent := expert_agent |},
                   p3)
              end
          end
      end
  end.

(** ** [load_config] *)

(** What [load_config] raises: its own [ConfigLoaderError], or an
    exception of the classes of [pyexn]. *)
Inductive load_exn :=
| ConfigLoaderError (msg : string)
| Py (e : pyexn).

Definition parsed_or_error (config_path : Path) (r : parsing) : string + raw_config :=
  match r with
  | ParseError msg =>
      inl ("Error parsing config file " +:+ config_path +:+ ": " +:+ msg)
  | ParseRaises e =>
      inl ("Error reading config file " +:+ config_path +:+ ": " +:+ exn_str e)
  | Parsed raw => inr raw
  end.

(** The [try] block that opens and parses the file: the text of the
    [ConfigLoaderError] it ends in, or the parsed value. *)
Definition read_raw_config (host : Host) (config_path : Path) : string + raw_config :=
  match open_config host config_path with
  | Some e =>
      inl ("Error reading config file " +:+ config_path +:+ ": " +:+ exn_str e)
  | None =>
      let suffix := path_suffix host config_path in
      if bool_decide (suffix = ".json") then
        parsed_or_error config_path (json_load host config_path)
      else if bool_decide (suffix ∈ [".yaml"; ".yml"]) then
        parsed_or_error config_path (yaml_safe_load host config_path)
      else
        inl ("Error reading config file " +:+ config_path +:+ ": " +:+
             "Unsupported config file format: " +:+ suffix +:+
             ". Use .json or .yaml.")
  end.

(** [if not raw_config.get('openaiApiKey'): ...]: the key of the
    environment is used when the file gives none. *)
Definition with_env_api_key (raw_config : gmap string jval) (environ : option string)
    : gmap string jval :=
  if jval_truthy (raw_config !! "openaiApiKey") then raw_config
  else
    match truthy_text environ with
    | Some env_api_key => <["openaiApiKey" := JStr env_api_key]> raw_config
    | None => raw_config
    end.

(** The [try] block that validates: [AppConfig] is constructed and its
    key checked. *)
Definition validated_config (host : Host) (raw_config : gmap string jval)
    : load_exn + Config.AppConfig :=
  match AppConfig_new host raw_config with
  | ValidationError msg =>
      inl (ConfigLoaderError ("Configuration validation failed:" +:+ Str.nl +:+ msg))
  | ValidationRaises (ValueError msg) =>
      inl (ConfigLoaderError ("Configuration validation failed: " +:+ msg))
  | ValidationRaises e => inl (Py e)
  | Valid config =>
      match truthy_text (Config.openai_api_key config) with
      | Some _ => inr config
      | None =>
          inl (ConfigLoaderError
                 ("Configuration validation failed: " +:+
                  "OpenAI API Key is required. Provide it in the config file or as OPENAI_API_KEY environment variable."))
      end
  end.

Definition load_config (host : Host) (env : Env) (config_path : Path)
    (p : process) : (load_exn + Config.AppConfig) * process :=
  match load_dotenv host (OPENAI_API_KEY p) with
  | inl e => (inl (Py e), p)
  | inr key =>
      let p := set_environ p key in
      (match fs_lookup env config_path with
       | Absent =>
           inl (Py (FileNotFoundError
                      ("Configuration file not found: " +:+ config_path)))
       | _ =>
           match read_raw_config host config_path with
           | inl msg => inl (ConfigLoaderError msg)
           | inr RawOther =>
               inl (ConfigLoaderError
                      ("Invalid config file format in " +:+ config_path +:+
                       ". Root must be an object/dictionary."))
           | inr (RawDict raw_config) =>
               validated_config host (with_env_api_key raw_config (OPENAI_API_KEY p))
           end
       end,
       p)
  end.

(** ** [cli.main] *)

(** How [main] ends: [sys.exit(code)], its own or that of the argument
    parser, a normal return, or an exception of [load_config] that it
    does not catch. *)
Inductive main_end :=
| SysExit (code : Z)
| Returned
| Uncaught (e : pyexn).

(** [parse_arguments()]: the parser is set up with the positional
    [config_file], a string, and the option [--max-iterations], an
    integer that is [None] when the option is not given; what it makes
    of the command line is [argparse]'s. *)
Definition parse_arguments (host : Host) (argv : list string) : parsed_args :=
  parse_args host argv.

(** [main()] on the command line [argv]. *)
Definition main (host : Host) (env : Env) (argv : list string) (p : process)
    : option (main_end * process) :=
  match parse_arguments host argv with
  | ArgsExit code => Some (SysExit code, p)
  | Args config_file max_iterations =>
      match fs_lookup env config_file with
      | RegularFile _ =>
          match load_config host env config_file p with
          | (inl (ConfigLoaderError _), p1) => Some (SysExit 1, p1)
          | (inl (Py e), p1) =>
              if is_FileNotFoundError e then Some (SysExit 1, p1)
              else Some (Uncaught e, p1)
          | (inr config, p1) =>
              let config :=
                match max_iterations with
                | Some n =>
                    if (n >? 0)%Z then Config.set_max_iterations config n else config
                | None => config
                end in
              match new_engine host env config p1 with
              | (Raise _, p2) => Some (SysExit 1, p2)
              | (Ret built, p2) =>
                  match run_conversation env (engine built) (the_world p2) with
                  | None => None
                  | Some (Raise _, w) => Some (SysExit 1, set_world p2 w)
                  | Some (Ret _, w) => Some (Returned, set_world p2 w)
                  end
              end
          end
      | _ => Some (SysExit 1, p)
      end
  end.

(** Why [_set_openai_key], called with the key [api_key] of the
    configuration while the variable holds [environ], raises [e]: no key
    anywhere, a key that cannot be put in the environment, or an import
    that raises something other than [ImportError]. *)
Definition key_failure (host : Host) (api_key environ : option string) (e : pyexn)
    : Prop :=
  (truthy_text api_key = None /\ truthy_text environ = None
   /\ e = ValueError "OpenAI API Key must be provided either in config file or as OPENAI_API_KEY environment variable.")
  \/ (exists k, truthy_text api_key = Some k /\ embedded_null k = true
                /\ e = ValueError "embedded null byte")
  \/ (exists k, truthy_text api_key = Some k /\ embedded_null k = false
                /\ import_openai host = ImportRaises e).

(** What [load_config] gives once [load_dotenv] has returned. *)
Definition loaded (host : Host) (env : Env) (config_path : Path)
    (r : load_exn + Config.AppConfig) : Prop :=
  match r with
  | inr config =>
      fs_lookup env config_path <> Absent
      /\ exists k, Config.openai_api_key config = Some k /\ k <> ""
  | inl (Py e) =>
      (fs_lookup env config_path = Absent
       /\ e = FileNotFoundError ("Configuration file not found: " +:+ config_path))
      \/ (fs_lookup env config_path <> Absent
          /\ (forall msg, e <> ValueError msg)
          /\ exists raw, AppConfig_new host raw = ValidationRaises e)
  | inl (ConfigLoaderError _) => fs_lookup env config_path <> Absent
  end.

(** ** A host and a configuration for the scenarios *)

Definition the_config : Config.AppConfig := {|
  Config.user_agent_goal := "find the answer";
  Config.expert_agent_persona := "You are an expert.";
  Config.max_iterations := 1;
  Config.openai_api_key := Some "sk-config";
  Config.openai_model := "gpt-4.1-mini";
  Config.output_dir := "out";
  Config.history_file_path := None;
  Config.user_agent_config := None;
  Config.expert_agent_config := None;
|}.

(** A host on which nothing fails: every configuration file parses to
    an empty dict, which validates to [config]. *)
Definition plain_host (config : Config.AppConfig) : Host := {|
  mkdir := fun _ => None;
  import_openai := Imported;
  Agent_new := fun _ => None;
  load_dotenv := fun key => inr key;
  parse_args := fun argv =>
    match argv with
    | [config_file] => Args config_file None
    | [config_file; "--max-iterations"; "2"] => Args config_file (Some 2%Z)
    | _ => ArgsExit 2
    end;
  open_config := fun _ => None;
  path_suffix := fun _ => ".json";
  json_load := fun _ => Parsed (RawDict ∅);
  yaml_safe_load := fun _ => Parsed (RawDict ∅);
  AppConfig_new := fun _ => Valid config;
|}.


(** A configuration whose key holds a null character. *)
Definition null_key_config : Config.AppConfig := {|
  Config.user_agent_goal := "find the answer";
  Config.expert_agent_persona := "You are an expert.";
  Config.max_iterations := 1;
  Config.openai_api_key :=
    Some ("sk" +:+ String (Stdlib.Strings.Ascii.ascii_of_nat 0) "x");
  Config.openai_model := "gpt-4.1-mini";
  Config.output_dir := "out";
  Config.history_file_path := None;
  Config.user_agent_config := None;
  Config.expert_agent_config := None;
|}.

(** A new process, with the environment variable unset or set. *)
Definition new_process (key : option string) : process :=
  {| the_world := empty_world; OPENAI_API_KEY := key;
     openai_api_key_attr := None; made_dirs := [] |}.

(** The scenario [two_turns] with a configuration file [config.json]. *)
Definition with_config_file : Env :=
  scripted (fun site a =>
              match site, a with
              | AtTurn 1, UserAgent => says "Q1"
              | AtTurn 1, ExpertAgent => says "A1"
              | _, UserAgent => says "Q2"
              | _, ExpertAgent => says "A2"
              end) (one_file "config.json" "{}").


(** * Properties *)

(** ** The heap *)

Lemma lookup_alloc_old (h : list pyobj) (o x : pyobj) (l : loc) :
  h !! l = Some x -> (h ++ [o]) !! l = Some x.
Proof. intros H. by apply lookup_app_l_Some. Qed.

Lemma lookup_alloc_new (h : list pyobj) (o : pyobj) :
  (h ++ [o]) !! length h = Some o.
Proof. by rewrite lookup_app_r, Nat.sub_diag. Qed.

Lemma dicts_at_alloc h o items msgs :
  dicts_at h items msgs -> dicts_at (h ++ [o]) items msgs.
Proof.
  unfold dicts_at. intros H.
  eapply Forall2_impl; [exact H|]. intros l m Hl. by apply lookup_alloc_old.
Qed.

(** Updating an object that is not a dict leaves the dicts in place. *)
Lemma dicts_at_update h l o items msgs :
  (forall d, h !! l <> Some (ODict d)) ->
  dicts_at h items msgs -> dicts_at (<[l := o]> h) items msgs.
Proof.
  unfold dicts_at. intros Hl H.
  eapply Forall2_impl; [exact H|]. intros l' m Hl'. cbv beta in Hl'.
  rewrite list_lookup_insert_ne; [done|]. intros ->. by apply (Hl m).
Qed.

Lemma dicts_at_snoc h items msgs d m :
  dicts_at h items msgs -> h !! d = Some (ODict m) ->
  dicts_at h (items ++ [d]) (msgs ++ [m]).
Proof.
  unfold dicts_at. intros H Hd. apply Forall2_app; [done|]. by constructor.
Qed.

Lemma mapM_load_dict w items msgs :
  dicts_at (heap w) items msgs -> mapM load_dict items w = (Ret msgs, w).
Proof.
  induction 1 as [|l m items msgs Hl _ IH]; [done|].
  cbn [mapM]. unfold bind at 1. unfold load_dict at 1.
  rewrite Hl. unfold bind at 1. rewrite IH. done.
Qed.

Lemma mapM_load_dict_inv items : forall w r w',
  mapM load_dict items w = (r, w') ->
  w' = w /\ forall msgs, r = Ret msgs -> dicts_at (heap w) items msgs.
Proof.
  induction items as [|l items IH]; intros w r w' H.
  - inversion H; subst. split; [done|]. intros msgs [= <-]. constructor.
  - cbn [mapM] in H. unfold bind at 1 in H. unfold load_dict at 1 in H.
    destruct (heap w !! l) as [[d| |]|] eqn:Hl; try (inversion H; subst; split; [done|]; intros; discriminate).
    unfold bind at 1 in H.
    destruct (mapM load_dict items w) as [[ms|e] w1] eqn:Hm.
    + destruct (IH _ _ _ Hm) as [-> Hd]. inversion H; subst. split; [done|].
      intros msgs [= <-]. constructor; [done|]. by apply Hd.
    + destruct (IH _ _ _ Hm) as [-> _]. inversion H; subst. split; [done|].
      intros; discriminate.
Qed.

Lemma read_messages_at w l msgs :
  list_at (heap w) l msgs -> read_messages l w = (Ret msgs, w).
Proof.
  intros (items & Hl & Hd). unfold read_messages, bind, load_list.
  rewrite Hl. by apply mapM_load_dict.
Qed.

Lemma read_messages_inv w l msgs w' :
  read_messages l w = (Ret msgs, w') -> w' = w /\ list_at (heap w) l msgs.
Proof.
  unfold read_messages, bind, load_list. intros H.
  destruct (heap w !! l) as [[d|items|]|] eqn:Hl; try discriminate.
  destruct (mapM_load_dict_inv _ _ _ _ H) as [-> Hd].
  split; [done|]. exists items. split; [done|]. by apply Hd.
Qed.

Lemma observe_list_at w l msgs :
  observe_list l w = Some msgs <-> list_at (heap w) l msgs.
Proof.
  unfold observe_list. split.
  - destruct (read_messages l w) as [[ms|e] w'] eqn:H; [|done].
    intros [= <-]. by apply read_messages_inv in H as [_ H].
  - intros H. by rewrite (read_messages_at _ _ _ H).
Qed.

Lemma observe_store_at w self s :
  observe self w = Some s <-> store_at (heap w) self s.
Proof.
  unfold observe, store_at. split.
  - destruct (heap w !! self) as [[d|items|mx ml t]|] eqn:Hs; try done.
    destruct (read_messages ml w) as [[ms|e] w'] eqn:H; [|done].
    intros [= <-]. cbn. exists ml. split; [done|].
    by apply read_messages_inv in H as [_ H].
  - intros (ml & Hs & Hl). rewrite Hs, (read_messages_at _ _ _ Hl).
    by destruct s.
Qed.

(** A store determines what is observed of it. *)
Lemma dicts_at_fun h items msgs1 msgs2 :
  dicts_at h items msgs1 -> dicts_at h items msgs2 -> msgs1 = msgs2.
Proof.
  intros H1. revert msgs2.
  induction H1 as [|l m items msgs Hl _ IH]; intros msgs2 H2; inversion H2; subst; [done|].
  f_equal; [congruence|]. by apply IH.
Qed.

Lemma list_at_alloc h o l msgs : list_at h l msgs -> list_at (h ++ [o]) l msgs.
Proof.
  intros (items & Hl & Hd). exists items.
  split; [by apply lookup_alloc_old | by apply dicts_at_alloc].
Qed.

Lemma store_at_alloc h o self s : store_at h self s -> store_at (h ++ [o]) self s.
Proof.
  intros (ml & Hs & Hl). exists ml.
  split; [by apply lookup_alloc_old | by apply list_at_alloc].
Qed.

(** A list object that is updated in place: the other lists and the
    store's attributes are untouched. *)
Lemma list_at_update_other h l l' o msgs :
  l <> l' -> (forall d, h !! l' <> Some (ODict d)) ->
  list_at h l msgs -> list_at (<[l' := o]> h) l msgs.
Proof.
  intros Hne Hnd (items & Hl & Hd). exists items. split.
  - by rewrite list_lookup_insert_ne.
  - by apply dicts_at_update.
Qed.

(** ** The methods of [ConversationHistory] on a well-formed store *)

Lemma get_current_turn_eq w self s :
  store_at (heap w) self s -> get_current_turn self w = (Ret (current_turn s), w).
Proof.
  intros (ml & Hs & _). unfold get_current_turn, bind, load_history. by rewrite Hs.
Qed.

Lemma is_complete_eq w self s :
  store_at (heap w) self s ->
  is_complete self w = (Ret (current_turn s >=? max_iterations s)%Z, w).
Proof.
  intros (ml & Hs & _). unfold is_complete, bind, load_history. by rewrite Hs.
Qed.

Lemma increment_turn_eq w self s :
  store_at (heap w) self s ->
  exists h', increment_turn self w = (Ret tt, set_heap w h')
             /\ store_at h' self (advance s).
Proof.
  intros (ml & Hs & Hl).
  exists (<[self := OHistory (max_iterations s) ml (current_turn s + 1)]> (heap w)).
  split.
  - unfold increment_turn, bind, load_history. by rewrite Hs.
  - exists ml. split.
    + apply list_lookup_insert_eq. by eapply lookup_lt_Some.
    + apply list_at_update_other; [|congruence|done].
      intros ->. destruct Hl as (items & Hl & _). congruence.
Qed.

Lemma add_message_eq w self s role content :
  store_at (heap w) self s ->
  role ∈ ["user"; "assistant"; "system"] ->
  exists h', add_message self (PyStr role) (PyStr content) w = (Ret tt, set_heap w h')
             /\ store_at h' self (extend s (message role content)).
Proof.
  intros (ml & Hs & items & Hl & Hd) Hrole.
  set (d := length (heap w)).
  set (h1 := heap w ++ [ODict (message role content)]).
  exists (<[ml := OList (items ++ [d])]> h1). split.
  - unfold add_message. rewrite bool_decide_eq_false_2.
    2:{ intros Hn. apply Hn. unfold valid_roles.
        repeat (apply elem_of_cons in Hrole as [->|Hrole]; [set_solver|]).
        by apply elem_of_nil in Hrole. }
    unfold bind, alloc, load_history, load_list, update. cbn [heap set_heap pyval_str].
    rewrite (lookup_alloc_old _ _ _ _ Hs). cbn [heap set_heap].
    rewrite (lookup_alloc_old _ _ _ _ Hl). done.
  - assert (Hml : ml < length h1).
    { eapply lookup_lt_Some. by apply lookup_alloc_old. }
    exists ml. split.
    + rewrite list_lookup_insert_ne; [by apply lookup_alloc_old|].
      intros ->. congruence.
    + exists (items ++ [d]). split; [by apply list_lookup_insert_eq|].
      apply dicts_at_update.
      { intros d'. subst h1. rewrite (lookup_alloc_old _ _ _ _ Hl). done. }
      apply dicts_at_snoc; [by apply dicts_at_alloc | apply lookup_alloc_new].
Qed.

(** C5. On a store holding the messages [messages s], [add_message] with
    a role among system, user and assistant and a string content returns
    normally and leaves the store holding [messages s] followed by the
    one new message (so one message more, the earlier ones in their
    order, the counters untouched); with any other role, or with a content
    that is not a string, it raises [ValueError] and the whole world,
    the store included, is as it was. *)
Theorem add_message_appends_or_fails (w : world) (self : loc) (s : Store) :
  observe self w = Some s ->
  (forall role content, role ∈ ["user"; "assistant"; "system"] ->
     exists w',
       add_message self (PyStr role) (PyStr content) w = (Ret tt, w')
       /\ observe self w' =
            Some {| max_iterations := max_iterations s;
                    messages := messages s ++ [message role content];
                    current_turn := current_turn s |}
       /\ length (messages s ++ [message role content]) = S (length (messages s)))
  /\ (forall role content, role ∉ valid_roles ->
        exists msg, add_message self role content w = (Raise (ValueError msg), w))
  /\ (forall role content, isinstance_str content = false ->
        exists msg, add_message self role content w = (Raise (ValueError msg), w)).
Proof.
  intros Hs. apply observe_store_at in Hs. split; [|split].
  - intros role content Hrole.
    destruct (add_message_eq w self s role content Hs Hrole) as (h' & Heq & Hs').
    exists (set_heap w h'). split; [done|]. split.
    + by apply observe_store_at.
    + rewrite length_app. cbn. lia.
  - intros role content Hrole. unfold add_message.
    rewrite bool_decide_eq_true_2 by done. by eexists.
  - intros role content Hc. unfold add_message.
    case_bool_decide; [by eexists|].
    destruct content; try discriminate; by eexists.
Qed.

Lemma add_message_appends_or_fails_witness :
  exists w',
    add_message the_store (PyStr "user") (PyStr "Hello expert agent!") (new_store 5)
    = (Ret tt, w')
    /\ observe the_store w' =
         Some {| max_iterations := 5;
                 messages := [message "user" "Hello expert agent!"];
                 current_turn := 0 |}
    /\ length [message "user" "Hello expert agent!"] = 1.
Proof.
  destruct (add_message_appends_or_fails (new_store 5) the_store
              {| max_iterations := 5; messages := []; current_turn := 0 |}
              eq_refl) as [H _].
  apply (H "user" "Hello expert agent!").
  apply list_elem_of_here.
Defined.

(** ** Frames *)

(** What is observed of a store depends only on the objects that exist. *)
Lemma list_at_agree h h' l msgs :
  list_at h l msgs -> agree_below (length h) h h' -> list_at h' l msgs.
Proof.
  intros (items & Hl & Hd) Hag. exists items. split.
  - rewrite Hag; [done|]. by eapply lookup_lt_Some.
  - eapply Forall2_impl; [exact Hd|]. intros d m Hm. cbv beta in *.
    rewrite Hag; [done|]. by eapply lookup_lt_Some.
Qed.

Lemma store_at_agree h h' self s :
  store_at h self s -> agree_below (length h) h h' -> store_at h' self s.
Proof.
  intros (ml & Hs & Hl) Hag. exists ml. split.
  - rewrite Hag; [done|]. by eapply lookup_lt_Some.
  - by eapply list_at_agree.
Qed.

Lemma agree_below_app h more : agree_below (length h) h (h ++ more).
Proof. intros l Hl. by apply lookup_app_l. Qed.

Lemma agree_below_update h more l o :
  length h <= l -> agree_below (length h) h (<[l := o]> (h ++ more)).
Proof.
  intros Hle l' Hl'. rewrite list_lookup_insert_ne by lia. by apply lookup_app_l.
Qed.

Lemma agree_below_length h h' :
  agree_below (length h) h h' -> length h <= length h'.
Proof.
  intros Hag. destruct (decide (length h = 0)) as [->|Hne]; [lia|].
  assert (Hl : length h - 1 < length h) by lia.
  specialize (Hag _ Hl). apply lookup_lt_is_Some_2 in Hl as [x Hx].
  rewrite Hx in Hag. apply lookup_lt_Some in Hag. lia.
Qed.

Lemma agree_below_trans h h1 h2 :
  agree_below (length h) h h1 -> agree_below (length h1) h1 h2 ->
  agree_below (length h) h h2.
Proof.
  intros H1 H2 l Hl. rewrite H2, H1; [done..|].
  apply agree_below_length in H1. lia.
Qed.

(** ** [get_history] *)

Lemma get_history_eq w self s :
  store_at (heap w) self s ->
  exists items,
    get_history self w
    = (Ret (length (heap w)), set_heap w (heap w ++ [OList items]))
    /\ dicts_at (heap w) items (messages s).
Proof.
  intros (ml & Hs & items & Hl & Hd). exists items. split; [|done].
  unfold get_history, bind, load_history, load_list, alloc.
  rewrite Hs. cbn [heap]. by rewrite Hl.
Qed.

Lemma get_history_at w self s :
  store_at (heap w) self s ->
  exists l h', get_history self w = (Ret l, set_heap w h')
               /\ store_at h' self s /\ list_at h' l (messages s).
Proof.
  intros Hs. destruct (get_history_eq _ _ _ Hs) as (items & Heq & Hd).
  eexists _, _. split; [exact Heq|]. split.
  - by apply store_at_alloc.
  - exists items. split; [apply lookup_alloc_new | by apply dicts_at_alloc].
Qed.

(** The snapshot equals the stored history, and taking it leaves the
    store as it was. *)
Lemma get_history_snapshot w self s :
  observe self w = Some s ->
  exists l w', get_history self w = (Ret l, w')
               /\ observe_list l w' = Some (messages s)
               /\ observe self w' = Some s.
Proof.
  intros Hs. apply observe_store_at in Hs.
  destruct (get_history_at _ _ _ Hs) as (l & h' & Heq & Hs' & Hl).
  exists l, (set_heap w h'). split; [done|]. split.
  - by apply observe_list_at.
  - by apply observe_store_at.
Qed.

(** Two snapshots taken with no [add_message] between them are equal
    sequences, held by two distinct list objects. *)
Lemma get_history_twice w self s :
  observe self w = Some s ->
  exists l1 w1 l2 w2,
    get_history self w = (Ret l1, w1) /\ get_history self w1 = (Ret l2, w2)
    /\ l1 <> l2
    /\ observe_list l1 w2 = Some (messages s)
    /\ observe_list l2 w2 = Some (messages s).
Proof.
  intros Hs. apply observe_store_at in Hs.
  destruct (get_history_eq _ _ _ Hs) as (items & Heq & Hd).
  assert (Hs1 : store_at (heap (set_heap w (heap w ++ [OList items]))) self s)
    by (by apply store_at_alloc).
  destruct (get_history_eq _ _ _ Hs1) as (items' & Heq' & Hd').
  eexists _, _, _, _. split; [exact Heq|]. split; [exact Heq'|].
  cbn [heap set_heap] in *. split; [rewrite length_app; cbn; lia|]. split.
  - apply observe_list_at. exists items. cbn [heap set_heap]. split.
    + apply lookup_alloc_old, lookup_alloc_new.
    + by do 2 apply dicts_at_alloc.
  - apply observe_list_at. exists items'. cbn [heap set_heap]. split.
    + apply lookup_alloc_new.
    + by apply dicts_at_alloc.
Qed.

(** No mutation of the returned list object itself (appending, replacing
    or deleting an item, clearing) changes what the store holds, whether
    the mutation succeeds or raises. *)
Lemma get_history_list_mutation w self s l w1 mu r w2 :
  observe self w = Some s ->
  get_history self w = (Ret l, w1) ->
  list_level mu = true ->
  mutate l mu w1 = (r, w2) ->
  observe self w2 = Some s.
Proof.
  intros Hs Hget Hmu Hmut. apply observe_store_at in Hs.
  destruct (get_history_eq _ _ _ Hs) as (items & Heq & Hd).
  rewrite Heq in Hget. injection Hget as <- <-.
  apply observe_store_at. eapply store_at_agree; [exact Hs|].
  unfold mutate, bind, load_list in Hmut. cbn [heap set_heap] in Hmut.
  rewrite lookup_alloc_new in Hmut.
  destruct mu as [m|i m|i| | |]; try discriminate.
  - unfold alloc, update in Hmut. injection Hmut as <- <-. cbn [heap set_heap].
    rewrite <- app_assoc. by apply agree_below_update.
  - unfold alloc, update, get_item, ret, raise in Hmut. cbn [heap set_heap] in Hmut.
    destruct (items !! i); injection Hmut as <- <-; cbn [heap set_heap];
      rewrite <- app_assoc; [by apply agree_below_update | apply agree_below_app].
  - unfold update, get_item, ret, raise in Hmut.
    destruct (items !! i); injection Hmut as <- <-; cbn [heap set_heap];
      [by apply agree_below_update | apply agree_below_app].
  - unfold update in Hmut. injection Hmut as <- <-. cbn [heap set_heap].
    by apply agree_below_update.
Qed.

(** C2. The copy is shallow: the snapshot is a new list, but it holds
    the store's own message dicts.  On a store holding the one message
    [{"role": "user", "content": "hi"}], the snapshot equals the stored
    history, and after [snapshot[0]["content"] = "changed"] the store
    holds [{"role": "user", "content": "changed"}]. *)
Theorem get_history_shares_the_messages :
  exists w1 snapshot w2 w3,
    add_message the_store (PyStr "user") (PyStr "hi") (new_store 5) = (Ret tt, w1)
    /\ get_history the_store w1 = (Ret snapshot, w2)
    /\ observe_list snapshot w2 = Some [message "user" "hi"]
    /\ (messages <$> observe the_store w2) = Some [message "user" "hi"]
    /\ mutate snapshot (ItemSet 0 "content" "changed") w2 = (Ret tt, w3)
    /\ (messages <$> observe the_store w3) = Some [message "user" "changed"].
Proof.
  eexists _, _, _, _.
  split; [vm_compute; reflexivity|].
  split; [vm_compute; reflexivity|].
  split; [vm_compute; reflexivity|].
  split; [vm_compute; reflexivity|].
  split; vm_compute; reflexivity.
Qed.

(** ** Strings *)

Lemma append_assoc (a b c : string) : (a +:+ b) +:+ c = a +:+ (b +:+ c).
Proof.
  induction a as [|x a IH]; [done|].
  change (String x ((a +:+ b) +:+ c) = String x (a +:+ b +:+ c)). by rewrite IH.
Qed.

Lemma prefix_nil (s : string) : String.prefix "" s = true.
Proof. by destruct s. Qed.

Lemma prefix_app (p s : string) : String.prefix p (p +:+ s) = true.
Proof.
  induction p as [|c p IH]; [apply prefix_nil|].
  change (String.prefix (String c p) (String c (p +:+ s)) = true). cbn [String.prefix].
  destruct (Stdlib.Strings.Ascii.ascii_dec c c); [exact IH | done].
Qed.

Lemma contains_prefix (needle hay : string) :
  String.prefix needle hay = true -> Str.contains needle hay = true.
Proof. intros H. destruct hay; cbn [Str.contains]; by rewrite H. Qed.

Lemma contains_app (needle before after : string) :
  Str.contains needle (before +:+ needle +:+ after) = true.
Proof.
  induction before as [|c before IH].
  - change (Str.contains needle (needle +:+ after) = true).
    apply contains_prefix, prefix_app.
  - change (Str.contains needle (String c (before +:+ needle +:+ after)) = true).
    cbn [Str.contains]. rewrite IH. apply orb_true_r.
Qed.

Lemma contains_seed_content (name content : string) :
  Str.contains content (seed_content name content) = true.
Proof.
  unfold seed_content.
  rewrite <- !(append_assoc _ _ (content +:+ _)).
  apply contains_app.
Qed.

(** ** Construction *)

Lemma init_store_at (h : list pyobj) (n : Z) :
  store_at ((h ++ [OList []]) ++ [OHistory n (length h) 0]) (length (h ++ [OList []]))
    {| max_iterations := n; messages := []; current_turn := 0 |}.
Proof.
  exists (length h). split; [apply lookup_alloc_new|].
  exists []. split; [apply lookup_alloc_old, lookup_alloc_new | constructor].
Qed.

Lemma init_unseeded env w n :
  exists self w',
    __init__ env n None w = (Ret self, w')
    /\ observe self w' =
         Some {| max_iterations := n; messages := []; current_turn := 0 |}.
Proof.
  eexists _, _. split; [reflexivity|].
  apply observe_store_at. cbn [heap set_heap]. apply init_store_at.
Qed.

(** C8. Constructing a store with a seed path: when the path leads to
    nothing, or to something that is not a regular file, construction
    raises [FileNotFoundError]; when the file is read and its text is not
    empty once stripped, the new store holds exactly one message, of
    role system, whose content contains the stripped text; when the
    stripped text is empty, construction succeeds and the new store
    holds no message. *)
Theorem init_seeded (env : Env) (w : world) (n : Z) (file_path : string) :
  (fs_lookup env file_path = Absent \/ fs_lookup env file_path = Directory ->
     exists msg w',
       __init__ env n (Some file_path) w = (Raise (FileNotFoundError msg), w'))
  /\ (forall text,
        fs_lookup env file_path = RegularFile (inl text) ->
        Str.strip text <> "" ->
        exists self w' content,
          __init__ env n (Some file_path) w = (Ret self, w')
          /\ observe self w' =
               Some {| max_iterations := n;
                       messages := [message "system" content];
                       current_turn := 0 |}
          /\ content = seed_content (path_name env file_path) (Str.strip text)
          /\ Str.contains (Str.strip text) content = true)
  /\ (forall text,
        fs_lookup env file_path = RegularFile (inl text) ->
        Str.strip text = "" ->
        exists self w',
          __init__ env n (Some file_path) w = (Ret self, w')
          /\ observe self w' =
               Some {| max_iterations := n; messages := []; current_turn := 0 |}).
Proof.
  split; [|split].
  - intros H. unfold __init__, bind, alloc, _load_from_file, try_except.
    destruct H as [-> | ->]; cbn [raise is_FileNotFoundError]; by eexists _, _.
  - intros text Hfs Hne.
    pose proof (init_store_at (heap w) n) as Hs.
    set (self := length (heap w ++ [OList []])) in *.
    set (w2 := set_heap (set_heap w (heap w ++ [OList []]))
                 ((heap w ++ [OList []]) ++ [OHistory n (length (heap w)) 0])).
    destruct (add_message_eq w2 self _ "system"
                (seed_content (path_name env file_path) (Str.strip text)) Hs)
      as (h' & Heq & Hs'); [set_solver|].
    exists self, (set_heap w2 h'), (seed_content (path_name env file_path) (Str.strip text)).
    split; [|split; [by apply observe_store_at|split; [done|apply contains_seed_content]]].
    unfold __init__, bind, alloc, _load_from_file, try_except. cbn [heap set_heap].
    rewrite Hfs, bool_decide_eq_true_2 by done.
    fold self. fold w2. unfold seed_content in Heq. by rewrite Heq.
  - intros text Hfs Hempty.
    eexists _, _. split.
    + unfold __init__, bind, alloc, _load_from_file, try_except. cbn [heap set_heap].
      rewrite Hfs, bool_decide_eq_false_2 by (intros H; by apply H). reflexivity.
    + apply observe_store_at. cbn [heap set_heap]. apply init_store_at.
Qed.

Lemma init_seeded_witness :
  let env := scripted (fun _ _ => says "") (one_file "seed.txt" "hello") in
  (exists msg w',
     __init__ env 5 (Some "missing.txt") empty_world
     = (Raise (FileNotFoundError msg), w'))
  /\ (exists self w' content,
        __init__ env 5 (Some "seed.txt") empty_world = (Ret self, w')
        /\ observe self w' =
             Some {| max_iterations := 5;
                     messages := [message "system" content];
                     current_turn := 0 |}
        /\ content = seed_content "seed.txt" "hello"
        /\ Str.contains "hello" content = true).
Proof.
  intros env. split.
  - apply (init_seeded env empty_world 5 "missing.txt"). left. reflexivity.
  - apply (proj1 (proj2 (init_seeded env empty_world 5 "seed.txt")) "hello").
    + reflexivity.
    + discriminate.
Defined.

(** ** The transcript *)

Lemma message_lines_heading env (msgs : list Message) : forall (i : Z) (index : nat) m,
  msgs !! index = Some m ->
  message_lines env i msgs !! (3 * index)
  = Some (heading (role_title env (role_of m))
            (display_turn (i + Z.of_nat index) (role_of m))).
Proof.
  induction msgs as [|m0 msgs IH]; intros i index m Hm; [done|].
  destruct index as [|index].
  - injection Hm as ->. cbn. by rewrite Z.add_0_r.
  - cbn in Hm. cbn [message_lines].
    rewrite lookup_app_r by (cbn [length]; lia).
    replace (3 * S index - length _) with (3 * index) by (cbn [length]; lia).
    rewrite (IH (i + 1)%Z index m Hm). do 3 f_equal. lia.
Qed.

Lemma transcript_lines_heading env (t : Z) (msgs : list Message) (index : nat) m :
  msgs !! index = Some m ->
  transcript_lines env t msgs !! (3 + 3 * index)
  = Some (heading (role_title env (role_of m))
            (display_turn (1 + Z.of_nat index) (role_of m))).
Proof.
  intros Hm. unfold transcript_lines.
  rewrite lookup_app_r by (cbn [length]; lia).
  replace (3 + 3 * index - length _) with (3 * index) by (cbn [length]; lia).
  by rewrite (message_lines_heading env _ 1 index m Hm).
Qed.

Lemma format_conversation_eq env w self s :
  store_at (heap w) self s ->
  exists items,
    format_conversation env self w
    = (Ret match messages s with
           | [] => "No conversation history available."
           | _ => Str.join Str.nl (transcript_lines env (current_turn s) (messages s))
           end,
       set_heap w (heap w ++ [OList items])).
Proof.
  intros Hs. destruct (get_history_eq _ _ _ Hs) as (items & Heq & Hd).
  exists items. unfold format_conversation. unfold bind at 1. rewrite Heq.
  unfold bind at 1. rewrite (read_messages_at _ _ (messages s)).
  2:{ exists items. cbn [heap set_heap].
      split; [apply lookup_alloc_new | by apply dicts_at_alloc]. }
  destruct (messages s) as [|m msgs] eqn:E; [done|].
  unfold bind. rewrite (get_current_turn_eq _ _ s); [done|].
  cbn [heap set_heap]. by apply store_at_alloc.
Qed.

(** C6, as the code has it.  The transcript of a store that holds
    messages is the lines of [transcript_lines] joined by newlines, and
    in those lines the heading of the message at position [index]
    (0-based) shows turn 0 when the message's role is system and
    [(index + 2) / 2] rounded down otherwise: the code counts the
    messages from 1 and halves that count plus one. *)
Theorem heading_turn_number (env : Env) (w : world) (self : loc) (s : Store) :
  observe self w = Some s ->
  messages s <> [] ->
  (exists w',
     format_conversation env self w
     = (Ret (Str.join Str.nl (transcript_lines env (current_turn s) (messages s))), w'))
  /\ forall (index : nat) (m : Message),
       messages s !! index = Some m ->
       transcript_lines env (current_turn s) (messages s) !! (3 + 3 * index)
       = Some (heading (role_title env (role_of m))
                 (if bool_decide (role_of m = "system") then 0
                  else (Z.of_nat index + 2) `div` 2)%Z).
Proof.
  intros Hs Hne. apply observe_store_at in Hs. split.
  - destruct (format_conversation_eq env _ _ _ Hs) as (items & Heq).
    eexists. rewrite Heq. by destruct (messages s).
  - intros index m Hm. rewrite (transcript_lines_heading env _ _ index m Hm).
    do 2 f_equal.
    unfold display_turn. repeat case_bool_decide; try done. f_equal. lia.
Qed.

Lemma heading_turn_number_witness :
  transcript_lines plain_env 1 [message "user" "Q1"; message "assistant" "A1"]
    !! (3 + 3 * 1)
  = Some "## Expert (Turn 1)".
Proof.
  apply (proj2 (heading_turn_number plain_env one_exchange the_store
                  {| max_iterations := 1;
                     messages := [message "user" "Q1"; message "assistant" "A1"];
                     current_turn := 1 |}
                  eq_refl ltac:(discriminate))
           1 (message "assistant" "A1")).
  reflexivity.
Defined.

(** C6, as the claim words it, fails on the first message: at position 0
    the formula [(index + 1) / 2] gives 0, and the heading of a first
    user message shows turn 1. *)
Lemma first_heading_shows_turn_one :
  let msgs := [message "user" "Q1"] in
  msgs !! 0 = Some (message "user" "Q1")
  /\ transcript_lines plain_env 1 msgs !! (3 + 3 * 0) = Some "## User (Turn 1)"
  /\ transcript_lines plain_env 1 msgs !! (3 + 3 * 0)
     <> Some (heading (role_title plain_env "user") ((Z.of_nat 0 + 1) `div` 2)%Z).
Proof.
  split; [reflexivity|]. split; [reflexivity|]. vm_compute. discriminate.
Qed.

(** ** The inference service *)

Lemma read_messages_world l w r w' : read_messages l w = (r, w') -> w' = w.
Proof.
  unfold read_messages, bind, load_list. intros H.
  destruct (heap w !! l) as [[d|items|]|]; try (by injection H as _ <-).
  by destruct (mapM_load_dict_inv _ _ _ _ H).
Qed.

Lemma runner_run_eq env site a l goal w msgs :
  list_at (heap w) l msgs ->
  runner_run env site a l goal w
  = (match Runner_run env site a msgs goal with
     | Raises msg => Raise (Exception_ msg)
     | Returns r => Ret r
     end,
     log_call w {| call_at := site; call_agent := a;
                   call_input := msgs; call_goal := goal |}).
Proof.
  intros Hl. unfold runner_run, bind. rewrite (read_messages_at _ _ _ Hl).
  by destruct (Runner_run env site a msgs goal).
Qed.

(** [Runner.run] changes no object. *)
Lemma runner_run_heap env site a l goal w r w' :
  runner_run env site a l goal w = (r, w') -> heap w' = heap w.
Proof.
  unfold runner_run, bind. intros H.
  destruct (read_messages l w) as [[msgs|e] w1] eqn:Hr;
    apply read_messages_world in Hr as ->.
  - destruct (Runner_run env site a msgs goal); by injection H as _ <-.
  - by injection H as _ <-.
Qed.

(** ** [generate_takeaways] *)

Lemma dicts_at_nil_inv h items : dicts_at h items [] -> items = [].
Proof. by inversion 1. Qed.

Lemma dicts_at_cons_inv h items m msgs :
  dicts_at h items (m :: msgs) -> items <> [].
Proof. by inversion 1. Qed.

Lemma generate_takeaways_empty env w self s goal a :
  store_at (heap w) self s -> messages s = [] ->
  generate_takeaways env self goal a w
  = (Ret "Error: Cannot generate takeaways from empty history.",
     set_heap w (heap w ++ [OList []])).
Proof.
  intros Hs Hnil. destruct (get_history_eq _ _ _ Hs) as (items & Heq & Hd).
  rewrite Hnil in Hd. apply dicts_at_nil_inv in Hd as ->.
  unfold generate_takeaways. unfold bind at 1. rewrite Heq.
  unfold bind, load_list. cbn [heap set_heap]. by rewrite lookup_alloc_new.
Qed.

Lemma generate_takeaways_nonempty env w self s goal a :
  store_at (heap w) self s -> messages s <> [] ->
  exists h',
    generate_takeaways env self goal a w
    = (Ret match Runner_run env Takeaways a
                   (messages s ++ [message "user" (takeaway_prompt goal)]) goal with
           | Returns (RunResult (PyStr reply)) => Str.strip reply
           | Returns _ => "Error: Failed to generate valid takeaways from the LLM."
           | Raises msg => "Error generating takeaways: " +:+ msg
           end,
       log_call (set_heap w h') (takeaways_call a (messages s) goal))
    /\ agree_below (length (heap w)) (heap w) h'.
Proof.
  intros Hs Hne. destruct (get_history_eq _ _ _ Hs) as (items & Heq & Hd).
  destruct items as [|i0 items0].
  { destruct (messages s); [done|]. by apply dicts_at_cons_inv in Hd. }
  eexists. split.
  - unfold generate_takeaways. unfold bind at 1. rewrite Heq.
    unfold bind at 1, load_list at 1. cbn [heap set_heap]. rewrite lookup_alloc_new.
    unfold bind at 1, alloc at 1. unfold bind at 1, alloc at 1. cbn [heap set_heap].
    unfold try_except, bind.
    rewrite (runner_run_eq env _ _ _ _ _
               (messages s ++ [message "user" (takeaway_prompt goal)])).
    2:{ cbn [heap set_heap]. eexists. split; [apply lookup_alloc_new|].
        apply dicts_at_alloc, dicts_at_snoc.
        - by do 2 apply dicts_at_alloc.
        - apply lookup_alloc_new. }
    destruct (Runner_run env Takeaways a _ goal) as [msg|[|[| |reply]]]; reflexivity.
  - rewrite <- !app_assoc. apply agree_below_app.
Qed.


(** The text returned when the invocation raises starts with [Error ]
    and not with [Error:], so the engine's test does not see it as an
    error. *)
Lemma raised_takeaways_not_flagged (msg : string) :
  error_flagged ("Error generating takeaways: " +:+ msg) = false.
Proof. reflexivity. Qed.



(** C9. [generate_takeaways] allocates and changes nothing: whatever it
    returns or raises, every object that existed before the call is
    as it was, and so a store holds the same messages and the same
    counters after the call as before. *)
Theorem generate_takeaways_frame (env : Env) (w : world) (self : loc) (s : Store)
    (goal : string) (expert_agent : agent) (r : outcome string) (w' : world) :
  observe self w = Some s ->
  generate_takeaways env self goal expert_agent w = (r, w') ->
  observe self w' = Some s
  /\ agree_below (length (heap w)) (heap w) (heap w').
Proof.
  intros Hs Hrun. apply observe_store_at in Hs.
  assert (Hag : agree_below (length (heap w)) (heap w) (heap w')).
  { destruct (decide (messages s = [])) as [Hm|Hm].
    - rewrite (generate_takeaways_empty env w self s goal expert_agent Hs Hm) in Hrun.
      injection Hrun as _ <-. apply agree_below_app.
    - destruct (generate_takeaways_nonempty env w self s goal expert_agent Hs Hm)
        as (h' & Heq & Hag).
      rewrite Heq in Hrun. by injection Hrun as _ <-. }
  split; [|done]. apply observe_store_at. by eapply store_at_agree.
Qed.

Lemma generate_takeaways_frame_witness :
  let run := generate_takeaways plain_env the_store "goal" ExpertAgent one_exchange in
  observe the_store (snd run)
  = Some {| max_iterations := 1;
            messages := [message "user" "Q1"; message "assistant" "A1"];
            current_turn := 1 |}.
Proof.
  intros run.
  apply (generate_takeaways_frame plain_env one_exchange the_store _
           "goal" ExpertAgent (fst run) (snd run) eq_refl).
  apply surjective_pairing.
Defined.

(** ** Running a computation step by step *)

Lemma bind_ret_eq {A B} (m : M A) (k : A -> M B) w a w' r :
  m w = (Ret a, w') -> k a w' = r -> bind m k w = r.
Proof. unfold bind. by intros -> <-. Qed.

Lemma bind_raise_eq {A B} (m : M A) (k : A -> M B) w e w' :
  m w = (Raise e, w') -> bind m k w = (Raise e, w').
Proof. unfold bind. by intros ->. Qed.

Lemma try_except_ret_eq {A} (m : M A) (handler : pyexn -> M A) w a w' :
  m w = (Ret a, w') -> try_except m handler w = (Ret a, w').
Proof. unfold try_except. by intros ->. Qed.

Lemma try_except_raise_eq {A} (m : M A) (handler : pyexn -> M A) w e w' r :
  m w = (Raise e, w') -> handler e w' = r -> try_except m handler w = r.
Proof. unfold try_except. by intros -> <-. Qed.

(** [step H] runs the first computation of a [let*] by the equation [H]. *)
Ltac step H := eapply bind_ret_eq; [exact H | cbv beta iota].

(** ** One iteration of the loop *)

Section Iteration.

Variable env : Env.
Variable self : Engine.

Lemma user_agent_turn_eq w s t :
  store_at (heap w) (history self) s ->
  exists h',
    user_agent_turn env self t w
    = (Ret match Runner_run env (AtTurn t) UserAgent
                   (user_agent_input (user_goal self) (messages s))
                   (user_goal self) with
           | Raises _ => None
           | Returns result => Some (reply_of result)
           end,
       log_call (set_heap w h')
         (turn_call t UserAgent (user_agent_input (user_goal self) (messages s))
            (user_goal self)))
    /\ agree_below (length (heap w)) (heap w) h'.
Proof.
  intros Hs. destruct (get_history_eq _ _ _ Hs) as (items & Heq & Hd).
  set (input := user_agent_input (user_goal self) (messages s)).
  set (w1 := set_heap w (heap w ++ [OList items])) in *.
  assert (Hload : load_list (length (heap w)) w1 = (Ret items, w1)).
  { unfold load_list. subst w1. cbn [heap set_heap]. by rewrite lookup_alloc_new. }
  assert (exists l h',
             (match items with
              | [] =>
                  let* initial := alloc (ODict (message "system"
                                    ("The conversation goal is: " +:+ user_goal self))) in
                  alloc (OList [initial])
              | _ => ret (length (heap w))
              end) w1 = (Ret l, set_heap w h')
             /\ list_at h' l input
             /\ agree_below (length (heap w)) (heap w) h')
    as (l & h' & Hin & Hl & Hag).
  { destruct items as [|i0 items0].
    - apply Forall2_nil_inv_l in Hd. subst input. rewrite Hd.
      eexists _, _. split; [reflexivity|]. subst w1. cbn [heap set_heap]. split.
      + eexists. split; [apply lookup_alloc_new|].
        constructor; [|constructor]. apply lookup_alloc_old, lookup_alloc_new.
      + rewrite <- !app_assoc. apply agree_below_app.
    - eexists _, _. split; [reflexivity|]. split.
      + assert (input = messages s) as ->.
        { subst input. destruct (messages s); [by apply Forall2_nil_inv_r in Hd | done]. }
        exists (i0 :: items0).
        split; [apply lookup_alloc_new | by apply dicts_at_alloc].
      + apply agree_below_app. }
  exists h'. split; [|done].
  unfold user_agent_turn.
  pose proof (runner_run_eq env (AtTurn t) UserAgent l (user_goal self)
                (set_heap w h') input Hl) as Hrun.
  destruct (Runner_run env (AtTurn t) UserAgent input (user_goal self))
    as [msg|result].
  - eapply try_except_raise_eq; [|reflexivity].
    step Heq. step Hload. step Hin. by apply bind_raise_eq.
  - apply try_except_ret_eq.
    step Heq. step Hload. step Hin. step Hrun. reflexivity.
Qed.

Lemma expert_agent_turn_eq w s t :
  store_at (heap w) (history self) s ->
  exists h',
    expert_agent_turn env self t w
    = (Ret match Runner_run env (AtTurn t) ExpertAgent (messages s)
                   (user_goal self) with
           | Raises _ => None
           | Returns result => Some (reply_of result)
           end,
       log_call (set_heap w h')
         (turn_call t ExpertAgent (messages s) (user_goal self)))
    /\ agree_below (length (heap w)) (heap w) h'.
Proof.
  intros Hs. destruct (get_history_eq _ _ _ Hs) as (items & Heq & Hd).
  eexists. split; [|apply agree_below_app].
  unfold expert_agent_turn.
  pose proof (runner_run_eq env (AtTurn t) ExpertAgent (length (heap w))
                (user_goal self) (set_heap w (heap w ++ [OList items])) (messages s))
    as Hrun.
  destruct (Runner_run env (AtTurn t) ExpertAgent (messages s) (user_goal self))
    as [msg|result].
  - eapply try_except_raise_eq; [|reflexivity].
    step Heq. apply bind_raise_eq.
    apply Hrun. eexists. cbn [heap set_heap].
    split; [apply lookup_alloc_new | by apply dicts_at_alloc].
  - apply try_except_ret_eq.
    step Heq. eapply bind_ret_eq; [|reflexivity].
    apply Hrun. eexists. cbn [heap set_heap].
    split; [apply lookup_alloc_new | by apply dicts_at_alloc].
Qed.

(** The iteration does to the store what [observed_turn] tells. *)
Lemma loop_body_eq w s :
  store_at (heap w) (history self) s ->
  exists h',
    loop_body env self w
    = (Ret (observed_turn env (user_goal self) s).1.1,
       log_calls (set_heap w h') (observed_turn env (user_goal self) s).2)
    /\ store_at h' (history self) (observed_turn env (user_goal self) s).1.2.
Proof.
  intros Hs. unfold loop_body, observed_turn.
  destruct (user_agent_turn_eq w s (current_turn s + 1) Hs) as (h1 & Hq & Hag1).
  pose proof (store_at_agree _ _ _ _ Hs Hag1) as Hs1.
  destruct (Runner_run env (AtTurn (current_turn s + 1)) UserAgent
              (user_agent_input (user_goal self) (messages s)) (user_goal self))
    as [msg|result].
  { exists h1. split; [|done].
    step (get_current_turn_eq _ _ _ Hs). step Hq. reflexivity. }
  set (asked := turn_call _ UserAgent _ _) in *.
  set (w1 := log_call (set_heap w h1) asked) in *.
  destruct (falsy (reply_of result)) eqn:Hfalsy.
  { destruct (increment_turn_eq w1 (history self) s Hs1) as (h2 & Hinc & Hs2).
    exists h2. split; [|done].
    step (get_current_turn_eq _ _ _ Hs). step Hq. rewrite Hfalsy.
    step Hinc. reflexivity. }
  destruct (add_message_eq w1 (history self) s "user"
              (reply_text (reply_of result)) Hs1) as (h2 & Hadd & Hs2);
    [set_solver|].
  set (s1 := extend s (message "user" (reply_text (reply_of result)))) in *.
  set (w2 := set_heap w1 h2) in *.
  destruct (expert_agent_turn_eq w2 s1 (current_turn s + 1) Hs2)
    as (h3 & Ha & Hag3).
  pose proof (store_at_agree _ _ _ _ Hs2 Hag3) as Hs3.
  assert (Hcalls : forall h,
             log_call (set_heap w2 h)
               (turn_call (current_turn s + 1) ExpertAgent (messages s1) (user_goal self))
             = log_calls (set_heap w h)
                 [asked; turn_call (current_turn s + 1) ExpertAgent (messages s1)
                           (user_goal self)]).
  { intros h. unfold w2, w1, log_calls, log_call, set_heap. cbn [heap calls files].
    by rewrite <- app_assoc. }
  destruct (Runner_run env (AtTurn (current_turn s + 1)) ExpertAgent (messages s1)
              (user_goal self)) as [msg|result'].
  { exists h3. split; [|done].
    step (get_current_turn_eq _ _ _ Hs). step Hq. rewrite Hfalsy.
    step Hadd. step Ha. by rewrite <- Hcalls. }
  destruct (falsy (reply_of result')) eqn:Hfalsy'.
  { exists h3. split; [|done].
    step (get_current_turn_eq _ _ _ Hs). step Hq. rewrite Hfalsy.
    step Hadd. step Ha. rewrite Hfalsy'. by rewrite <- Hcalls. }
  set (w3 := log_call (set_heap w2 h3) _) in *.
  destruct (add_message_eq w3 (history self) s1 "assistant"
              (reply_text (reply_of result')) Hs3) as (h4 & Hadd' & Hs4);
    [set_solver|].
  destruct (increment_turn_eq (set_heap w3 h4) (history self) _ Hs4)
    as (h5 & Hinc & Hs5).
  exists h5. split; [|done].
  step (get_current_turn_eq _ _ _ Hs). step Hq. rewrite Hfalsy.
  step Hadd. step Ha. rewrite Hfalsy'. step Hadd'. step Hinc.
  unfold ret. f_equal. rewrite <- Hcalls. reflexivity.
Qed.

End Iteration.

(** ** The loop *)

Lemma log_calls_nil w : log_calls (set_heap w (heap w)) [] = w.
Proof. destruct w. unfold log_calls, set_heap. cbn. by rewrite app_nil_r. Qed.

Lemma log_calls_app w h1 cs1 h2 cs2 :
  log_calls (set_heap (log_calls (set_heap w h1) cs1) h2) cs2
  = log_calls (set_heap w h2) (cs1 ++ cs2).
Proof. unfold log_calls, set_heap. cbn. by rewrite app_assoc. Qed.

(** The loop does to the store what [observed_loop] tells, and needs more
    fuel exactly when [observed_loop] does. *)
Lemma while_loop_eq env self : forall fuel w s,
  store_at (heap w) (history self) s ->
  match observed_loop fuel env (user_goal self) s with
  | Some (exit, s', cs) =>
      exists h', while_loop env fuel self w
                 = Some (Ret exit, log_calls (set_heap w h') cs)
                 /\ store_at h' (history self) s'
  | None => while_loop env fuel self w = None
  end.
Proof.
  induction fuel as [|fuel IH]; intros w s Hs; cbn [observed_loop while_loop];
    rewrite (is_complete_eq _ _ _ Hs);
    destruct (current_turn s >=? max_iterations s)%Z.
  - exists (heap w). by rewrite log_calls_nil.
  - done.
  - exists (heap w). by rewrite log_calls_nil.
  - destruct (loop_body_eq env self w s Hs) as (h1 & Hbody & Hs1).
    rewrite Hbody.
    destruct (observed_turn env (user_goal self) s) as [[[|] s1] cs1]; cbn [fst snd] in *.
    + specialize (IH (log_calls (set_heap w h1) cs1) s1 Hs1).
      destruct (observed_loop fuel env (user_goal self) s1) as [[[exit s2] cs2]|].
      * destruct IH as (h2 & Hloop & Hs2). exists h2.
        by rewrite Hloop, log_calls_app.
      * done.
    + by exists h1.
Qed.

Lemma observed_turn_counters env goal s :
  max_iterations (observed_turn env goal s).1.2 = max_iterations s
  /\ ((observed_turn env goal s).1.1 = Continue ->
      current_turn (observed_turn env goal s).1.2 = (current_turn s + 1)%Z).
Proof.
  unfold observed_turn.
  repeat match goal with
         | |- context [match ?x with _ => _ end] => destruct x
         end; cbn; done.
Qed.

(** [max_iterations - current_turn] iterations always suffice. *)
Lemma observed_loop_fuel env goal : forall fuel s,
  Z.to_nat (max_iterations s - current_turn s) <= fuel ->
  is_Some (observed_loop fuel env goal s).
Proof.
  induction fuel as [|fuel IH]; intros s Hfuel; cbn [observed_loop];
    destruct (Z.geb_spec (current_turn s) (max_iterations s)) as [Hge|Hlt];
    try done; [lia|].
  destruct (observed_turn_counters env goal s) as [Hmax Hturn].
  destruct (observed_turn env goal s) as [[[|] s1] cs1]; cbn [fst snd] in *; [|done].
  destruct (IH s1) as [[[exit s2] cs2] ->]; [|done].
  rewrite Hmax, Hturn by done. lia.
Qed.

Lemma turns_left_eq self w s :
  store_at (heap w) (history self) s ->
  turns_left self w = Z.to_nat (max_iterations s - current_turn s).
Proof. intros (ml & Hs & _). unfold turns_left. by rewrite Hs. Qed.

(** On a well-formed store the loop terminates and raises nothing. *)
Lemma conversation_loop_eq env self w s :
  store_at (heap w) (history self) s ->
  exists exit s' cs h',
    observed_loop (Z.to_nat (max_iterations s - current_turn s)) env (user_goal self) s
    = Some (exit, s', cs)
    /\ conversation_loop env self w = Some (Ret exit, log_calls (set_heap w h') cs)
    /\ store_at h' (history self) s'.
Proof.
  intros Hs. unfold conversation_loop. rewrite (turns_left_eq _ _ _ Hs).
  pose proof (while_loop_eq env self
                (Z.to_nat (max_iterations s - current_turn s)) w s Hs) as Hloop.
  destruct (observed_loop_fuel env (user_goal self) _ s (le_n _))
    as [[[exit s'] cs] Heq].
  rewrite Heq in Hloop. destruct Hloop as (h' & Hloop & Hs').
  by exists exit, s', cs, h'.
Qed.

(** ** Saving the outputs *)

Lemma generate_filename_nonempty env prefix extension :
  generate_filename env prefix extension <> "".
Proof. unfold generate_filename. by destruct prefix. Qed.

Lemma save_transcript_eq env output_dir self w s filename :
  store_at (heap w) self s ->
  filename <> "" ->
  exists h',
    agree_below (length (heap w)) (heap w) h'
    /\ save_transcript env output_dir self (Some filename) w
       = match fs_write env (path_div env output_dir filename) (transcript_text env s) with
         | None =>
             (Ret (path_div env output_dir filename),
              log_file (log_attempt (set_heap w h') (path_div env output_dir filename))
                (path_div env output_dir filename) (transcript_text env s))
         | Some e =>
             (Raise (RuntimeError ("Failed to save transcript: " +:+ exn_str e)),
              log_attempt (set_heap w h') (path_div env output_dir filename))
         end.
Proof.
  intros Hs Hne. destruct (format_conversation_eq env _ _ _ Hs) as (items & Heq).
  eexists. split; [apply agree_below_app|].
  unfold save_transcript.
  replace (match Some filename with
           | Some "" | None => generate_filename env "conversation" "txt"
           | Some f => f
           end) with filename by (by destruct filename).
  step Heq. fold (transcript_text env s).
  unfold try_except, bind, write_file.
  by destruct (fs_write env _ _).
Qed.

Lemma save_outputs_eq env self w s :
  store_at (heap w) (history self) s ->
  exists w',
    save_outputs env self w = (Ret tt, w')
    /\ agree_below (length (heap w)) (heap w) (heap w')
    /\ (calls w' = calls w
        \/ calls w' = calls w ++ [takeaways_call ExpertAgent (messages s) (user_goal self)])
    /\ exists new,
         files w' = files w ++ new
         /\ forall entry, head new = Some entry ->
                          entry = (transcript_path env self, transcript_text env s).
Proof.
  intros Hs.
  destruct (save_transcript_eq env (output_dir self) (history self) w s
              (generate_filename env (goal_prefix env (user_goal self)) "txt") Hs
              (generate_filename_nonempty _ _ _)) as (h1 & Hag1 & Hsave).
  fold (transcript_path env self) in Hsave.
  destruct (fs_write env (transcript_path env self) (transcript_text env s)) as [e|].
  { (* the transcript could not be written *)
    exists (log_attempt (set_heap w h1) (transcript_path env self)). split.
    - unfold save_outputs.
      eapply bind_ret_eq;
        [eapply try_except_raise_eq; [by apply bind_raise_eq | reflexivity]
        |reflexivity].
    - split; [done|]. split; [by left|]. exists []. by rewrite app_nil_r. }
  set (w1 := log_file (log_attempt (set_heap w h1) _) _ _) in *.
  assert (Hs1 : store_at (heap w1) (history self) s) by (by eapply store_at_agree).
  assert (Hfirst : forall rest entry,
             head ((transcript_path env self, transcript_text env s) :: rest) = Some entry ->
             entry = (transcript_path env self, transcript_text env s)).
  { by intros rest entry [= <-]. }
  assert (Hstart : forall r,
            try_except
              (let* takeaways :=
                 generate_takeaways env (history self) (user_goal self) ExpertAgent in
               if negb (Str.startswith takeaways "Error:") then
                 save_takeaways env (output_dir self) takeaways
                   (path_name env (transcript_path env self));;
                 ret tt
               else ret tt)
              (fun _ => ret tt) w1 = r ->
            save_outputs env self w = r).
  { intros r Hr. unfold save_outputs.
    eapply bind_ret_eq; [apply try_except_ret_eq; by step Hsave | exact Hr]. }
  destruct (decide (messages s = [])) as [Hm|Hm].
  { (* nothing to summarise *)
    eexists. split.
    - apply Hstart, try_except_ret_eq.
      step (generate_takeaways_empty env w1 (history self) s (user_goal self)
              ExpertAgent Hs1 Hm).
      reflexivity.
    - cbn [heap calls files set_heap log_file log_attempt w1]. split.
      + eapply agree_below_trans; [exact Hag1 | apply agree_below_app].
      + split; [by left|]. eexists. split; [reflexivity|apply Hfirst]. }
  destruct (generate_takeaways_nonempty env w1 (history self) s (user_goal self)
              ExpertAgent Hs1 Hm) as (h2 & Hgen & Hag2).
  set (takeaways := match Runner_run env Takeaways ExpertAgent _ _ with
                    | Raises _ => _ | Returns _ => _ end) in *.
  set (w2 := log_call (set_heap w1 h2) _) in *.
  assert (Hag : agree_below (length (heap w)) (heap w) h2)
    by (by eapply agree_below_trans).
  destruct (Str.startswith takeaways "Error:") eqn:Hflag.
  { (* the takeaways are flagged as an error *)
    exists w2. split.
    - apply Hstart, try_except_ret_eq. step Hgen. by rewrite Hflag.
    - split; [done|]. split; [by right|]. eexists. split; [reflexivity|apply Hfirst]. }
  unfold save_takeaways in Hstart.
  set (kpath := path_div env (output_dir self) _) in *.
  set (ktext := "# Takeaways from: " +:+ path_name env (transcript_path env self) +:+
                Str.nl +:+ Str.nl +:+ takeaways).
  destruct (fs_write env kpath ktext) as [e|] eqn:Hwrite.
  - (* the takeaways could not be written *)
    exists (log_attempt w2 kpath). split.
    + apply Hstart. eapply try_except_raise_eq; [|reflexivity].
      step Hgen. rewrite Hflag. cbn [negb]. apply bind_raise_eq.
      unfold try_except, bind, write_file. fold ktext. by rewrite Hwrite.
    + split; [done|]. split; [by right|]. eexists. split; [reflexivity|apply Hfirst].
  - exists (log_file (log_attempt w2 kpath) kpath ktext). split.
    + apply Hstart, try_except_ret_eq.
      step Hgen. rewrite Hflag. cbn [negb].
      eapply bind_ret_eq; [|reflexivity].
      unfold try_except, bind, write_file. fold ktext. by rewrite Hwrite.
    + split; [done|]. split; [by right|].
      exists [(transcript_path env self, transcript_text env s); (kpath, ktext)].
      split; [|apply Hfirst].
      cbn [files log_file log_attempt w2 log_call set_heap w1]. by rewrite <- app_assoc.
Qed.

(** ** [run_conversation] *)

(** On a well-formed store [run_conversation] terminates and returns the
    store: the loop leaves it as [observed_loop] tells, and saving the
    outputs changes neither the store nor the calls made in the loop. *)
Lemma run_conversation_eq env self w s :
  observe (history self) w = Some s ->
  exists exit s' cs w1 w2,
    observed_loop (Z.to_nat (max_iterations s - current_turn s)) env (user_goal self) s
    = Some (exit, s', cs)
    /\ conversation_loop env self w = Some (Ret exit, w1)
    /\ observe (history self) w1 = Some s'
    /\ calls w1 = calls w ++ cs
    /\ files w1 = files w
    /\ run_conversation env self w = Some (Ret (history self), w2)
    /\ observe (history self) w2 = Some s'
    /\ (calls w2 = calls w1
        \/ calls w2 = calls w1 ++ [takeaways_call ExpertAgent (messages s') (user_goal self)])
    /\ exists new,
         files w2 = files w1 ++ new
         /\ forall entry, head new = Some entry ->
                          entry = (transcript_path env self, transcript_text env s').
Proof.
  intros Hs. apply observe_store_at in Hs.
  destruct (conversation_loop_eq env self w s Hs) as (exit & s' & cs & h' & Hobs & Hloop & Hs').
  set (w1 := log_calls (set_heap w h') cs) in *.
  destruct (save_outputs_eq env self w1 s' Hs') as (w2 & Hsave & Hag & Hcalls & Hfiles).
  exists exit, s', cs, w1, w2.
  split; [done|]. split; [done|]. split; [by apply observe_store_at|].
  split; [done|]. split; [done|]. split.
  - unfold run_conversation. rewrite Hloop. unfold bind. by rewrite Hsave.
  - split; [|done]. apply observe_store_at. by eapply store_at_agree.
Qed.

(** ** Messages *)

Lemma role_of_message role content : role_of (message role content) = role.
Proof.
  unfold role_of, dict_get, message.
  by rewrite lookup_insert_ne, lookup_insert_eq.
Qed.

Lemma content_of_message role content : content_of (message role content) = content.
Proof. unfold content_of, dict_get, message. by rewrite lookup_insert_eq. Qed.

Lemma exchanges_cons q a qa :
  exchanges ((q, a) :: qa)
  = message "user" q :: message "assistant" a :: exchanges qa.
Proof. reflexivity. Qed.

Lemma count_role_cons role m msgs :
  count_role role (m :: msgs)
  = (if decide (role_of m = role) then 1 else 0) + count_role role msgs.
Proof. unfold count_role. rewrite filter_cons. by destruct (decide _). Qed.

Lemma count_role_app role msgs1 msgs2 :
  count_role role (msgs1 ++ msgs2) = count_role role msgs1 + count_role role msgs2.
Proof. unfold count_role. by rewrite filter_app, length_app. Qed.

(** [n] exchanges are [n] user messages and [n] assistant messages. *)
Lemma count_role_exchanges qa :
  count_role "user" (exchanges qa) = length qa
  /\ count_role "assistant" (exchanges qa) = length qa.
Proof.
  induction qa as [|[q a] qa [IHu IHa]]; [done|].
  rewrite exchanges_cons, !count_role_cons, !role_of_message, IHu, IHa.
  by rewrite !decide_True, !decide_False by done.
Qed.

(** ** Turns on observed stores *)

Lemma falsy_usable reply :
  Str.strip reply <> "" -> falsy (reply_of (RunResult (PyStr reply))) = false.
Proof. intros H. cbn. by apply bool_decide_eq_false. Qed.

(** A turn in which both agents give a usable reply is a completed
    exchange. *)
Lemma observed_turn_exchange env goal s :
  (forall a input, usable (Runner_run env (AtTurn (current_turn s + 1)) a input goal)) ->
  exists q a cs,
    q <> "" /\ a <> ""
    /\ observed_turn env goal s
       = (Continue,
          {| max_iterations := max_iterations s;
             messages := messages s ++ [message "user" q; message "assistant" a];
             current_turn := current_turn s + 1 |},
          cs).
Proof.
  intros Hok. unfold observed_turn.
  destruct (Hok UserAgent (user_agent_input goal (messages s))) as (q & -> & Hq).
  rewrite (falsy_usable _ Hq). cbn [reply_of reply_text].
  destruct (Hok ExpertAgent
              (messages (extend s (message "user" (Str.strip q))))) as (a & -> & Ha).
  rewrite (falsy_usable _ Ha). cbn [reply_of reply_text].
  exists (Str.strip q), (Str.strip a). eexists. split; [done|]. split; [done|].
  unfold advance, extend. cbn [max_iterations messages current_turn].
  by rewrite <- app_assoc.
Qed.

Lemma store_eta s :
  {| max_iterations := max_iterations s; messages := messages s ++ exchanges [];
     current_turn := current_turn s + Z.of_nat 0 |} = s.
Proof. destruct s. cbn. by rewrite app_nil_r, Z.add_0_r. Qed.

(** [n] turns in a row with usable replies are [n] completed exchanges,
    after which the loop goes on from the store they leave. *)
Lemma observed_loop_exchanges env goal fuel : forall (n : nat) s,
  (forall t a input,
     (current_turn s < t <= current_turn s + Z.of_nat n)%Z ->
     usable (Runner_run env (AtTurn t) a input goal)) ->
  (current_turn s + Z.of_nat n <= max_iterations s)%Z ->
  exists qa cs,
    length qa = n
    /\ Forall (fun x => x.1 <> "" /\ x.2 <> "") qa
    /\ observed_loop (n + fuel) env goal s
       = match observed_loop fuel env goal
                 {| max_iterations := max_iterations s;
                    messages := messages s ++ exchanges qa;
                    current_turn := current_turn s + Z.of_nat n |} with
         | Some (exit, s', cs') => Some (exit, s', cs ++ cs')
         | None => None
         end.
Proof.
  induction n as [|n IH]; intros s Hok Hmax.
  - exists [], []. split; [done|]. split; [done|].
    rewrite store_eta. cbn [Nat.add app].
    by destruct (observed_loop fuel env goal s) as [[[exit s'] cs']|].
  - destruct (observed_turn_exchange env goal s) as (q & a & cs1 & Hq & Ha & Hturn).
    { intros ag input. apply Hok. lia. }
    set (s1 := {| max_iterations := max_iterations s;
                  messages := messages s ++ [message "user" q; message "assistant" a];
                  current_turn := current_turn s + 1 |}) in *.
    destruct (IH s1) as (qa & cs & Hlen & Hqa & Hloop).
    { intros t ag input Ht. apply Hok. cbn [current_turn s1] in Ht. lia. }
    { cbn [current_turn max_iterations s1]. lia. }
    exists ((q, a) :: qa), (cs1 ++ cs).
    split; [cbn; lia|]. split; [by constructor|].
    cbn [Nat.add observed_loop].
    destruct (Z.geb_spec (current_turn s) (max_iterations s)) as [Hge|_]; [lia|].
    rewrite Hturn, Hloop. cbn [max_iterations messages current_turn s1].
    replace (messages s ++ exchanges ((q, a) :: qa))
      with ((messages s ++ [message "user" q; message "assistant" a]) ++ exchanges qa)
      by (by rewrite <- app_assoc).
    replace (current_turn s + Z.of_nat (S n))%Z
      with (current_turn s + 1 + Z.of_nat n)%Z by lia.
    destruct (observed_loop fuel env goal _) as [[[exit s'] cs']|]; [|done].
    by rewrite app_assoc.
Qed.

Lemma observed_loop_complete fuel env goal s :
  (max_iterations s <= current_turn s)%Z ->
  observed_loop fuel env goal s = Some (Completed, s, []).
Proof.
  intros H. destruct fuel; cbn [observed_loop];
    by destruct (Z.geb_spec (current_turn s) (max_iterations s)); [|lia].
Qed.

(** A turn in which the question is usable and the Expert Agent raises
    leaves the question in the store and breaks the loop. *)
Lemma observed_turn_dangling env goal s :
  (forall input,
     usable (Runner_run env (AtTurn (current_turn s + 1)) UserAgent input goal)) ->
  (forall input, exists msg,
     Runner_run env (AtTurn (current_turn s + 1)) ExpertAgent input goal = Raises msg) ->
  exists q cs,
    q <> ""
    /\ observed_turn env goal s
       = (Break,
          {| max_iterations := max_iterations s;
             messages := messages s ++ [message "user" q];
             current_turn := current_turn s |},
          cs).
Proof.
  intros Hq Hr. unfold observed_turn.
  destruct (Hq (user_agent_input goal (messages s))) as (q & -> & Hne).
  rewrite (falsy_usable _ Hne). cbn [reply_of reply_text].
  destruct (Hr (messages (extend s (message "user" (Str.strip q))))) as (msg & ->).
  by exists (Str.strip q); eexists.
Qed.

(** ** The claims about the loop *)

(** C1, with the replies usable.  On a store with limit [n >= 1] whose
    counter is 0, if on every turn both agents reply with a string that
    is not empty once stripped, the loop is left through its condition
    after [n] exchanges: the store then holds its earlier messages
    followed by [n] pairs of a user message and an assistant message
    ([n] messages of each role, in alternation), all with non-empty
    content, and its counter is [n]; [run_conversation] returns that
    store, unchanged by the saving of the outputs. *)
Theorem run_conversation_completes (env : Env) (self : Engine) (w : world)
    (s : Store) (n : Z) :
  observe (history self) w = Some s ->
  max_iterations s = n ->
  current_turn s = 0%Z ->
  (1 <= n)%Z ->
  (forall t a input,
     (1 <= t <= n)%Z -> usable (Runner_run env (AtTurn t) a input (user_goal self))) ->
  exists qa w1 w2,
    length qa = Z.to_nat n
    /\ Forall (fun x => x.1 <> "" /\ x.2 <> "") qa
    /\ conversation_loop env self w = Some (Ret Completed, w1)
    /\ run_conversation env self w = Some (Ret (history self), w2)
    /\ count_role "user" (exchanges qa) = Z.to_nat n
    /\ count_role "assistant" (exchanges qa) = Z.to_nat n
    /\ let final := {| max_iterations := n;
                       messages := messages s ++ exchanges qa;
                       current_turn := n |} in
       observe (history self) w1 = Some final
       /\ observe (history self) w2 = Some final.
Proof.
  intros Hs Hmax Hturn Hn Hok.
  destruct (run_conversation_eq env self w s Hs)
    as (exit & s' & cs & w1 & w2 & Hobs & Hloop & Hs1 & _ & _ & Hrun & Hs2 & _).
  destruct (observed_loop_exchanges env (user_goal self) 0 (Z.to_nat n) s)
    as (qa & cs' & Hlen & Hqa & Heq).
  { intros t a input Ht. apply Hok. lia. }
  { lia. }
  rewrite (observed_loop_complete 0) in Heq by (cbn [max_iterations current_turn]; lia).
  rewrite Hmax, Hturn, Z.sub_0_r, <- (Nat.add_0_r (Z.to_nat n)), Heq in Hobs.
  injection Hobs as <- <- <-.
  destruct (count_role_exchanges qa) as [Hu Ha].
  exists qa, w1, w2. split; [done|]. split; [done|].
  split; [done|]. split; [done|]. split; [congruence|]. split; [congruence|].
  rewrite Hmax, Hturn, Z.add_0_l, Z2Nat.id in * by lia. done.
Qed.

Lemma run_conversation_completes_witness :
  exists w1 w2,
    conversation_loop two_turns the_engine (new_store 2) = Some (Ret Completed, w1)
    /\ run_conversation two_turns the_engine (new_store 2) = Some (Ret the_store, w2)
    /\ observe the_store w1
       = Some {| max_iterations := 2;
                 messages := [message "user" "Q1"; message "assistant" "A1";
                              message "user" "Q2"; message "assistant" "A2"];
                 current_turn := 2 |}.
Proof.
  destruct (run_conversation_completes two_turns the_engine (new_store 2)
              {| max_iterations := 2; messages := []; current_turn := 0 |} 2
              eq_refl eq_refl eq_refl ltac:(lia))
    as (qa & w1 & w2 & _ & _ & Hloop & Hrun & _).
  - intros t a input Ht.
    assert (t = 1 \/ t = 2)%Z as [-> | ->] by lia; destruct a;
      eexists; (split; [reflexivity | discriminate]).
  - exists w1, w2. split; [exact Hloop|]. split; [exact Hrun|].
    vm_compute in Hloop. injection Hloop as <-. vm_compute. reflexivity.
Defined.

(** C1, as the claim words it, fails when a reply is not empty but
    blank: with a limit of one turn and a Questioner that replies with
    one space, every reply is a non-empty string, the loop is left
    through its condition with the counter at 1, and the store holds no
    message. *)
Lemma blank_question_is_skipped :
  (forall site a input goal,
     exists reply,
       Runner_run blank_questions site a input goal = Returns (RunResult (PyStr reply))
       /\ reply <> "")
  /\ exists w1,
       conversation_loop blank_questions the_engine (new_store 1)
       = Some (Ret Completed, w1)
       /\ observe the_store w1
          = Some {| max_iterations := 1; messages := []; current_turn := 1 |}.
Proof.
  split.
  - intros site a input goal. destruct a; eexists; (split; [reflexivity | discriminate]).
  - eexists. split; vm_compute; reflexivity.
Qed.

(** The scenario of the specification: two turns, questions [Q1] and
    [Q2], answers [A1] and [A2]. *)
Example scenario_two_turns :
  exists w1,
    conversation_loop two_turns the_engine (new_store 2) = Some (Ret Completed, w1)
    /\ observe the_store w1
       = Some {| max_iterations := 2;
                 messages := [message "user" "Q1"; message "assistant" "A1";
                              message "user" "Q2"; message "assistant" "A2"];
                 current_turn := 2 |}.
Proof. eexists. split; vm_compute; reflexivity. Qed.

(** C3, with the replies usable.  On a store with limit [n] whose counter
    is 0, let [1 <= k <= n]; if on every turn before [k] both agents
    reply with a string that is not empty once stripped, and on turn [k]
    the User Agent does so and the Expert Agent raises, then the loop is
    left by [break] and nothing is raised: the store then holds its
    earlier messages, [k - 1] pairs of a user and an assistant message,
    and the question of turn [k] as its last message ([k] user messages
    and [k - 1] assistant messages were appended); its counter is
    [k - 1].  [run_conversation] returns that store. *)
Theorem expert_failure_aborts (env : Env) (self : Engine) (w : world)
    (s : Store) (n k : Z) :
  observe (history self) w = Some s ->
  max_iterations s = n ->
  current_turn s = 0%Z ->
  (1 <= k <= n)%Z ->
  (forall t a input,
     (1 <= t < k)%Z -> usable (Runner_run env (AtTurn t) a input (user_goal self))) ->
  (forall input, usable (Runner_run env (AtTurn k) UserAgent input (user_goal self))) ->
  (forall input, exists msg,
     Runner_run env (AtTurn k) ExpertAgent input (user_goal self) = Raises msg) ->
  exists qa q w1 w2,
    length qa = Z.to_nat (k - 1)
    /\ Forall (fun x => x.1 <> "" /\ x.2 <> "") qa
    /\ q <> ""
    /\ conversation_loop env self w = Some (Ret Aborted, w1)
    /\ run_conversation env self w = Some (Ret (history self), w2)
    /\ count_role "user" (exchanges qa ++ [message "user" q]) = Z.to_nat k
    /\ count_role "assistant" (exchanges qa ++ [message "user" q]) = Z.to_nat (k - 1)
    /\ let final := {| max_iterations := n;
                       messages := messages s ++ exchanges qa ++ [message "user" q];
                       current_turn := k - 1 |} in
       observe (history self) w1 = Some final
       /\ observe (history self) w2 = Some final
       /\ last (messages final) = Some (message "user" q).
Proof.
  intros Hs Hmax Hturn Hk Hok Hq Hr.
  destruct (run_conversation_eq env self w s Hs)
    as (exit & s' & cs & w1 & w2 & Hobs & Hloop & Hs1 & _ & _ & Hrun & Hs2 & _).
  destruct (observed_loop_exchanges env (user_goal self)
              (S (Z.to_nat (n - k))) (Z.to_nat (k - 1)) s)
    as (qa & cs' & Hlen & Hqa & Heq).
  { intros t a input Ht. apply Hok. lia. }
  { lia. }
  set (sk := {| max_iterations := max_iterations s;
                messages := messages s ++ exchanges qa;
                current_turn := current_turn s + Z.of_nat (Z.to_nat (k - 1)) |}) in *.
  assert (Hsk : (current_turn sk + 1 = k)%Z) by (cbn [current_turn sk]; lia).
  destruct (observed_turn_dangling env (user_goal self) sk)
    as (q & cs'' & Hne & Hdangling).
  { by rewrite Hsk. }
  { by rewrite Hsk. }
  cbn [observed_loop] in Heq.
  destruct (Z.geb_spec (current_turn sk) (max_iterations sk)) as [Hge|_];
    [cbn [current_turn max_iterations sk] in Hge; lia|].
  rewrite Hdangling in Heq.
  replace (Z.to_nat (max_iterations s - current_turn s))
    with (Z.to_nat (k - 1) + S (Z.to_nat (n - k))) in Hobs by lia.
  rewrite Heq in Hobs. injection Hobs as <- <- <-.
  destruct (count_role_exchanges qa) as [Hu Ha].
  exists qa, q, w1, w2.
  split; [done|]. split; [done|]. split; [done|]. split; [done|]. split; [done|].
  split.
  { rewrite count_role_app, count_role_cons, role_of_message, Hu, decide_True by done.
    cbn. lia. }
  split.
  { rewrite count_role_app, count_role_cons, role_of_message, Ha, decide_False by done.
    cbn. lia. }
  cbn [max_iterations messages current_turn sk] in *.
  replace (current_turn s + Z.of_nat (Z.to_nat (k - 1)))%Z with (k - 1)%Z in * by lia.
  rewrite Hmax, <- app_assoc in *. split; [done|]. split; [done|].
  rewrite app_assoc. apply last_snoc.
Qed.

Lemma expert_failure_aborts_witness :
  exists w1 w2,
    conversation_loop failure_on_second the_engine (new_store 3)
    = Some (Ret Aborted, w1)
    /\ run_conversation failure_on_second the_engine (new_store 3)
       = Some (Ret the_store, w2)
    /\ observe the_store w1
       = Some {| max_iterations := 3;
                 messages := [message "user" "Q1"; message "assistant" "A1";
                              message "user" "Q2"];
                 current_turn := 1 |}.
Proof.
  destruct (expert_failure_aborts failure_on_second the_engine (new_store 3)
              {| max_iterations := 3; messages := []; current_turn := 0 |} 3 2
              eq_refl eq_refl eq_refl ltac:(lia))
    as (qa & q & w1 & w2 & _ & _ & _ & Hloop & Hrun & _).
  - intros t a input Ht. assert (t = 1)%Z as -> by lia.
    destruct a; eexists; (split; [reflexivity | discriminate]).
  - intros input. eexists. split; [reflexivity | discriminate].
  - intros input. by eexists.
  - exists w1, w2. split; [exact Hloop|]. split; [exact Hrun|].
    vm_compute in Hloop. injection Hloop as <-. vm_compute. reflexivity.
Defined.

(** C3, as the claim words it, fails when an earlier reply is not empty
    but blank: with a first question of one space, every reply before
    turn 2 is a non-empty string and the Expert Agent raises on turn 2,
    yet the store ends with one question and no answer, not with two
    questions and one answer. *)
Lemma blank_question_before_failure :
  (forall a input goal,
     exists reply,
       Runner_run blank_then_failure (AtTurn 1) a input goal
       = Returns (RunResult (PyStr reply))
       /\ reply <> "")
  /\ (forall input goal,
        Runner_run blank_then_failure (AtTurn 2) UserAgent input goal
        = Returns (RunResult (PyStr "Q2")))
  /\ (forall input goal,
        Runner_run blank_then_failure (AtTurn 2) ExpertAgent input goal
        = Raises "service unavailable")
  /\ exists w1,
       conversation_loop blank_then_failure the_engine (new_store 2)
       = Some (Ret Aborted, w1)
       /\ observe the_store w1
          = Some {| max_iterations := 2;
                    messages := [message "user" "Q2"];
                    current_turn := 1 |}.
Proof.
  split; [|split; [done|split; [done|]]].
  - intros a input goal. destruct a; eexists; (split; [reflexivity | discriminate]).
  - eexists. split; vm_compute; reflexivity.
Qed.

(** *** Soft failures *)

Lemma falsy_empty_or_not_a_string o :
  empty_or_not_a_string o ->
  exists result, o = Returns result /\ falsy (reply_of result) = true.
Proof.
  intros (result & -> & H). exists result. split; [done|].
  destruct H as [-> | [-> | (v & -> & Hv)]]; [done..|].
  by destruct v.
Qed.

(** A turn without a question adds no message, counts as a turn and
    calls the User Agent only. *)
Lemma observed_turn_skipped env goal s :
  empty_or_not_a_string
    (Runner_run env (AtTurn (current_turn s + 1)) UserAgent
       (user_agent_input goal (messages s)) goal) ->
  observed_turn env goal s
  = (Continue, advance s,
     [turn_call (current_turn s + 1) UserAgent (user_agent_input goal (messages s)) goal]).
Proof.
  intros H. apply falsy_empty_or_not_a_string in H as (result & Hq & Hfalsy).
  unfold observed_turn. by rewrite Hq, Hfalsy.
Qed.

(** The calls of a turn: the User Agent first; the Expert Agent after it
    only when the User Agent's result carried a question. *)
Lemma observed_turn_calls env goal s :
  exists rest,
    (observed_turn env goal s).2
    = turn_call (current_turn s + 1) UserAgent (user_agent_input goal (messages s)) goal
      :: rest
    /\ (rest = []
        \/ exists input result,
             rest = [turn_call (current_turn s + 1) ExpertAgent input goal]
             /\ Runner_run env (AtTurn (current_turn s + 1)) UserAgent
                  (user_agent_input goal (messages s)) goal = Returns result
             /\ falsy (reply_of result) = false).
Proof.
  unfold observed_turn.
  destruct (Runner_run env _ UserAgent _ goal) as [msg|result] eqn:Hq.
  { eexists. split; [reflexivity|]. by left. }
  destruct (falsy (reply_of result)) eqn:Hfalsy.
  { eexists. split; [reflexivity|]. by left. }
  assert (forall (x : loop_ctl * Store) input,
             exists rest,
               (x, [turn_call (current_turn s + 1) UserAgent
                      (user_agent_input goal (messages s)) goal;
                    turn_call (current_turn s + 1) ExpertAgent input goal]).2
               = turn_call (current_turn s + 1) UserAgent
                   (user_agent_input goal (messages s)) goal :: rest
               /\ (rest = []
                   \/ exists input0 result0,
                        rest = [turn_call (current_turn s + 1) ExpertAgent input0 goal]
                        /\ Returns result = Returns result0
                        /\ falsy (reply_of result0) = false)) as Hboth.
  { intros x input. eexists. split; [reflexivity|]. right. by eexists _, _. }
  destruct (Runner_run env _ ExpertAgent _ goal) as [msg|result']; [apply Hboth|].
  destruct (falsy (reply_of result')); apply Hboth.
Qed.

(** In the calls of the loop, a call to the Expert Agent on a turn
    comes only after a result of the User Agent, on that turn, that
    carried a question. *)
Lemma observed_loop_expert_calls env goal : forall fuel s exit s' cs,
  observed_loop fuel env goal s = Some (exit, s', cs) ->
  Forall (fun c =>
            forall k, expert_call_on k c ->
              exists input result,
                Runner_run env (AtTurn k) UserAgent input goal = Returns result
                /\ falsy (reply_of result) = false) cs.
Proof.
  induction fuel as [|fuel IH]; intros s exit s' cs; cbn [observed_loop];
    destruct (current_turn s >=? max_iterations s)%Z;
    try (intros [= <- <- <-]; constructor); try done.
  destruct (observed_turn_calls env goal s) as (rest & Hcs & Hrest).
  destruct (observed_turn env goal s) as [[ctl s1] cs1]. cbn [snd] in Hcs. subst cs1.
  assert (Hturn : Forall (fun c =>
                    forall k, expert_call_on k c ->
                      exists input result,
                        Runner_run env (AtTurn k) UserAgent input goal = Returns result
                        /\ falsy (reply_of result) = false)
                    (turn_call (current_turn s + 1) UserAgent
                       (user_agent_input goal (messages s)) goal :: rest)).
  { constructor; [by intros k [_ ?]|].
    destruct Hrest as [-> | (input & result & -> & Hq & Hfalsy)]; [constructor|].
    constructor; [|constructor].
    intros k [[= <-] _]. by eexists _, _. }
  destruct ctl.
  - destruct (observed_loop fuel env goal s1) as [[[exit2 s2] cs2]|] eqn:Hloop; [|done].
    intros [= <- <- <-]. apply (Forall_app _ (_ :: rest) cs2).
    split; [done|]. by eapply IH.
  - by intros [= <- <- <-].
Qed.

(** When the User Agent never raises and the Expert Agent always gives
    a usable reply, a turn is never the last one by [break]. *)
Lemma observed_turn_continues env goal s :
  (forall input, exists result,
     Runner_run env (AtTurn (current_turn s + 1)) UserAgent input goal = Returns result) ->
  (forall input,
     usable (Runner_run env (AtTurn (current_turn s + 1)) ExpertAgent input goal)) ->
  (observed_turn env goal s).1.1 = Continue.
Proof.
  intros Hq Hr. unfold observed_turn.
  destruct (Hq (user_agent_input goal (messages s))) as (result & ->).
  destruct (falsy (reply_of result)); [done|].
  destruct (Hr (messages (extend s (message "user" (reply_text (reply_of result))))))
    as (reply & -> & Hne).
  by rewrite (falsy_usable _ Hne).
Qed.

(** Then the loop is left through its condition, with the counter at the
    limit, and the User Agent was called on every turn. *)
Lemma observed_loop_completes env goal : forall fuel s,
  Z.to_nat (max_iterations s - current_turn s) <= fuel ->
  (current_turn s <= max_iterations s)%Z ->
  (forall t input,
     (current_turn s < t <= max_iterations s)%Z ->
     exists result, Runner_run env (AtTurn t) UserAgent input goal = Returns result) ->
  (forall t input,
     (current_turn s < t <= max_iterations s)%Z ->
     usable (Runner_run env (AtTurn t) ExpertAgent input goal)) ->
  exists s' cs,
    observed_loop fuel env goal s = Some (Completed, s', cs)
    /\ max_iterations s' = max_iterations s
    /\ current_turn s' = max_iterations s
    /\ forall t, (current_turn s < t <= max_iterations s)%Z ->
                 Exists (user_call_on t) cs.
Proof.
  assert (Hdone : forall s,
             (max_iterations s <= current_turn s <= max_iterations s)%Z ->
             exists s' cs,
               Some (Completed, s, []) = Some (Completed, s', cs)
               /\ max_iterations s' = max_iterations s
               /\ current_turn s' = max_iterations s
               /\ forall t, (current_turn s < t <= max_iterations s)%Z ->
                            Exists (user_call_on t) cs).
  { intros s Hs. exists s, []. split; [done|]. split; [done|]. split; [lia|].
    intros t Ht. lia. }
  induction fuel as [|fuel IH]; intros s Hfuel Hle Hq Hr; cbn [observed_loop];
    destruct (Z.geb_spec (current_turn s) (max_iterations s)) as [Hge|Hlt].
  { apply Hdone. lia. }
  { lia. }
  { apply Hdone. lia. }
  assert (Hctl : (observed_turn env goal s).1.1 = Continue).
  { apply observed_turn_continues; intros input; [apply Hq | apply Hr]; lia. }
  destruct (observed_turn_counters env goal s) as [Hmax Hturn].
  destruct (observed_turn_calls env goal s) as (rest & Hcs & _).
  destruct (observed_turn env goal s) as [[ctl s1] cs1]. cbn [fst snd] in *.
  subst ctl. specialize (Hturn eq_refl).
  destruct (IH s1) as (s' & cs & -> & Hmax' & Hturn' & Hcalls).
  { rewrite Hmax, Hturn. lia. }
  { rewrite Hmax, Hturn. lia. }
  { intros t input Ht. apply Hq. rewrite Hmax, Hturn in Ht. lia. }
  { intros t input Ht. apply Hr. rewrite Hmax, Hturn in Ht. lia. }
  exists s', (cs1 ++ cs). split; [done|]. split; [congruence|]. split; [congruence|].
  intros t Ht. apply Exists_app.
  destruct (decide (t = current_turn s + 1)%Z) as [->|Hne].
  - left. subst cs1. by constructor.
  - right. apply Hcalls. rewrite Hmax, Hturn. lia.
Qed.

(** C4.  On a store with limit [n] whose counter is 0, let
    [1 <= k <= n]; suppose that on turn [k] the User Agent's result is
    falsy or its output is the empty string or not a string, that on
    every other turn its output is a string other than the empty one,
    and that the Expert Agent, whenever it is asked, gives a usable
    reply.  Then the loop is left through its condition with the counter
    at [n], nothing is raised, the User Agent was called on turn [k] and
    the Expert Agent was not.  And whatever the store holds when turn
    [k] begins, that iteration leaves its messages as they are, moves
    the counter to [k] and makes the one call to the User Agent. *)
Theorem soft_failure_is_skipped (env : Env) (self : Engine) (w : world)
    (s : Store) (n k : Z) :
  observe (history self) w = Some s ->
  max_iterations s = n ->
  current_turn s = 0%Z ->
  (1 <= k <= n)%Z ->
  (forall input,
     empty_or_not_a_string (Runner_run env (AtTurn k) UserAgent input (user_goal self))) ->
  (forall t input,
     (1 <= t <= n)%Z -> t <> k ->
     nonempty_text (Runner_run env (AtTurn t) UserAgent input (user_goal self))) ->
  (forall t input,
     (1 <= t <= n)%Z ->
     usable (Runner_run env (AtTurn t) ExpertAgent input (user_goal self))) ->
  (exists s' cs w1 w2,
     conversation_loop env self w = Some (Ret Completed, w1)
     /\ run_conversation env self w = Some (Ret (history self), w2)
     /\ observe (history self) w1 = Some s'
     /\ observe (history self) w2 = Some s'
     /\ current_turn s' = n
     /\ calls w1 = calls w ++ cs
     /\ Exists (user_call_on k) cs
     /\ Forall (fun c => ~ expert_call_on k c) cs)
  /\ (forall w' sk,
        observe (history self) w' = Some sk ->
        current_turn sk = (k - 1)%Z ->
        exists w'',
          loop_body env self w' = (Ret Continue, w'')
          /\ observe (history self) w'' =
               Some {| max_iterations := max_iterations sk;
                       messages := messages sk;
                       current_turn := k |}
          /\ calls w'' =
               calls w' ++ [turn_call k UserAgent
                              (user_agent_input (user_goal self) (messages sk))
                              (user_goal self)]).
Proof.
  intros Hs Hmax Hturn Hk Hsoft Hq Hr. split.
  - destruct (run_conversation_eq env self w s Hs)
      as (exit & s' & cs & w1 & w2 & Hobs & Hloop & Hs1 & Hcalls & _ & Hrun & Hs2 & _).
    destruct (observed_loop_completes env (user_goal self)
                (Z.to_nat (max_iterations s - current_turn s)) s)
      as (s'' & cs' & Hobs' & _ & Hturn' & Hasked); [lia|lia|..].
    { intros t input Ht.
      destruct (decide (t = k)) as [->|Hne].
      - destruct (Hsoft input) as (result & -> & _). by eexists.
      - destruct (Hq t input) as (reply & -> & _); [lia|done|by eexists]. }
    { intros t input Ht. apply Hr. lia. }
    rewrite Hobs in Hobs'. injection Hobs' as -> -> ->.
    exists s'', cs', w1, w2.
    split; [done|]. split; [done|]. split; [done|]. split; [done|].
    split; [congruence|]. split; [done|]. split; [apply Hasked; lia|].
    eapply Forall_impl; [by eapply observed_loop_expert_calls|].
    intros c Hc Hexpert. destruct (Hc k Hexpert) as (input & result & Heq & Hfalsy).
    destruct (falsy_empty_or_not_a_string _ (Hsoft input)) as (result' & Heq' & Hfalsy').
    congruence.
  - intros w' sk Hsk Hturnk. apply observe_store_at in Hsk.
    destruct (loop_body_eq env self w' sk Hsk) as (h' & Hbody & Hsk').
    rewrite observed_turn_skipped in Hbody, Hsk'
      by (replace (current_turn sk + 1)%Z with k by lia; apply Hsoft).
    cbn [fst snd] in *. eexists. split; [exact Hbody|].
    replace (current_turn sk + 1)%Z with k in * by lia. split; [|done].
    apply observe_store_at. cbn [heap log_calls set_heap].
    unfold advance in Hsk'. by replace (current_turn sk + 1)%Z with k in Hsk' by lia.
Qed.

Lemma soft_failure_is_skipped_witness :
  exists w1,
    conversation_loop empty_first_question the_engine (new_store 2)
    = Some (Ret Completed, w1)
    /\ observe the_store w1
       = Some {| max_iterations := 2;
                 messages := [message "user" "Q"; message "assistant" "A"];
                 current_turn := 2 |}
    /\ (call_at <$> calls w1) = [AtTurn 1; AtTurn 2; AtTurn 2].
Proof.
  destruct (proj1 (soft_failure_is_skipped empty_first_question the_engine (new_store 2)
              {| max_iterations := 2; messages := []; current_turn := 0 |} 2 1
              eq_refl eq_refl eq_refl ltac:(lia)
              ltac:(intros input; eexists; split; [reflexivity | right; by left])
              ltac:(intros t input Ht Hne; assert (t = 2)%Z as -> by lia;
                    eexists; split; [reflexivity | discriminate])
              ltac:(intros t input Ht; assert (t = 1 \/ t = 2)%Z as [-> | ->] by lia;
                    eexists; (split; [reflexivity | discriminate]))))
    as (s' & cs & w1 & w2 & Hloop & _).
  exists w1. split; [exact Hloop|].
  vm_compute in Hloop. injection Hloop as <-. split; vm_compute; reflexivity.
Defined.

(** C4, as the claim words it, fails when an answer is blank: with a
    limit of two turns, a User Agent whose reply is empty on turn 1 and
    [Q] on turn 2, and an Expert Agent that succeeds with a string that
    is not empty, one space, the loop is left by [break] on turn 2 with
    the counter at 1, not through its condition with the counter at 2. *)
Lemma blank_answer_after_soft_failure :
  (forall input goal,
     empty_or_not_a_string (Runner_run blank_answers (AtTurn 1) UserAgent input goal))
  /\ (forall t input goal,
        t <> 1%Z ->
        nonempty_text (Runner_run blank_answers (AtTurn t) UserAgent input goal))
  /\ (forall site input goal,
        nonempty_text (Runner_run blank_answers site ExpertAgent input goal))
  /\ exists w1,
       conversation_loop blank_answers the_engine (new_store 2)
       = Some (Ret Aborted, w1)
       /\ observe the_store w1
          = Some {| max_iterations := 2; messages := [message "user" "Q"];
                    current_turn := 1 |}.
Proof.
  split; [|split; [|split]].
  - intros input goal. eexists. split; [reflexivity|]. right. by left.
  - intros t input goal Ht.
    destruct t as [|[q|q|]|q]; try done; (eexists; split; [reflexivity | discriminate]).
  - intros site input goal.
    destruct site as [[|[q|q|]|q]|]; (eexists; split; [reflexivity | discriminate]).
  - eexists. split; vm_compute; reflexivity.
Qed.

(** *** What the loop appends *)

Lemma dialogue_app msgs1 msgs2 :
  dialogue msgs1 -> dialogue msgs2 -> dialogue (msgs1 ++ msgs2).
Proof.
  intros [H1 Hh1] [H2 Hh2]. split; [by apply Forall_app|].
  destruct msgs1 as [|m1 msgs1]; [done|]. intros m Hm. by apply Hh1.
Qed.

(** A turn appends nothing, a question, or a question and its answer. *)
Lemma observed_turn_appends env goal s :
  exists added,
    messages (observed_turn env goal s).1.2 = messages s ++ added
    /\ dialogue added.
Proof.
  assert (Hnil : dialogue []) by (split; [constructor | done]).
  assert (Hq : forall q, dialogue [message "user" q]).
  { intros q. split; [|by intros m [= <-]; rewrite role_of_message].
    constructor; [|constructor]. left. apply role_of_message. }
  assert (Hqa : forall q a, dialogue [message "user" q; message "assistant" a]).
  { intros q a. split; [|by intros m [= <-]; rewrite role_of_message].
    constructor; [left; apply role_of_message|].
    constructor; [right; apply role_of_message|constructor]. }
  unfold observed_turn.
  destruct (Runner_run env _ UserAgent _ goal) as [msg|result].
  { exists []. by rewrite app_nil_r. }
  destruct (falsy (reply_of result)).
  { exists []. by rewrite app_nil_r. }
  destruct (Runner_run env _ ExpertAgent _ goal) as [msg|result'].
  { by eexists [_]. }
  destruct (falsy (reply_of result')).
  { by eexists [_]. }
  eexists [_; _]. cbn [fst snd advance extend messages]. by rewrite <- app_assoc.
Qed.

Lemma observed_loop_appends env goal : forall fuel s exit s' cs,
  observed_loop fuel env goal s = Some (exit, s', cs) ->
  exists added, messages s' = messages s ++ added /\ dialogue added.
Proof.
  assert (Hnil : forall s, exists added, messages s = messages s ++ added /\ dialogue added).
  { intros s. exists []. rewrite app_nil_r. split; [done|]. split; [constructor | done]. }
  induction fuel as [|fuel IH]; intros s exit s' cs; cbn [observed_loop];
    destruct (current_turn s >=? max_iterations s)%Z;
    try (intros [= <- <- <-]; apply Hnil); try done.
  destruct (observed_turn_appends env goal s) as (added1 & Hadd1 & Hd1).
  destruct (observed_turn env goal s) as [[[|] s1] cs1]; cbn [fst snd] in *.
  - destruct (observed_loop fuel env goal s1) as [[[exit2 s2] cs2]|] eqn:Hloop; [|done].
    intros [= <- <- <-].
    destruct (IH _ _ _ _ Hloop) as (added2 & Hadd2 & Hd2).
    exists (added1 ++ added2). split; [|by apply dialogue_app].
    by rewrite Hadd2, Hadd1, app_assoc.
  - intros [= <- <- <-]. by exists added1.
Qed.

(** C10.  From a store that holds no message, whatever the inference
    service does, the run raises nothing and returns a store that holds
    only user and assistant messages, the first of them (if any) a user
    message: the system message that carries the goal to the first
    question is never stored.  The transcript that is written is the
    text of that store, and in it every message has a heading titled
    User or Expert, the first one User. *)
Theorem bootstrap_message_is_not_stored (env : Env) (self : Engine) (w : world)
    (s : Store) :
  observe (history self) w = Some s ->
  messages s = [] ->
  exists exit w1 w2 s',
    conversation_loop env self w = Some (Ret exit, w1)
    /\ run_conversation env self w = Some (Ret (history self), w2)
    /\ observe (history self) w1 = Some s'
    /\ observe (history self) w2 = Some s'
    /\ Forall (fun m => role_of m <> "system") (messages s')
    /\ (forall m, head (messages s') = Some m -> role_of m = "user")
    /\ (exists new,
          files w2 = files w ++ new
          /\ forall entry, head new = Some entry -> entry.2 = transcript_text env s')
    /\ forall index m,
         messages s' !! index = Some m ->
         exists title turn,
           transcript_lines env (current_turn s') (messages s') !! (3 + 3 * index)
           = Some (heading title turn)
           /\ (title = "User" \/ title = "Expert")
           /\ (index = 0 -> title = "User").
Proof.
  intros Hs Hempty.
  destruct (run_conversation_eq env self w s Hs)
    as (exit & s' & cs & w1 & w2 & Hobs & Hloop & Hs1 & _ & Hfiles1 & Hrun & Hs2
        & _ & new & Hfiles2 & Hnew).
  destruct (observed_loop_appends _ _ _ _ _ _ _ Hobs) as (added & Hadd & Hroles & Hhead).
  rewrite Hempty in Hadd. cbn [app] in Hadd.
  exists exit, w1, w2, s'. rewrite Hadd.
  split; [done|]. split; [done|]. split; [done|]. split; [done|]. split.
  { eapply Forall_impl; [exact Hroles|]. cbv beta. intros m [-> | ->]; discriminate. }
  split; [done|]. split.
  { exists new. rewrite <- Hfiles1. split; [done|].
    intros entry Hentry. by rewrite (Hnew entry Hentry). }
  intros index m Hm.
  rewrite (transcript_lines_heading env _ _ index m Hm).
  eexists _, _. split; [reflexivity|].
  assert (Hm' : role_of m = "user" \/ role_of m = "assistant").
  { rewrite Forall_forall in Hroles. apply Hroles. by eapply list_elem_of_lookup_2. }
  split.
  - destruct Hm' as [-> | ->]; [by left | by right].
  - intros ->. rewrite (Hhead m); [done|]. by destruct added.
Qed.

Lemma bootstrap_message_is_not_stored_witness :
  exists w2 s',
    run_conversation two_turns the_engine (new_store 2) = Some (Ret the_store, w2)
    /\ observe the_store w2 = Some s'
    /\ Forall (fun m => role_of m <> "system") (messages s')
    /\ (call_input <$> head (calls w2))
       = Some [message "system" "The conversation goal is: find the answer"].
Proof.
  destruct (bootstrap_message_is_not_stored two_turns the_engine (new_store 2)
              {| max_iterations := 2; messages := []; current_turn := 0 |}
              eq_refl eq_refl)
    as (exit & w1 & w2 & s' & _ & Hrun & _ & Hs2 & Hroles & _).
  exists w2, s'. split; [exact Hrun|]. split; [exact Hs2|]. split; [exact Hroles|].
  vm_compute in Hrun. injection Hrun as <-. vm_compute. reflexivity.
Defined.

(** * Further properties *)

(** ** Stripping *)

Lemma rev_app_eq (s1 s2 : string) : String.rev_app s1 s2 = String.rev s1 +:+ s2.
Proof.
  unfold String.rev. revert s2. induction s1 as [|c s1 IH]; intros s2; [done|].
  cbn [String.rev_app]. rewrite (IH (String c s2)), (IH (String c "")).
  by rewrite append_assoc.
Qed.

Lemma rev_cons (c : ascii) (s : string) :
  String.rev (String c s) = String.rev s +:+ String c "".
Proof. unfold String.rev at 1. cbn [String.rev_app]. apply rev_app_eq. Qed.

Lemma append_nil_r (s : string) : s +:+ "" = s.
Proof.
  induction s as [|c s IH]; [done|].
  change (String c (s +:+ "") = String c s). by rewrite IH.
Qed.

Lemma rev_append (a b : string) :
  String.rev (a +:+ b) = String.rev b +:+ String.rev a.
Proof.
  induction a as [|c a IH].
  - change (String.rev b = String.rev b +:+ ""). by rewrite append_nil_r.
  - change (String.rev (String c (a +:+ b)) = String.rev b +:+ String.rev (String c a)).
    by rewrite !rev_cons, IH, append_assoc.
Qed.

Lemma rev_involutive (s : string) : String.rev (String.rev s) = s.
Proof.
  induction s as [|c s IH]; [done|].
  rewrite rev_cons, rev_append, IH. reflexivity.
Qed.

(** [starts_clean s]: [s] does not start with a whitespace character. *)
Lemma lstrip_fixed (c : ascii) (s : string) :
  Str.isspace c = false -> Str.lstrip (String c s) = String c s.
Proof. intros H. cbn [Str.lstrip]. by rewrite H. Qed.

Lemma lstrip_starts (s : string) :
  Str.lstrip s = "" \/ exists c s', Str.lstrip s = String c s' /\ Str.isspace c = false.
Proof.
  induction s as [|c s IH]; [by left|]. cbn [Str.lstrip].
  destruct (Str.isspace c) eqn:Hc; [done|]. right. by exists c, s.
Qed.

Lemma lstrip_idempotent (s : string) : Str.lstrip (Str.lstrip s) = Str.lstrip s.
Proof.
  destruct (lstrip_starts s) as [-> | (c & s' & -> & Hc)]; [done|].
  by apply lstrip_fixed.
Qed.

Lemma lstrip_append (x : string) (c : ascii) (y : string) :
  Str.isspace c = false ->
  Str.lstrip (x +:+ String c y) = Str.lstrip x +:+ String c y.
Proof.
  intros Hc. induction x as [|d x IH].
  - change (Str.lstrip (String c y) = String c y). by apply lstrip_fixed.
  - change (Str.lstrip (String d (x +:+ String c y))
            = Str.lstrip (String d x) +:+ String c y).
    cbn [Str.lstrip]. by destruct (Str.isspace d).
Qed.

Lemma rstrip_idempotent (s : string) : Str.rstrip (Str.rstrip s) = Str.rstrip s.
Proof. unfold Str.rstrip. by rewrite rev_involutive, lstrip_idempotent. Qed.

(** Stripping on the right keeps a first character that is no
    whitespace. *)
Lemma rstrip_starts (c : ascii) (s : string) :
  Str.isspace c = false -> exists s', Str.rstrip (String c s) = String c s'.
Proof.
  intros Hc. unfold Str.rstrip.
  rewrite rev_cons, (lstrip_append _ _ _ Hc), rev_append.
  by eexists.
Qed.

Lemma strip_idempotent (s : string) : Str.strip (Str.strip s) = Str.strip s.
Proof.
  unfold Str.strip.
  destruct (lstrip_starts s) as [-> | (c & s' & -> & Hc)]; [done|].
  destruct (rstrip_starts c s' Hc) as (s'' & Heq).
  rewrite Heq, (lstrip_fixed _ _ Hc), <- Heq. apply rstrip_idempotent.
Qed.

Lemma clean_strip (reply : string) : Str.strip reply <> "" -> clean (Str.strip reply).
Proof. intros H. split; [done | apply strip_idempotent]. Qed.

(** ** What every run does, whatever the inference service does *)

Lemma falsy_false_clean result :
  falsy (reply_of result) = false -> clean (reply_text (reply_of result)).
Proof.
  destruct result as [|[| |reply]]; try done. cbn [reply_of falsy reply_text].
  intros H. apply bool_decide_eq_false in H. by apply clean_strip.
Qed.

Lemma exchanges_app qa1 qa2 : exchanges (qa1 ++ qa2) = exchanges qa1 ++ exchanges qa2.
Proof. unfold exchanges. apply flat_map_app. Qed.

(** The four ways a turn can go. *)
Lemma observed_turn_shape env goal s :
  let r := observed_turn env goal s in
  (r.1 = (Break, s))
  \/ (r.1 = (Continue, advance s))
  \/ (exists q, clean q /\ r.1 = (Break, extend s (message "user" q)))
  \/ (exists q a,
        clean q /\ clean a
        /\ r.1 = (Continue,
                  advance (extend (extend s (message "user" q)) (message "assistant" a)))).
Proof.
  unfold observed_turn.
  destruct (Runner_run env _ UserAgent _ goal) as [msg|result]; [by left|].
  destruct (falsy (reply_of result)) eqn:Hq; [by right; left|].
  apply falsy_false_clean in Hq.
  destruct (Runner_run env _ ExpertAgent _ goal) as [msg|result'].
  { right; right; left. by eexists. }
  destruct (falsy (reply_of result')) eqn:Ha.
  { right; right; left. by eexists. }
  apply falsy_false_clean in Ha. right; right; right.
  eexists _, _. split; [exact Hq|]. split; [exact Ha|]. reflexivity.
Qed.

(** The shape of a run: the store keeps its limit and its earlier
    messages; what is appended is a sequence of complete exchanges and,
    only when the loop was left by [break], at most one question without
    an answer; the counter grows by at least the number of exchanges; it
    ends at the limit when the loop was left through its condition and
    below it otherwise. *)
Lemma observed_loop_shape env goal : forall fuel s exit s' cs,
  observed_loop fuel env goal s = Some (exit, s', cs) ->
  exists qa tail,
    messages s' = messages s ++ exchanges qa ++ tail
    /\ Forall (fun x => clean x.1 /\ clean x.2) qa
    /\ (tail = [] \/ (exit = Aborted /\ exists q, clean q /\ tail = [message "user" q]))
    /\ max_iterations s' = max_iterations s
    /\ (current_turn s + Z.of_nat (length qa) <= current_turn s')%Z
    /\ (exit = Completed ->
        (max_iterations s <= current_turn s')%Z
        /\ ((current_turn s <= max_iterations s)%Z -> current_turn s' = max_iterations s))
    /\ (exit = Aborted -> (current_turn s' < max_iterations s)%Z).
Proof.
  assert (Hdone : forall s,
             (max_iterations s <= current_turn s)%Z ->
             exists qa tail,
               messages s = messages s ++ exchanges qa ++ tail
               /\ Forall (fun x => clean x.1 /\ clean x.2) qa
               /\ (tail = []
                   \/ (Completed = Aborted
                       /\ exists q, clean q /\ tail = [message "user" q]))
               /\ max_iterations s = max_iterations s
               /\ (current_turn s + Z.of_nat (length qa) <= current_turn s)%Z
               /\ (Completed = Completed ->
                   (max_iterations s <= current_turn s)%Z
                   /\ ((current_turn s <= max_iterations s)%Z ->
                       current_turn s = max_iterations s))
               /\ (Completed = Aborted -> (current_turn s < max_iterations s)%Z)).
  { intros s Hs. exists [], []. rewrite app_nil_r.
    split; [done|]. split; [done|]. split; [by left|]. split; [done|].
    split; [cbn; lia|]. split; [|done]. intros _. split; [done | lia]. }
  induction fuel as [|fuel IH]; intros s exit s' cs; cbn [observed_loop];
    destruct (Z.geb_spec (current_turn s) (max_iterations s)) as [Hge|Hlt];
    try (intros [= <- <- <-]; apply Hdone; lia); try done.
  pose proof (observed_turn_shape env goal s) as Hshape. cbv zeta in Hshape.
  destruct (observed_turn env goal s) as [[ctl s1] cs1]. cbn [fst] in Hshape.
  destruct Hshape as [[= -> ->] | [[= -> ->] | [(q & Hq & [= -> ->])
                                               | (q & a & Hq & Ha & [= -> ->])]]].
  - (* the User Agent raised *)
    intros [= <- <- <-]. exists [], []. rewrite app_nil_r.
    split; [done|]. split; [done|]. split; [by left|]. split; [done|].
    split; [cbn; lia|]. split; [done|]. intros _. lia.
  - (* no question: the turn is skipped *)
    destruct (observed_loop fuel env goal (advance s)) as [[[exit2 s2] cs2]|] eqn:Hloop;
      [|done].
    intros [= <- <- <-].
    destruct (IH _ _ _ _ Hloop) as (qa & tail & Hm & Hqa & Htail & Hmax & Hturn & Hc & Ha).
    cbn [advance messages max_iterations current_turn] in *.
    exists qa, tail. split; [done|]. split; [done|]. split; [done|]. split; [done|].
    split; [lia|]. split; [|done].
    intros He. destruct (Hc He) as [H1 H2]. split; [done|]. intros _. apply H2. lia.
  - (* a question without an answer *)
    intros [= <- <- <-]. exists [], [message "user" q].
    split; [done|]. split; [done|]. split; [right; split; [done|]; by exists q|].
    split; [done|]. split; [cbn; lia|]. split; [done|]. intros _. cbn. lia.
  - (* a completed exchange *)
    destruct (observed_loop fuel env goal _) as [[[exit2 s2] cs2]|] eqn:Hloop; [|done].
    intros [= <- <- <-].
    destruct (IH _ _ _ _ Hloop) as (qa & tail & Hm & Hqa & Htail & Hmax & Hturn & Hc & Ha').
    cbn [advance extend messages max_iterations current_turn] in *.
    exists ((q, a) :: qa), tail. split.
    { rewrite Hm, exchanges_cons, <- !app_assoc. reflexivity. }
    split; [by constructor|]. split; [done|]. split; [done|].
    split; [cbn [length]; lia|]. split; [|done].
    intros He. destruct (Hc He) as [H1 H2]. split; [done|]. intros _. apply H2. lia.
Qed.





(** X1.  Whatever the inference service does, a run on a well-formed
    store terminates and raises nothing, and the store it returns holds
    the earlier messages, unchanged and in their order, followed by
    complete exchanges and at most one question left without an answer;
    every content appended is non-empty and stripped; a question is left
    without an answer only when the loop was left by [break]. *)
Theorem run_appends_exchanges (env : Env) (self : Engine) (w : world) (s : Store) :
  observe (history self) w = Some s ->
  exists exit w1 w2 s' qa tail,
    conversation_loop env self w = Some (Ret exit, w1)
    /\ run_conversation env self w = Some (Ret (history self), w2)
    /\ observe (history self) w1 = Some s'
    /\ observe (history self) w2 = Some s'
    /\ messages s' = messages s ++ exchanges qa ++ tail
    /\ Forall (fun x => clean x.1 /\ clean x.2) qa
    /\ (tail = [] \/ (exit = Aborted /\ exists q, clean q /\ tail = [message "user" q])).
Proof.
  intros Hs.
  destruct (run_conversation_eq env self w s Hs)
    as (exit & s' & cs & w1 & w2 & Hobs & Hloop & Hs1 & _ & _ & Hrun & Hs2 & _).
  destruct (observed_loop_shape _ _ _ _ _ _ _ Hobs)
    as (qa & tail & Hm & Hqa & Htail & _).
  by exists exit, w1, w2, s', qa, tail.
Qed.

Lemma run_appends_exchanges_witness :
  exists w2 s',
    run_conversation failure_on_second the_engine (new_store 3)
    = Some (Ret the_store, w2)
    /\ observe the_store w2 = Some s'
    /\ messages s'
       = exchanges [("Q1", "A1")] ++ [message "user" "Q2"].
Proof.
  destruct (run_appends_exchanges failure_on_second the_engine (new_store 3)
              {| max_iterations := 3; messages := []; current_turn := 0 |} eq_refl)
    as (exit & w1 & w2 & s' & qa & tail & _ & Hrun & _ & Hs2 & _).
  exists w2, s'. split; [exact Hrun|]. split; [exact Hs2|].
  vm_compute in Hrun. injection Hrun as <-.
  vm_compute in Hs2. injection Hs2 as <-. vm_compute. reflexivity.
Defined.

(** X2.  The counter of a run: the limit is never changed and the
    counter never decreases; it grows by at least the number of
    exchanges appended; when the loop is left through its condition the
    counter has reached the limit, and equals it if it was not beyond it
    at the start; when the loop is left by [break] the counter is still
    below the limit. *)
Theorem run_counter (env : Env) (self : Engine) (w : world) (s : Store) :
  observe (history self) w = Some s ->
  exists exit w1 s' qa tail,
    conversation_loop env self w = Some (Ret exit, w1)
    /\ observe (history self) w1 = Some s'
    /\ messages s' = messages s ++ exchanges qa ++ tail
    /\ max_iterations s' = max_iterations s
    /\ (current_turn s + Z.of_nat (length qa) <= current_turn s')%Z
    /\ (exit = Completed ->
        (max_iterations s <= current_turn s')%Z
        /\ ((current_turn s <= max_iterations s)%Z -> current_turn s' = max_iterations s))
    /\ (exit = Aborted -> (current_turn s' < max_iterations s)%Z).
Proof.
  intros Hs.
  destruct (run_conversation_eq env self w s Hs)
    as (exit & s' & cs & w1 & w2 & Hobs & Hloop & Hs1 & _).
  destruct (observed_loop_shape _ _ _ _ _ _ _ Hobs)
    as (qa & tail & Hm & _ & _ & Hmax & Hturn & Hc & Ha).
  by exists exit, w1, s', qa, tail.
Qed.

Lemma run_counter_witness :
  exists w1 s',
    conversation_loop empty_first_question the_engine (new_store 2)
    = Some (Ret Completed, w1)
    /\ observe the_store w1 = Some s'
    /\ messages s' = exchanges [("Q", "A")]
    /\ current_turn s' = 2%Z.
Proof.
  destruct (run_counter empty_first_question the_engine (new_store 2)
              {| max_iterations := 2; messages := []; current_turn := 0 |} eq_refl)
    as (exit & w1 & s' & qa & tail & Hloop & Hs1 & _).
  pose proof Hloop as Hc. vm_compute in Hc. injection Hc as <- Hw.
  exists w1, s'. split; [exact Hloop|]. split; [exact Hs1|].
  rewrite <- Hw in Hs1. vm_compute in Hs1. injection Hs1 as <-. split; reflexivity.
Defined.





(** ** Failures and soft failures *)

Lemma falsy_unusable o :
  unusable o -> exists result, o = Returns result /\ falsy (reply_of result) = true.
Proof.
  intros (result & -> & H). exists result. split; [done|].
  destruct H as [-> | [(v & -> & Hv) | (reply & -> & Hreply)]]; [done| |].
  - by destruct v.
  - cbn. by apply bool_decide_eq_true.
Qed.

Lemma observed_turn_user_raises env goal s :
  (forall input, exists msg,
     Runner_run env (AtTurn (current_turn s + 1)) UserAgent input goal = Raises msg) ->
  observed_turn env goal s
  = (Break, s,
     [turn_call (current_turn s + 1) UserAgent (user_agent_input goal (messages s)) goal]).
Proof.
  intros H. unfold observed_turn.
  by destruct (H (user_agent_input goal (messages s))) as (msg & ->).
Qed.

Lemma observed_turn_no_question env goal s :
  (forall input,
     unusable (Runner_run env (AtTurn (current_turn s + 1)) UserAgent input goal)) ->
  observed_turn env goal s
  = (Continue, advance s,
     [turn_call (current_turn s + 1) UserAgent (user_agent_input goal (messages s)) goal]).
Proof.
  intros H. unfold observed_turn.
  destruct (falsy_unusable _ (H (user_agent_input goal (messages s))))
    as (result & -> & Hfalsy).
  by rewrite Hfalsy.
Qed.

Lemma observed_turn_no_answer env goal s :
  (forall input,
     usable (Runner_run env (AtTurn (current_turn s + 1)) UserAgent input goal)) ->
  (forall input,
     unusable (Runner_run env (AtTurn (current_turn s + 1)) ExpertAgent input goal)) ->
  exists q cs,
    clean q
    /\ observed_turn env goal s
       = (Break,
          {| max_iterations := max_iterations s;
             messages := messages s ++ [message "user" q];
             current_turn := current_turn s |},
          cs).
Proof.
  intros Hq Hr. unfold observed_turn.
  destruct (Hq (user_agent_input goal (messages s))) as (q & -> & Hne).
  rewrite (falsy_usable _ Hne). cbn [reply_of reply_text].
  destruct (falsy_unusable _
              (Hr (messages (extend s (message "user" (Str.strip q))))))
    as (result & -> & Hfalsy).
  rewrite Hfalsy. exists (Str.strip q). eexists. split; [by apply clean_strip | done].
Qed.

(** X4.  A failure of the User Agent ends the run without a trace of
    the turn.  On a store with limit [n] whose counter is 0, if both
    agents give usable replies before turn [k] and the User Agent raises
    on turn [k], the loop is left by [break], nothing is raised, and
    the store holds its earlier messages and the [k - 1] exchanges, with
    the counter at [k - 1]; the Expert Agent is not called on turn
    [k]. *)
Theorem user_failure_aborts (env : Env) (self : Engine) (w : world)
    (s : Store) (n k : Z) :
  observe (history self) w = Some s ->
  max_iterations s = n ->
  current_turn s = 0%Z ->
  (1 <= k <= n)%Z ->
  (forall t a input,
     (1 <= t < k)%Z -> usable (Runner_run env (AtTurn t) a input (user_goal self))) ->
  (forall input, exists msg,
     Runner_run env (AtTurn k) UserAgent input (user_goal self) = Raises msg) ->
  exists qa cs w1 w2,
    length qa = Z.to_nat (k - 1)
    /\ conversation_loop env self w = Some (Ret Aborted, w1)
    /\ run_conversation env self w = Some (Ret (history self), w2)
    /\ calls w1 = calls w ++ cs
    /\ Forall (fun c => ~ expert_call_on k c) cs
    /\ let final := {| max_iterations := n;
                       messages := messages s ++ exchanges qa;
                       current_turn := k - 1 |} in
       observe (history self) w1 = Some final
       /\ observe (history self) w2 = Some final.
Proof.
  intros Hs Hmax Hturn Hk Hok Hraise.
  destruct (run_conversation_eq env self w s Hs)
    as (exit & s' & cs & w1 & w2 & Hobs & Hloop & Hs1 & Hcalls & _ & Hrun & Hs2 & _).
  pose proof (observed_loop_expert_calls _ _ _ _ _ _ _ Hobs) as Hexpert.
  destruct (observed_loop_exchanges env (user_goal self)
              (S (Z.to_nat (n - k))) (Z.to_nat (k - 1)) s)
    as (qa & cs' & Hlen & Hqa & Heq).
  { intros t a input Ht. apply Hok. lia. }
  { lia. }
  set (sk := {| max_iterations := max_iterations s;
                messages := messages s ++ exchanges qa;
                current_turn := current_turn s + Z.of_nat (Z.to_nat (k - 1)) |}) in *.
  assert (Hsk : (current_turn sk + 1 = k)%Z) by (cbn [current_turn sk]; lia).
  cbn [observed_loop] in Heq.
  destruct (Z.geb_spec (current_turn sk) (max_iterations sk)) as [Hge|_];
    [cbn [current_turn max_iterations sk] in Hge; lia|].
  rewrite observed_turn_user_raises in Heq by (by rewrite Hsk).
  replace (Z.to_nat (max_iterations s - current_turn s))
    with (Z.to_nat (k - 1) + S (Z.to_nat (n - k))) in Hobs by lia.
  rewrite Heq in Hobs. injection Hobs as <- <- <-.
  exists qa, (cs' ++ [turn_call (current_turn sk + 1) UserAgent
                        (user_agent_input (user_goal self) (messages sk))
                        (user_goal self)]), w1, w2.
  split; [done|]. split; [done|]. split; [done|]. split; [done|]. split.
  { eapply Forall_impl; [exact Hexpert|]. cbv beta.
    intros c Hc Hon. destruct (Hc k Hon) as (input & result & Heq' & _).
    destruct (Hraise input) as (msg & Hmsg). congruence. }
  subst sk. cbv zeta.
  replace (current_turn s + Z.of_nat (Z.to_nat (k - 1)))%Z with (k - 1)%Z
    in Hs1, Hs2 by lia.
  rewrite Hmax in Hs1, Hs2. done.
Qed.

Lemma user_failure_aborts_witness :
  exists w1,
    conversation_loop user_failure_on_second the_engine (new_store 3)
    = Some (Ret Aborted, w1)
    /\ observe the_store w1
       = Some {| max_iterations := 3;
                 messages := [message "user" "Q1"; message "assistant" "A1"];
                 current_turn := 1 |}
    /\ (call_key <$> calls w1)
       = [(AtTurn 1, UserAgent); (AtTurn 1, ExpertAgent); (AtTurn 2, UserAgent)].
Proof.
  destruct (user_failure_aborts user_failure_on_second the_engine (new_store 3)
              {| max_iterations := 3; messages := []; current_turn := 0 |} 3 2
              eq_refl eq_refl eq_refl ltac:(lia))
    as (qa & cs & w1 & w2 & _ & Hloop & _).
  - intros t a input Ht. assert (t = 1)%Z as -> by lia.
    destruct a; eexists; (split; [reflexivity | discriminate]).
  - intros input. by eexists.
  - exists w1. split; [exact Hloop|].
    vm_compute in Hloop. injection Hloop as <-. split; vm_compute; reflexivity.
Defined.

(** X5.  An answer that cannot be used ends the run like a failure of
    the Expert Agent.  On a store with limit [n] whose counter is 0, if
    both agents give usable replies before turn [k], the User Agent
    gives one on turn [k] and the Expert Agent's result on turn [k] is
    falsy, or not a string, or blank, then the loop is left by [break]:
    the question of turn [k] stays as the last message after the
    [k - 1] exchanges, and the counter stays at [k - 1]. *)
Theorem unusable_answer_aborts (env : Env) (self : Engine) (w : world)
    (s : Store) (n k : Z) :
  observe (history self) w = Some s ->
  max_iterations s = n ->
  current_turn s = 0%Z ->
  (1 <= k <= n)%Z ->
  (forall t a input,
     (1 <= t < k)%Z -> usable (Runner_run env (AtTurn t) a input (user_goal self))) ->
  (forall input, usable (Runner_run env (AtTurn k) UserAgent input (user_goal self))) ->
  (forall input, unusable (Runner_run env (AtTurn k) ExpertAgent input (user_goal self))) ->
  exists qa q w1 w2,
    length qa = Z.to_nat (k - 1)
    /\ clean q
    /\ conversation_loop env self w = Some (Ret Aborted, w1)
    /\ run_conversation env self w = Some (Ret (history self), w2)
    /\ let final := {| max_iterations := n;
                       messages := messages s ++ exchanges qa ++ [message "user" q];
                       current_turn := k - 1 |} in
       observe (history self) w1 = Some final
       /\ observe (history self) w2 = Some final.
Proof.
  intros Hs Hmax Hturn Hk Hok Hq Hr.
  destruct (run_conversation_eq env self w s Hs)
    as (exit & s' & cs & w1 & w2 & Hobs & Hloop & Hs1 & _ & _ & Hrun & Hs2 & _).
  destruct (observed_loop_exchanges env (user_goal self)
              (S (Z.to_nat (n - k))) (Z.to_nat (k - 1)) s)
    as (qa & cs' & Hlen & Hqa & Heq).
  { intros t a input Ht. apply Hok. lia. }
  { lia. }
  set (sk := {| max_iterations := max_iterations s;
                messages := messages s ++ exchanges qa;
                current_turn := current_turn s + Z.of_nat (Z.to_nat (k - 1)) |}) in *.
  assert (Hsk : (current_turn sk + 1 = k)%Z) by (cbn [current_turn sk]; lia).
  destruct (observed_turn_no_answer env (user_goal self) sk)
    as (q & cs'' & Hclean & Hdangling).
  { by rewrite Hsk. }
  { by rewrite Hsk. }
  cbn [observed_loop] in Heq.
  destruct (Z.geb_spec (current_turn sk) (max_iterations sk)) as [Hge|_];
    [cbn [current_turn max_iterations sk] in Hge; lia|].
  rewrite Hdangling in Heq.
  replace (Z.to_nat (max_iterations s - current_turn s))
    with (Z.to_nat (k - 1) + S (Z.to_nat (n - k))) in Hobs by lia.
  rewrite Heq in Hobs. injection Hobs as <- <- <-.
  exists qa, q, w1, w2.
  split; [done|]. split; [done|]. split; [done|]. split; [done|].
  subst sk. cbv zeta. cbn [max_iterations messages current_turn] in Hs1, Hs2.
  replace (current_turn s + Z.of_nat (Z.to_nat (k - 1)))%Z with (k - 1)%Z
    in Hs1, Hs2 by lia.
  rewrite Hmax, <- app_assoc in Hs1, Hs2. done.
Qed.

Lemma unusable_answer_aborts_witness :
  exists w1,
    conversation_loop blank_second_answer the_engine (new_store 3)
    = Some (Ret Aborted, w1)
    /\ observe the_store w1
       = Some {| max_iterations := 3;
                 messages := [message "user" "Q1"; message "assistant" "A1";
                              message "user" "Q2"];
                 current_turn := 1 |}.
Proof.
  destruct (unusable_answer_aborts blank_second_answer the_engine (new_store 3)
              {| max_iterations := 3; messages := []; current_turn := 0 |} 3 2
              eq_refl eq_refl eq_refl ltac:(lia))
    as (qa & q & w1 & w2 & _ & _ & Hloop & _).
  - intros t a input Ht. assert (t = 1)%Z as -> by lia.
    destruct a; eexists; (split; [reflexivity | discriminate]).
  - intros input. eexists. split; [reflexivity | discriminate].
  - intros input. eexists. split; [reflexivity|]. right; right. by eexists.
  - exists w1. split; [exact Hloop|].
    vm_compute in Hloop. injection Hloop as <-. vm_compute. reflexivity.
Defined.

(** Turns without a question, one after the other. *)
Lemma observed_loop_no_questions env goal : forall fuel s,
  Z.to_nat (max_iterations s - current_turn s) <= fuel ->
  (current_turn s <= max_iterations s)%Z ->
  (forall t input,
     (current_turn s < t <= max_iterations s)%Z ->
     unusable (Runner_run env (AtTurn t) UserAgent input goal)) ->
  exists cs,
    observed_loop fuel env goal s
    = Some (Completed,
            {| max_iterations := max_iterations s; messages := messages s;
               current_turn := max_iterations s |},
            cs)
    /\ length cs = Z.to_nat (max_iterations s - current_turn s)
    /\ Forall (fun c => call_agent c = UserAgent) cs.
Proof.
  assert (Hdone : forall s,
             current_turn s = max_iterations s ->
             exists cs,
               Some (Completed, s, @nil call)
               = Some (Completed,
                       {| max_iterations := max_iterations s; messages := messages s;
                          current_turn := max_iterations s |},
                       cs)
               /\ length cs = Z.to_nat (max_iterations s - current_turn s)
               /\ Forall (fun c => call_agent c = UserAgent) cs).
  { intros [mx ms t] Heq. cbn [max_iterations messages current_turn] in *. subst t.
    exists []. split; [done|]. split; [cbn [length]; lia | constructor]. }
  induction fuel as [|fuel IH]; intros s Hfuel Hle Hq; cbn [observed_loop];
    destruct (Z.geb_spec (current_turn s) (max_iterations s)) as [Hge|Hlt].
  - apply Hdone. lia.
  - lia.
  - apply Hdone. lia.
  - rewrite observed_turn_no_question by (intros input; apply Hq; lia).
    destruct (IH (advance s)) as (cs & -> & Hlen & Hall).
    { cbn [advance max_iterations current_turn]. lia. }
    { cbn [advance max_iterations current_turn]. lia. }
    { intros t input Ht. apply Hq. cbn [advance max_iterations current_turn] in Ht. lia. }
    cbn [advance max_iterations current_turn messages] in *.
    eexists. split; [reflexivity|]. split.
    + cbn [app length]. rewrite Hlen. lia.
    + cbn [app]. by constructor.
Qed.

(** X6.  Soft failures alone cannot keep the loop running.  On a store
    with limit [n >= 0] whose counter is 0, if on every turn the User
    Agent's result is falsy, or not a string, or blank, the loop is left
    through its condition with the counter at [n] and the messages as
    they were, after exactly [n] calls, all to the User Agent. *)
Theorem persistent_soft_failure_completes (env : Env) (self : Engine) (w : world)
    (s : Store) (n : Z) :
  observe (history self) w = Some s ->
  max_iterations s = n ->
  current_turn s = 0%Z ->
  (0 <= n)%Z ->
  (forall t input,
     (1 <= t <= n)%Z ->
     unusable (Runner_run env (AtTurn t) UserAgent input (user_goal self))) ->
  exists cs w1 w2,
    conversation_loop env self w = Some (Ret Completed, w1)
    /\ run_conversation env self w = Some (Ret (history self), w2)
    /\ calls w1 = calls w ++ cs
    /\ length cs = Z.to_nat n
    /\ Forall (fun c => call_agent c = UserAgent) cs
    /\ let final := {| max_iterations := n; messages := messages s;
                       current_turn := n |} in
       observe (history self) w1 = Some final
       /\ observe (history self) w2 = Some final.
Proof.
  intros Hs Hmax Hturn Hn Hq.
  destruct (run_conversation_eq env self w s Hs)
    as (exit & s' & cs & w1 & w2 & Hobs & Hloop & Hs1 & Hcalls & _ & Hrun & Hs2 & _).
  destruct (observed_loop_no_questions env (user_goal self)
              (Z.to_nat (max_iterations s - current_turn s)) s)
    as (cs' & Heq & Hlen & Hall); [lia | lia | |].
  { intros t input Ht. apply Hq. lia. }
  rewrite Heq in Hobs. injection Hobs as <- <- <-.
  exists cs', w1, w2. rewrite Hmax, Hturn, Z.sub_0_r in *. done.
Qed.

Lemma persistent_soft_failure_completes_witness :
  exists w1,
    conversation_loop no_questions the_engine (new_store 3) = Some (Ret Completed, w1)
    /\ observe the_store w1
       = Some {| max_iterations := 3; messages := []; current_turn := 3 |}
    /\ (call_key <$> calls w1)
       = [(AtTurn 1, UserAgent); (AtTurn 2, UserAgent); (AtTurn 3, UserAgent)].
Proof.
  destruct (persistent_soft_failure_completes no_questions the_engine (new_store 3)
              {| max_iterations := 3; messages := []; current_turn := 0 |} 3
              eq_refl eq_refl eq_refl ltac:(lia))
    as (cs & w1 & w2 & Hloop & _).
  - intros t input Ht. eexists. split; [reflexivity|]. right; left. by eexists.
  - exists w1. split; [exact Hloop|].
    vm_compute in Hloop. injection Hloop as <-. split; vm_compute; reflexivity.
Defined.

(** X7.  Once the counter has reached the limit the loop does nothing:
    it makes no call and allocates nothing, the world is as it was.  So
    a store built with a limit of 0 or less is never talked to, and
    after a run that was left through the loop's condition a second run
    of the loop, on any inference service, changes nothing. *)
Theorem loop_at_limit_is_idle (env : Env) (self : Engine) (w : world) (s : Store) :
  observe (history self) w = Some s ->
  ((max_iterations s <= current_turn s)%Z ->
   conversation_loop env self w = Some (Ret Completed, w))
  /\ (forall w1,
        conversation_loop env self w = Some (Ret Completed, w1) ->
        forall env', conversation_loop env' self w1 = Some (Ret Completed, w1)).
Proof.
  intros Hs.
  assert (Hidle : forall env0 w0 s0,
             observe (history self) w0 = Some s0 ->
             (max_iterations s0 <= current_turn s0)%Z ->
             conversation_loop env0 self w0 = Some (Ret Completed, w0)).
  { intros env0 w0 s0 Hs0 Hle. apply observe_store_at in Hs0.
    unfold conversation_loop. destruct (turns_left self w0); cbn [while_loop];
      rewrite (is_complete_eq _ _ _ Hs0);
      by destruct (Z.geb_spec (current_turn s0) (max_iterations s0)); [|lia]. }
  split; [by apply Hidle|].
  intros w1 Hloop env'.
  destruct (run_conversation_eq env self w s Hs)
    as (exit & s' & cs & w1' & w2 & Hobs & Hloop' & Hs1 & _).
  rewrite Hloop in Hloop'. injection Hloop' as <- <-.
  destruct (observed_loop_shape _ _ _ _ _ _ _ Hobs)
    as (qa & tail & _ & _ & _ & Hmax & _ & Hc & _).
  apply (Hidle env' w1 s' Hs1). rewrite Hmax. by apply Hc.
Qed.

Lemma loop_at_limit_is_idle_witness :
  conversation_loop two_turns the_engine (new_store 0)
  = Some (Ret Completed, new_store 0)
  /\ conversation_loop two_turns the_engine (new_store (-3))
     = Some (Ret Completed, new_store (-3)).
Proof.
  split.
  - apply (proj1 (loop_at_limit_is_idle two_turns the_engine (new_store 0)
                    {| max_iterations := 0; messages := []; current_turn := 0 |}
                    eq_refl)).
    cbn. lia.
  - apply (proj1 (loop_at_limit_is_idle two_turns the_engine (new_store (-3))
                    {| max_iterations := -3; messages := []; current_turn := 0 |}
                    eq_refl)).
    cbn. lia.
Defined.

(** ** The files of a run *)

(** What saving the outputs does, case by case. *)
Lemma save_outputs_files env self w s :
  store_at (heap w) (history self) s ->
  exists w',
    save_outputs env self w = (Ret tt, w')
    /\ agree_below (length (heap w)) (heap w) (heap w')
    /\ files w' = files w ++ saved_files env self s
    /\ calls w'
       = calls w ++ (if takeaways_attempted env self s
                     then [takeaways_call ExpertAgent (messages s) (user_goal self)]
                     else [])
    /\ attempts w' = attempts w ++ tried_paths env self s.
Proof.
  intros Hs.
  destruct (save_transcript_eq env (output_dir self) (history self) w s
              (generate_filename env (goal_prefix env (user_goal self)) "txt") Hs
              (generate_filename_nonempty _ _ _)) as (h1 & Hag1 & Hsave).
  fold (transcript_path env self) in Hsave.
  unfold saved_files, takeaways_attempted, tried_paths.
  destruct (fs_write env (transcript_path env self) (transcript_text env s)) as [e|].
  { exists (log_attempt (set_heap w h1) (transcript_path env self)). split.
    - unfold save_outputs.
      eapply bind_ret_eq;
        [eapply try_except_raise_eq; [by apply bind_raise_eq | reflexivity]
        |reflexivity].
    - split; [done|]. cbn [files calls attempts set_heap log_attempt].
      by rewrite !app_nil_r. }
  set (w1 := log_file (log_attempt (set_heap w h1) _) _ _) in *.
  assert (Hs1 : store_at (heap w1) (history self) s) by (by eapply store_at_agree).
  assert (Hstart : forall r,
            try_except
              (let* takeaways :=
                 generate_takeaways env (history self) (user_goal self) ExpertAgent in
               if negb (Str.startswith takeaways "Error:") then
                 save_takeaways env (output_dir self) takeaways
                   (path_name env (transcript_path env self));;
                 ret tt
               else ret tt)
              (fun _ => ret tt) w1 = r ->
            save_outputs env self w = r).
  { intros r Hr. unfold save_outputs.
    eapply bind_ret_eq; [apply try_except_ret_eq; by step Hsave | exact Hr]. }
  destruct (messages s) as [|m0 msgs] eqn:Hm.
  { eexists. split.
    - apply Hstart, try_except_ret_eq.
      step (generate_takeaways_empty env w1 (history self) s (user_goal self)
              ExpertAgent Hs1 Hm).
      reflexivity.
    - cbn [heap calls files attempts set_heap log_file log_attempt w1]. split.
      + eapply agree_below_trans; [exact Hag1 | apply agree_below_app].
      + by rewrite app_nil_r. }
  assert (Hne : messages s <> []) by (by rewrite Hm).
  destruct (generate_takeaways_nonempty env w1 (history self) s (user_goal self)
              ExpertAgent Hs1 Hne) as (h2 & Hgen & Hag2).
  rewrite Hm in Hgen. fold (takeaways_text env (user_goal self) (m0 :: msgs)) in Hgen.
  set (takeaways := takeaways_text env (user_goal self) (m0 :: msgs)) in *.
  set (w2 := log_call (set_heap w1 h2) _) in *.
  assert (Hag : agree_below (length (heap w)) (heap w) h2)
    by (by eapply agree_below_trans).
  unfold error_flagged.
  destruct (Str.startswith takeaways "Error:") eqn:Hflag.
  { exists w2. split.
    - apply Hstart, try_except_ret_eq. step Hgen. by rewrite Hflag.
    - split; [done|]. split; [done|]. by split. }
  unfold save_takeaways in Hstart.
  fold (takeaways_path env self) in Hstart |- *.
  fold (takeaways_file_text env self takeaways).
  destruct (fs_write env (takeaways_path env self)
              (takeaways_file_text env self takeaways)) as [e|] eqn:Hwrite.
  - exists (log_attempt w2 (takeaways_path env self)). split.
    + apply Hstart. eapply try_except_raise_eq; [|reflexivity].
      step Hgen. rewrite Hflag. cbn [negb]. apply bind_raise_eq.
      unfold try_except, bind, write_file.
      fold (takeaways_file_text env self takeaways). by rewrite Hwrite.
    + split; [done|]. split; [done|]. split; [done|].
      cbn [attempts log_attempt w2 log_call set_heap w1 log_file].
      by rewrite <- app_assoc.
  - exists (log_file (log_attempt w2 (takeaways_path env self))
              (takeaways_path env self)
              (takeaways_file_text env self takeaways)). split.
    + apply Hstart, try_except_ret_eq.
      step Hgen. rewrite Hflag. cbn [negb].
      eapply bind_ret_eq; [|reflexivity].
      unfold try_except, bind, write_file.
      fold (takeaways_file_text env self takeaways). by rewrite Hwrite.
    + split; [done|]. split; [|split; [done|]].
      * cbn [files log_file log_attempt w2 log_call set_heap w1].
        by rewrite <- app_assoc.
      * cbn [attempts log_attempt w2 log_call set_heap w1 log_file].
        by rewrite <- app_assoc.
Qed.

(** The run, with its outputs. *)
Lemma run_conversation_files env self w s :
  observe (history self) w = Some s ->
  exists exit s' w1 w2,
    conversation_loop env self w = Some (Ret exit, w1)
    /\ run_conversation env self w = Some (Ret (history self), w2)
    /\ observe (history self) w1 = Some s'
    /\ observe (history self) w2 = Some s'
    /\ files w2 = files w ++ saved_files env self s'
    /\ calls w2
       = calls w1 ++ (if takeaways_attempted env self s'
                      then [takeaways_call ExpertAgent (messages s') (user_goal self)]
                      else [])
    /\ attempts w2 = attempts w ++ tried_paths env self s'.
Proof.
  intros Hs. apply observe_store_at in Hs.
  destruct (conversation_loop_eq env self w s Hs)
    as (exit & s' & cs & h' & Hobs & Hloop & Hs').
  set (w1 := log_calls (set_heap w h') cs) in *.
  destruct (save_outputs_files env self w1 s' Hs') as (w2 & Hsave & Hag & Hfiles & Hcalls & Hatt).
  exists exit, s', w1, w2.
  split; [done|]. split.
  { unfold run_conversation. rewrite Hloop. unfold bind. by rewrite Hsave. }
  split; [by apply observe_store_at|]. split.
  { apply observe_store_at. by eapply store_at_agree. }
  split; [done|]. by split.
Qed.

(** X8.  A transcript that cannot be written ends the saving.  When
    opening the transcript's file or writing to it raises, the run still
    returns the store and raises nothing; no text is written in full and
    no call for the takeaways is made; and the transcript's path is the
    only path the run has opened, or tried to open, for writing: the
    file of the takeaways is not touched, while the transcript's own
    file may be left created or emptied. *)
Theorem unsaved_transcript_skips_takeaways (env : Env) (self : Engine) (w : world)
    (s : Store) :
  observe (history self) w = Some s ->
  exists exit s' w1 w2,
    conversation_loop env self w = Some (Ret exit, w1)
    /\ run_conversation env self w = Some (Ret (history self), w2)
    /\ observe (history self) w2 = Some s'
    /\ forall e,
         fs_write env (transcript_path env self) (transcript_text env s') = Some e ->
         files w2 = files w /\ calls w2 = calls w1
         /\ attempts w2 = attempts w ++ [transcript_path env self].
Proof.
  intros Hs.
  destruct (run_conversation_files env self w s Hs)
    as (exit & s' & w1 & w2 & Hloop & Hrun & _ & Hs2 & Hfiles & Hcalls & Hatt).
  exists exit, s', w1, w2. split; [done|]. split; [done|]. split; [done|].
  intros e He. unfold saved_files in Hfiles. unfold takeaways_attempted in Hcalls.
  unfold tried_paths in Hatt.
  rewrite He in Hfiles, Hcalls, Hatt. by rewrite app_nil_r in Hfiles, Hcalls.
Qed.

Lemma unsaved_transcript_skips_takeaways_witness :
  exists w2,
    run_conversation disk_full the_engine (new_store 1) = Some (Ret the_store, w2)
    /\ observe the_store w2
       = Some {| max_iterations := 1;
                 messages := [message "user" "Q1"; message "assistant" "A1"];
                 current_turn := 1 |}
    /\ files w2 = []
    /\ attempts w2 = ["out/find_the_answer_20240101_000000.txt"]
    /\ (call_key <$> calls w2) = [(AtTurn 1, UserAgent); (AtTurn 1, ExpertAgent)].
Proof.
  destruct (unsaved_transcript_skips_takeaways disk_full the_engine (new_store 1)
              {| max_iterations := 1; messages := []; current_turn := 0 |} eq_refl)
    as (exit & s' & w1 & w2 & _ & Hrun & _).
  exists w2. split; [exact Hrun|].
  vm_compute in Hrun. injection Hrun as <-.
  split; [vm_compute; reflexivity|]. split; [vm_compute; reflexivity|].
  split; vm_compute; reflexivity.
Defined.

(** X9.  A run that ends with no message stored writes the placeholder
    text as its transcript, if the file can be written, and nothing
    else: it makes no call for the takeaways and writes no takeaways
    file. *)
Theorem empty_history_outputs (env : Env) (self : Engine) (w : world) (s : Store) :
  observe (history self) w = Some s ->
  exists exit s' w1 w2,
    conversation_loop env self w = Some (Ret exit, w1)
    /\ run_conversation env self w = Some (Ret (history self), w2)
    /\ observe (history self) w2 = Some s'
    /\ (messages s' = [] ->
        calls w2 = calls w1
        /\ files w2
           = files w ++
             match fs_write env (transcript_path env self)
                     "No conversation history available." with
             | None => [(transcript_path env self, "No conversation history available.")]
             | Some _ => []
             end).
Proof.
  intros Hs.
  destruct (run_conversation_files env self w s Hs)
    as (exit & s' & w1 & w2 & Hloop & Hrun & _ & Hs2 & Hfiles & Hcalls & Hatt).
  exists exit, s', w1, w2. split; [done|]. split; [done|]. split; [done|].
  intros Hm. unfold saved_files, transcript_text in Hfiles.
  unfold takeaways_attempted, transcript_text in Hcalls.
  rewrite Hm in Hfiles, Hcalls.
  destruct (fs_write env (transcript_path env self) _);
    by rewrite app_nil_r in Hcalls.
Qed.

Lemma empty_history_outputs_witness :
  exists w2,
    run_conversation no_questions the_engine (new_store 2) = Some (Ret the_store, w2)
    /\ (snd <$> files w2) = ["No conversation history available."]
    /\ Forall (fun c => call_at c <> Takeaways) (calls w2).
Proof.
  destruct (empty_history_outputs no_questions the_engine (new_store 2)
              {| max_iterations := 2; messages := []; current_turn := 0 |} eq_refl)
    as (exit & s' & w1 & w2 & _ & Hrun & _).
  exists w2. split; [exact Hrun|].
  vm_compute in Hrun. injection Hrun as <-.
  split; [vm_compute; reflexivity|].
  vm_compute. repeat constructor; discriminate.
Defined.

(** X10.  The two files of a run.  When the transcript is written, the
    store holds messages and the reply for the takeaways is a string
    whose stripped text does not start with [Error:], the run makes the
    one call for the takeaways and, if that file can be written too,
    opens and writes exactly two files: the transcript, and the
    takeaways, directly in the output directory, under the name made of
    the stem of the transcript's name and [_takeaways.txt], holding a
    line that names the transcript, an empty line and the stripped
    reply.  (The transcript itself lies below the output directory when
    the goal holds a path separator, as in the example that follows the
    proof.) *)
Theorem outputs_are_paired (env : Env) (self : Engine) (w : world) (s : Store) :
  observe (history self) w = Some s ->
  exists exit s' w1 w2,
    conversation_loop env self w = Some (Ret exit, w1)
    /\ run_conversation env self w = Some (Ret (history self), w2)
    /\ observe (history self) w2 = Some s'
    /\ forall reply,
         messages s' <> [] ->
         fs_write env (transcript_path env self) (transcript_text env s') = None ->
         Runner_run env Takeaways ExpertAgent
           (messages s' ++ [message "user" (takeaway_prompt (user_goal self))])
           (user_goal self)
         = Returns (RunResult (PyStr reply)) ->
         Str.startswith (Str.strip reply) "Error:" = false ->
         let name := path_name env (transcript_path env self) in
         let path := path_div env (output_dir self)
                       (path_stem env name +:+ "_takeaways.txt") in
         let text := "# Takeaways from: " +:+ name +:+ Str.nl +:+ Str.nl +:+
                     Str.strip reply in
         fs_write env path text = None ->
         calls w2 = calls w1 ++ [takeaways_call ExpertAgent (messages s') (user_goal self)]
         /\ files w2
            = files w ++ [(transcript_path env self, transcript_text env s');
                          (path, text)]
         /\ attempts w2 = attempts w ++ [transcript_path env self; path].
Proof.
  intros Hs.
  destruct (run_conversation_files env self w s Hs)
    as (exit & s' & w1 & w2 & Hloop & Hrun & _ & Hs2 & Hfiles & Hcalls & Hatt).
  exists exit, s', w1, w2. split; [done|]. split; [done|]. split; [done|].
  intros reply Hm Hwrite Hreply Hflag name path text Hwrite2.
  unfold saved_files, takeaways_attempted, tried_paths, error_flagged, takeaways_text,
    takeaways_file_text, takeaways_path in *.
  rewrite Hwrite, Hreply, Hflag in *. fold name path text in Hfiles.
  fold name path in Hatt. rewrite Hwrite2 in Hfiles.
  by destruct (messages s').
Qed.

Lemma outputs_are_paired_witness :
  exists w2,
    run_conversation takeaways_ok engine_with_slash (new_store 1)
    = Some (Ret the_store, w2)
    /\ (fst <$> files w2)
       = ["out/a/b_test_goal_20240101_000000.txt";
          "out/b_test_goal_20240101_000000_takeaways.txt"]
    /\ attempts w2 = (fst <$> files w2)
    /\ (snd <$> files w2) !! 1
       = Some ("# Takeaways from: b_test_goal_20240101_000000.txt" +:+
               Str.nl +:+ Str.nl +:+ "- point").
Proof.
  destruct (outputs_are_paired takeaways_ok engine_with_slash (new_store 1)
              {| max_iterations := 1; messages := []; current_turn := 0 |} eq_refl)
    as (exit & s' & w1 & w2 & _ & Hrun & _).
  exists w2. split; [exact Hrun|].
  vm_compute in Hrun. injection Hrun as <-.
  split; [vm_compute; reflexivity|]. split; vm_compute; reflexivity.
Defined.

(** X11.  A failure of the call for the takeaways is saved as if it were
    the takeaways.  When the transcript is written, the store holds
    messages and the call raises with text [msg], the text returned is
    [Error generating takeaways: msg]; it does not start with [Error:],
    so the engine writes it to the takeaways file. *)
Theorem raised_takeaways_are_saved (env : Env) (self : Engine) (w : world)
    (s : Store) :
  observe (history self) w = Some s ->
  exists exit s' w1 w2,
    conversation_loop env self w = Some (Ret exit, w1)
    /\ run_conversation env self w = Some (Ret (history self), w2)
    /\ observe (history self) w2 = Some s'
    /\ forall msg,
         messages s' <> [] ->
         fs_write env (transcript_path env self) (transcript_text env s') = None ->
         Runner_run env Takeaways ExpertAgent
           (messages s' ++ [message "user" (takeaway_prompt (user_goal self))])
           (user_goal self)
         = Raises msg ->
         let text := takeaways_file_text env self ("Error generating takeaways: " +:+ msg) in
         fs_write env (takeaways_path env self) text = None ->
         files w2
         = files w ++ [(transcript_path env self, transcript_text env s');
                       (takeaways_path env self, text)].
Proof.
  intros Hs.
  destruct (run_conversation_files env self w s Hs)
    as (exit & s' & w1 & w2 & Hloop & Hrun & _ & Hs2 & Hfiles & Hcalls & Hatt).
  exists exit, s', w1, w2. split; [done|]. split; [done|]. split; [done|].
  intros msg Hm Hwrite Hreply text Hwrite2.
  unfold saved_files, takeaways_text in Hfiles.
  rewrite Hwrite, Hreply, raised_takeaways_not_flagged in Hfiles.
  fold text in Hfiles. rewrite Hwrite2 in Hfiles.
  by destruct (messages s').
Qed.

Lemma raised_takeaways_are_saved_witness :
  exists w2,
    run_conversation takeaways_fail the_engine (new_store 1) = Some (Ret the_store, w2)
    /\ (snd <$> files w2) !! 1
       = Some ("# Takeaways from: find_the_answer_20240101_000000.txt" +:+
               Str.nl +:+ Str.nl +:+ "Error generating takeaways: rate limit").
Proof.
  destruct (raised_takeaways_are_saved takeaways_fail the_engine (new_store 1)
              {| max_iterations := 1; messages := []; current_turn := 0 |} eq_refl)
    as (exit & s' & w1 & w2 & _ & Hrun & _).
  exists w2. split; [exact Hrun|].
  vm_compute in Hrun. injection Hrun as <-. vm_compute. reflexivity.
Defined.

(** X12.  Takeaways that are flagged are not saved.  When the transcript
    is written and the store holds messages, the run makes the one call
    for the takeaways; if its result is unusable (not truthy, or not a
    string), or is a string whose stripped text starts with [Error:],
    the transcript is the only file written. *)
Theorem flagged_takeaways_are_not_saved (env : Env) (self : Engine) (w : world)
    (s : Store) :
  observe (history self) w = Some s ->
  exists exit s' w1 w2,
    conversation_loop env self w = Some (Ret exit, w1)
    /\ run_conversation env self w = Some (Ret (history self), w2)
    /\ observe (history self) w2 = Some s'
    /\ forall r,
         messages s' <> [] ->
         fs_write env (transcript_path env self) (transcript_text env s') = None ->
         Runner_run env Takeaways ExpertAgent
           (messages s' ++ [message "user" (takeaway_prompt (user_goal self))])
           (user_goal self)
         = Returns r ->
         match r with
         | RunResult (PyStr reply) => Str.startswith (Str.strip reply) "Error:" = true
         | _ => True
         end ->
         calls w2 = calls w1 ++ [takeaways_call ExpertAgent (messages s') (user_goal self)]
         /\ files w2 = files w ++ [(transcript_path env self, transcript_text env s')].
Proof.
  intros Hs.
  destruct (run_conversation_files env self w s Hs)
    as (exit & s' & w1 & w2 & Hloop & Hrun & _ & Hs2 & Hfiles & Hcalls & Hatt).
  exists exit, s', w1, w2. split; [done|]. split; [done|]. split; [done|].
  intros r Hm Hwrite Hreply Hflag.
  unfold saved_files, takeaways_attempted, error_flagged, takeaways_text in *.
  rewrite Hwrite, Hreply in *.
  destruct (messages s') as [|m ms]; [done|]. split; [done|].
  rewrite Hfiles. destruct r as [|[| |reply]]; try done.
  by rewrite Hflag.
Qed.

Lemma flagged_takeaways_are_not_saved_witness :
  exists w2,
    run_conversation takeaways_flagged the_engine (new_store 1)
    = Some (Ret the_store, w2)
    /\ (fst <$> files w2) = ["out/find_the_answer_20240101_000000.txt"]
    /\ (call_key <$> calls w2)
       = [(AtTurn 1, UserAgent); (AtTurn 1, ExpertAgent); (Takeaways, ExpertAgent)].
Proof.
  destruct (flagged_takeaways_are_not_saved takeaways_flagged the_engine (new_store 1)
              {| max_iterations := 1; messages := []; current_turn := 0 |} eq_refl)
    as (exit & s' & w1 & w2 & _ & Hrun & _).
  exists w2. split; [exact Hrun|].
  vm_compute in Hrun. injection Hrun as <-. split; vm_compute; reflexivity.
Defined.

(** ** The store under the calls of a client *)

Lemma valid_role_str (role : string) :
  PyStr role ∈ valid_roles <-> role ∈ ["user"; "assistant"; "system"].
Proof.
  unfold valid_roles. rewrite !elem_of_cons, !elem_of_nil.
  split; intros [H|[H|[H|[]]]]; try (injection H as ->); subst; auto.
Qed.

Lemma valid_role_is_str (role : pyval) :
  role ∈ valid_roles -> exists r, role = PyStr r.
Proof.
  unfold valid_roles. rewrite !elem_of_cons, elem_of_nil.
  intros [->|[->|[->|[]]]]; by eexists.
Qed.

Lemma run_op_at w self op mx ml t msgs :
  heap w !! self = Some (OHistory mx ml t) ->
  list_at (heap w) ml msgs ->
  heap (run_op self op w) !! self = Some (OHistory mx ml (t + counted op))
  /\ list_at (heap (run_op self op w)) ml (msgs ++ accepted op)
  /\ forall l ms, l <> ml -> list_at (heap w) l ms ->
       list_at (heap (run_op self op w)) l ms.
Proof.
  intros Hs Hl.
  assert (Hne : self <> ml).
  { intros ->. destruct Hl as (items & Hl & _). congruence. }
  assert (Hsame : heap w !! self = Some (OHistory mx ml (t + 0))
                  /\ list_at (heap w) ml (msgs ++ [])
                  /\ forall l ms, l <> ml -> list_at (heap w) l ms ->
                       list_at (heap w) l ms).
  { by rewrite Z.add_0_r, app_nil_r. }
  destruct op as [role content| | |]; cbn [run_op counted].
  - unfold add_message. case_bool_decide as Hrole.
    + assert (Hacc : accepted (AddMessage role content) = []).
      { destruct role as [| |r]; try done. destruct content as [| |c]; try done.
        cbn. rewrite bool_decide_eq_false_2; [done|]. by rewrite <- valid_role_str. }
      rewrite Hacc. exact Hsame.
    + cbv beta.
      destruct (valid_role_is_str _ Hrole) as (r & ->).
      destruct content as [| |c]; try exact Hsame.
      cbn [accepted]. rewrite bool_decide_eq_true_2 by (by apply valid_role_str).
      destruct Hl as (items & Hl & Hd).
      unfold bind, alloc, load_history, load_list, update. cbn [heap set_heap pyval_str].
      rewrite (lookup_alloc_old _ _ _ _ Hs). cbn [heap set_heap].
      rewrite (lookup_alloc_old _ _ _ _ Hl). cbn [snd heap set_heap].
      assert (Hml : ml < length (heap w ++ [ODict (message r c)])).
      { eapply lookup_lt_Some. by apply lookup_alloc_old. }
      assert (Hnd : forall d, (heap w ++ [ODict (message r c)]) !! ml <> Some (ODict d)).
      { intros d. by rewrite (lookup_alloc_old _ _ _ _ Hl). }
      split; [|split].
      * rewrite Z.add_0_r, list_lookup_insert_ne by done. by apply lookup_alloc_old.
      * exists (items ++ [length (heap w)]). split; [by apply list_lookup_insert_eq|].
        apply dicts_at_update; [done|].
        apply dicts_at_snoc; [by apply dicts_at_alloc | apply lookup_alloc_new].
      * intros l ms Hlne Hlist. apply list_at_update_other; [done..|].
        by apply list_at_alloc.
  - unfold increment_turn, bind, load_history, update. rewrite Hs. cbn [snd heap set_heap].
    assert (Hnd : forall d, heap w !! self <> Some (ODict d)).
    { intros d. by rewrite Hs. }
    split; [|split].
    + apply list_lookup_insert_eq. by eapply lookup_lt_Some.
    + rewrite app_nil_r.
      apply list_at_update_other; [intros E; by apply Hne | exact Hnd | exact Hl].
    + intros l ms _ Hlist. apply list_at_update_other; [|done..].
      intros ->. destruct Hlist as (items & Hlist & _). congruence.
  - destruct Hl as (items & Hl & Hd).
    unfold get_history, bind, load_history, load_list, alloc. rewrite Hs.
    cbn [heap]. rewrite Hl. cbn [snd heap set_heap].
    split; [|split].
    + rewrite Z.add_0_r. by apply lookup_alloc_old.
    + rewrite app_nil_r. apply list_at_alloc. by exists items.
    + intros l ms _ Hlist. by apply list_at_alloc.
  - unfold is_complete, bind, load_history. rewrite Hs. exact Hsame.
Qed.

Lemma run_ops_at self ops : forall w mx ml t msgs,
  heap w !! self = Some (OHistory mx ml t) ->
  list_at (heap w) ml msgs ->
  heap (run_ops self ops w) !! self = Some (OHistory mx ml (t + turns_counted ops))
  /\ list_at (heap (run_ops self ops w)) ml (msgs ++ flat_map accepted ops)
  /\ forall l ms, l <> ml -> list_at (heap w) l ms ->
       list_at (heap (run_ops self ops w)) l ms.
Proof.
  induction ops as [|op ops IH]; intros w mx ml t msgs Hs Hl.
  - cbn. by rewrite Z.add_0_r, app_nil_r.
  - destruct (run_op_at w self op mx ml t msgs Hs Hl) as (Hs1 & Hl1 & Hother1).
    destruct (IH _ _ _ _ _ Hs1 Hl1) as (Hs2 & Hl2 & Hother2).
    change (run_ops self (op :: ops) w) with (run_ops self ops (run_op self op w)).
    change (turns_counted (op :: ops)) with (counted op + turns_counted ops)%Z.
    cbn [flat_map].
    split; [|split].
    + rewrite Hs2. do 2 f_equal. lia.
    + by rewrite app_assoc.
    + intros l ms Hne Hlist. by apply Hother2, Hother1.
Qed.

Lemma accepted_roles (ops : list store_op) :
  Forall (fun m => role_of m ∈ ["user"; "assistant"; "system"]) (flat_map accepted ops).
Proof.
  induction ops as [|op ops IH]; [constructor|].
  cbn [flat_map]. apply Forall_app. split; [|done].
  destruct op as [[| |r] [| |c]| | |]; try constructor.
  cbn [accepted]. case_bool_decide; constructor; [|constructor].
  by rewrite role_of_message.
Qed.

Lemma accepted_length (ops : list store_op) :
  length (flat_map accepted ops) <= length ops.
Proof.
  induction ops as [|op ops IH]; [done|].
  cbn [flat_map]. rewrite length_app. cbn [length].
  assert (length (accepted op) <= 1); [|lia].
  destruct op as [[| |r] [| |c]| | |]; cbn; try lia. case_bool_decide; cbn; lia.
Qed.

(** X13.  The store is an append-only log with a counter.  Whatever
    calls of [add_message], [increment_turn], [get_history] and
    [is_complete] a client makes, in any order and catching what they
    raise, the store keeps its limit, holds the messages it held
    followed by one message for each accepted [add_message] in the
    order of the calls, each of a role among system, user and assistant,
    and its counter has grown by the number of [increment_turn] calls. *)
Theorem store_under_calls (w : world) (self : loc) (s : Store) (ops : list store_op) :
  observe self w = Some s ->
  observe self (run_ops self ops w)
  = Some {| max_iterations := max_iterations s;
            messages := messages s ++ flat_map accepted ops;
            current_turn := current_turn s + turns_counted ops |}
  /\ Forall (fun m => role_of m ∈ ["user"; "assistant"; "system"])
       (flat_map accepted ops)
  /\ length (flat_map accepted ops) <= length ops.
Proof.
  intros Hs. apply observe_store_at in Hs as (ml & Hs & Hl).
  destruct (run_ops_at self ops w _ _ _ _ Hs Hl) as (Hs' & Hl' & _).
  split; [|split; [apply accepted_roles | apply accepted_length]].
  apply observe_store_at. by exists ml.
Qed.

Lemma store_under_calls_witness :
  (messages <$> observe the_store
     (run_ops the_store
        [AddMessage (PyStr "user") (PyStr "hi"); AddMessage (PyStr "robot") (PyStr "x");
         IncrementTurn; AddMessage (PyStr "assistant") (PyInt 3); GetHistory;
         AddMessage (PyStr "assistant") (PyStr "yo"); IsComplete]
        (new_store 5)))
  = Some [message "user" "hi"; message "assistant" "yo"].
Proof.
  rewrite (proj1 (store_under_calls (new_store 5) the_store
                    {| max_iterations := 5; messages := []; current_turn := 0 |}
                    _ eq_refl)).
  vm_compute. reflexivity.
Defined.

(** X14.  A snapshot is isolated from the store's later growth.  The
    list [get_history] returns holds the messages the store held at the
    call, and keeps holding exactly these whatever calls are then made
    on the store: the store appends to its own list, not to the copy. *)
Theorem snapshot_outlives_calls (w : world) (self : loc) (s : Store) :
  observe self w = Some s ->
  exists snapshot w1,
    get_history self w = (Ret snapshot, w1)
    /\ forall ops,
         observe_list snapshot (run_ops self ops w1) = Some (messages s)
         /\ (messages <$> observe self (run_ops self ops w1))
            = Some (messages s ++ flat_map accepted ops).
Proof.
  intros Hs. apply observe_store_at in Hs.
  destruct (get_history_at _ _ _ Hs) as (l & h' & Heq & Hs' & Hl).
  destruct (get_history_eq _ _ _ Hs) as (items & Heq' & _).
  rewrite Heq' in Heq. injection Heq as <- Hw.
  exists (length (heap w)), (set_heap w (heap w ++ [OList items])).
  split; [done|]. intros ops.
  subst h'. destruct Hs' as (ml & Hs' & Hml).
  destruct (run_ops_at self ops (set_heap w (heap w ++ [OList items])) _ _ _ _ Hs' Hml)
    as (Hs2 & Hl2 & Hother).
  split.
  - apply observe_list_at, Hother; [|done].
    destruct Hs as (ml' & Hs & items' & Hml' & _).
    cbn [heap set_heap] in Hs'. rewrite (lookup_alloc_old _ _ _ _ Hs) in Hs'.
    injection Hs' as <-. apply lookup_lt_Some in Hml'. lia.
  - assert (Hobs : store_at (heap (run_ops self ops (set_heap w (heap w ++ [OList items]))))
                     self {| max_iterations := max_iterations s;
                             messages := messages s ++ flat_map accepted ops;
                             current_turn := current_turn s + turns_counted ops |}).
    { by exists ml. }
    apply observe_store_at in Hobs. by rewrite Hobs.
Qed.

Lemma snapshot_outlives_calls_witness :
  exists snapshot w1,
    get_history the_store one_exchange = (Ret snapshot, w1)
    /\ observe_list snapshot
         (run_ops the_store [AddMessage (PyStr "user") (PyStr "Q2"); IncrementTurn] w1)
       = Some [message "user" "Q1"; message "assistant" "A1"].
Proof.
  destruct (snapshot_outlives_calls one_exchange the_store
              {| max_iterations := 1;
                 messages := [message "user" "Q1"; message "assistant" "A1"];
                 current_turn := 1 |} eq_refl)
    as (snapshot & w1 & Hget & Hops).
  exists snapshot, w1. split; [exact Hget|].
  exact (proj1 (Hops [AddMessage (PyStr "user") (PyStr "Q2"); IncrementTurn])).
Defined.

(** ** The headings of the exchanges *)

Lemma message_lines_content env (msgs : list Message) : forall (i : Z) (index : nat) m,
  msgs !! index = Some m ->
  message_lines env i msgs !! (3 * index + 1) = Some (content_of m).
Proof.
  induction msgs as [|m0 msgs IH]; intros i index m Hm; [done|].
  destruct index as [|index].
  - by injection Hm as ->.
  - cbn in Hm. cbn [message_lines].
    rewrite lookup_app_r by (cbn [length]; lia).
    replace (3 * S index + 1 - length _) with (3 * index + 1) by (cbn [length]; lia).
    by apply IH.
Qed.

Lemma transcript_lines_content env (t : Z) (msgs : list Message) (index : nat) m :
  msgs !! index = Some m ->
  transcript_lines env t msgs !! (3 + 3 * index + 1) = Some (content_of m).
Proof.
  intros Hm. unfold transcript_lines.
  rewrite lookup_app_r by (cbn [length]; lia).
  replace (3 + 3 * index + 1 - length _) with (3 * index + 1) by (cbn [length]; lia).
  by apply message_lines_content.
Qed.

Lemma exchanges_lookup qa : forall j q a,
  qa !! j = Some (q, a) ->
  exchanges qa !! (2 * j) = Some (message "user" q)
  /\ exchanges qa !! (2 * j + 1) = Some (message "assistant" a).
Proof.
  induction qa as [|[q0 a0] qa IH]; intros [|j] q a H; try done.
  - by injection H as -> ->.
  - cbn in H. destruct (IH j q a H) as [H1 H2]. rewrite exchanges_cons.
    replace (2 * S j) with (S (S (2 * j))) by lia.
    replace (S (S (2 * j)) + 1) with (S (S (2 * j + 1))) by lia.
    done.
Qed.

(** X15.  The headings of an exchange in the transcript.  In a store
    that holds [seed] followed by completed exchanges, the question of
    exchange [j] (from 0) is headed [User (Turn n)] with
    n = (length seed + 2 j + 2) / 2 rounded down, and its answer is
    headed [Expert] with the same number when the length of [seed] is
    even, and with the next number when it is odd: after one seeded
    system message every answer is shown one turn later than its
    question.  The line after each heading is the text. *)
Theorem exchange_headings (env : Env) (t : Z) (seed : list Message)
    (qa : list (string * string)) (j : nat) (q a : string) :
  qa !! j = Some (q, a) ->
  let lines := transcript_lines env t (seed ++ exchanges qa) in
  let index := length seed + 2 * j in
  let shown := ((Z.of_nat (length seed) + 2 * Z.of_nat j + 2) `div` 2)%Z in
  lines !! (3 + 3 * index) = Some (heading "User" shown)
  /\ lines !! (3 + 3 * index + 1) = Some q
  /\ lines !! (3 + 3 * (index + 1))
     = Some (heading "Expert"
               (if Z.even (Z.of_nat (length seed)) then shown else shown + 1)%Z)
  /\ lines !! (3 + 3 * (index + 1) + 1) = Some a.
Proof.
  intros Hj lines index shown.
  destruct (exchanges_lookup qa j q a Hj) as [Hq Ha].
  assert (Hq' : (seed ++ exchanges qa) !! index = Some (message "user" q)).
  { subst index. rewrite lookup_app_r by lia.
    by replace (length seed + 2 * j - length seed) with (2 * j) by lia. }
  assert (Ha' : (seed ++ exchanges qa) !! (index + 1) = Some (message "assistant" a)).
  { subst index. rewrite lookup_app_r by lia.
    by replace (length seed + 2 * j + 1 - length seed) with (2 * j + 1) by lia. }
  subst lines. split; [|split; [|split]].
  - rewrite (transcript_lines_heading env _ _ _ _ Hq'), role_of_message.
    do 2 f_equal. unfold display_turn. rewrite bool_decide_eq_true_2 by done.
    subst shown index. f_equal. lia.
  - by rewrite (transcript_lines_content env _ _ _ _ Hq'), content_of_message.
  - rewrite (transcript_lines_heading env _ _ _ _ Ha'), role_of_message.
    do 2 f_equal. unfold display_turn. rewrite bool_decide_eq_true_2 by done.
    subst shown index.
    destruct (Z.even (Z.of_nat (length seed))) eqn:E.
    + apply Z.even_spec in E as [k Hk]. Z.div_mod_to_equations. lia.
    + assert (Ho : Z.odd (Z.of_nat (length seed)) = true)
        by (by rewrite <- Z.negb_even, E).
      apply Z.odd_spec in Ho as [k Hk]. Z.div_mod_to_equations. lia.
  - by rewrite (transcript_lines_content env _ _ _ _ Ha'), content_of_message.
Qed.

Lemma exchange_headings_witness :
  let lines := transcript_lines plain_env 2
                 ([message "system" "context"] ++ exchanges [("Q1", "A1"); ("Q2", "A2")]) in
  lines !! 6 = Some "## User (Turn 1)" /\ lines !! 9 = Some "## Expert (Turn 2)"
  /\ lines !! 12 = Some "## User (Turn 2)" /\ lines !! 15 = Some "## Expert (Turn 3)".
Proof.
  pose proof (exchange_headings plain_env 2 [message "system" "context"]
                [("Q1", "A1"); ("Q2", "A2")] 0 "Q1" "A1" eq_refl) as (H1 & _ & H2 & _).
  pose proof (exchange_headings plain_env 2 [message "system" "context"]
                [("Q1", "A1"); ("Q2", "A2")] 1 "Q2" "A2" eq_refl) as (H3 & _ & H4 & _).
  split; [exact H1|]. split; [exact H2|]. split; [exact H3 | exact H4].
Defined.

(** ** Failures of the construction of a store *)

Lemma init_regular_file env w n p text :
  fs_lookup env p = RegularFile (inl text) ->
  exists self w',
    __init__ env n (Some p) w = (Ret self, w')
    /\ store_at (heap w') self
         {| max_iterations := n;
            messages := if bool_decide (Str.strip text ≠ "")
                        then [message "system"
                                (seed_content (path_name env p) (Str.strip text))]
                        else [];
            current_turn := 0 |}
    /\ calls w' = calls w /\ files w' = files w.
Proof.
  intros Hfs.
  pose proof (init_store_at (heap w) n) as Hs.
  set (self := length (heap w ++ [OList []])) in *.
  set (w2 := set_heap (set_heap w (heap w ++ [OList []]))
               ((heap w ++ [OList []]) ++ [OHistory n (length (heap w)) 0])).
  unfold __init__, bind, alloc, _load_from_file, try_except. cbn [heap set_heap].
  rewrite Hfs. fold self. fold w2. case_bool_decide.
  - destruct (add_message_eq w2 self _ "system"
                (seed_content (path_name env p) (Str.strip text)) Hs)
      as (h' & Heq & Hs'); [set_solver|].
    unfold seed_content in Heq. rewrite Heq. by eexists _, _.
  - by eexists _, _.
Qed.

Lemma init_raises env n path w e w' :
  __init__ env n path w = (Raise e, w') ->
  path <> None
  /\ (is_FileNotFoundError e = true \/ exists msg, e = IOError msg)
  /\ calls w' = calls w /\ files w' = files w.
Proof.
  destruct path as [p|]; intros H; [|done]. split; [done|].
  destruct (fs_lookup env p) as [| |[text|e0]] eqn:Hfs.
  - unfold __init__, bind, alloc, _load_from_file, try_except in H.
    rewrite Hfs in H. cbn in H. injection H as <- <-. eauto.
  - unfold __init__, bind, alloc, _load_from_file, try_except in H.
    rewrite Hfs in H. cbn in H. injection H as <- <-. eauto.
  - destruct (init_regular_file env w n p text Hfs) as (self & w2 & Heq & _).
    congruence.
  - unfold __init__, bind, alloc, _load_from_file, try_except in H.
    rewrite Hfs in H. cbn [raise heap set_heap] in H.
    destruct (is_FileNotFoundError e0) eqn:E; cbn [raise] in H;
      injection H as <- <-; eauto.
Qed.

Lemma init_returns env n path w self w' :
  __init__ env n path w = (Ret self, w') ->
  exists s,
    observe self w' = Some s
    /\ max_iterations s = n /\ current_turn s = 0%Z
    /\ (messages s = [] \/ exists content, messages s = [message "system" content])
    /\ (path = None -> messages s = [])
    /\ calls w' = calls w /\ files w' = files w.
Proof.
  destruct path as [p|]; intros H.
  - destruct (fs_lookup env p) as [| |[text|e0]] eqn:Hfs.
    + unfold __init__, bind, alloc, _load_from_file, try_except in H.
      rewrite Hfs in H. done.
    + unfold __init__, bind, alloc, _load_from_file, try_except in H.
      rewrite Hfs in H. done.
    + destruct (init_regular_file env w n p text Hfs)
        as (self' & w2 & Heq & Hs & Hc & Hf).
      rewrite Heq in H. injection H as <- <-.
      eexists. split; [by apply observe_store_at|]. cbn [max_iterations current_turn messages].
      split; [done|]. split; [done|]. split; [|done].
      case_bool_decide; [right; by eexists | by left].
    + unfold __init__, bind, alloc, _load_from_file, try_except in H.
      rewrite Hfs in H. cbn [raise heap set_heap] in H.
      by destruct (is_FileNotFoundError e0).
  - destruct (init_unseeded env w n) as (self' & w2 & Heq & Hs).
    rewrite Heq in H. injection H as <- <-.
    eexists. split; [exact Hs|]. cbn [max_iterations current_turn messages].
    split; [done|]. split; [done|]. split; [by left|]. split; [done|].
    unfold __init__, bind, alloc, ret in Heq. by injection Heq as _ <-.
Qed.

(** X16.  What the construction of a store can raise.  With no seed
    path it raises nothing; with one it raises only [FileNotFoundError]
    or [IOError], never the [ValueError] of [add_message].  When reading
    the file fails with an exception [e], a [FileNotFoundError] is
    passed on as it is and any other exception is replaced by an
    [IOError] whose text names the path and ends with the text of [e];
    no call to the service and no file write is made. *)
Theorem history_load_failures (env : Env) (w : world) (n : Z) :
  (forall path e w',
     __init__ env n path w = (Raise e, w') ->
     path <> None
     /\ (is_FileNotFoundError e = true \/ exists msg, e = IOError msg)
     /\ calls w' = calls w /\ files w' = files w)
  /\ (forall p e,
        fs_lookup env p = RegularFile (inr e) ->
        exists w',
          __init__ env n (Some p) w
          = (Raise (if is_FileNotFoundError e then e
                    else IOError ("Error processing history file " +:+ p +:+ ": " +:+
                                  exn_str e)), w')).
Proof.
  split.
  - intros path e w' H. by apply (init_raises env n path w).
  - intros p e Hfs. unfold __init__, bind, alloc, _load_from_file, try_except.
    rewrite Hfs. cbn [raise heap set_heap].
    destruct (is_FileNotFoundError e); by eexists.
Qed.

Lemma history_load_failures_witness :
  let env := scripted (fun _ _ => says "")
               (unreadable_file "seed.txt" (Exception_ "Permission denied")) in
  exists w',
    __init__ env 5 (Some "seed.txt") empty_world
    = (Raise (IOError "Error processing history file seed.txt: Permission denied"), w')
    /\ calls w' = [] /\ files w' = [].
Proof.
  intros env.
  destruct (proj2 (history_load_failures env empty_world 5) "seed.txt"
              (Exception_ "Permission denied") eq_refl) as (w' & Heq).
  exists w'. split; [exact Heq|].
  destruct (proj1 (history_load_failures env empty_world 5) _ _ _ Heq) as (_ & _ & Hc & Hf).
  by split.
Defined.

(** X17.  The validator of the configuration and the constructor of the
    store agree on the seed path.  A value the validator returns is
    returned unchanged, and the constructor given it returns a store
    unless reading the file fails; a value the validator rejects, which
    it does with [ValueError], is a path at which the constructor raises
    [FileNotFoundError]. *)
Theorem validated_history_file (env : Env) (w : world) (n : Z) (v : option Path) :
  match history_file_must_exist env v with
  | inr v' =>
      v' = v
      /\ ((exists self w', __init__ env n v w = (Ret self, w'))
          \/ (exists p e, v = Some p /\ fs_lookup env p = RegularFile (inr e)))
  | inl e =>
      exists p msg w',
        v = Some p /\ e = ValueError msg
        /\ __init__ env n v w
           = (Raise (FileNotFoundError ("History file not found: " +:+ p)), w')
  end.
Proof.
  destruct v as [p|]; cbn [history_file_must_exist].
  - destruct (fs_lookup env p) as [| |[text|e]] eqn:Hfs.
    + eexists p, _, _. split; [done|]. split; [done|].
      unfold __init__, bind, alloc, _load_from_file, try_except. by rewrite Hfs.
    + eexists p, _, _. split; [done|]. split; [done|].
      unfold __init__, bind, alloc, _load_from_file, try_except. by rewrite Hfs.
    + split; [done|]. left.
      destruct (init_regular_file env w n p text Hfs) as (self & w' & Heq & _).
      by exists self, w'.
    + split; [done|]. right. by exists p, e.
  - split; [done|]. left. destruct (init_unseeded env w n) as (self & w' & Heq & _).
    by exists self, w'.
Qed.

(** ** The name of the transcript *)

Lemma length_take n s : String.length (Str.take n s) <= n.
Proof.
  revert s. induction n as [|n IH]; intros [|c s]; cbn; try lia.
  specialize (IH s). lia.
Qed.

Lemma length_replace_char a b s :
  String.length (Str.replace_char a b s) = String.length s.
Proof. induction s as [|c s IH]; cbn; [done|]. by rewrite IH. Qed.

(** X18.  The prefix of the transcript's name, made from the goal, has
    at least 5 characters whatever the goal is, and at most 30 when
    lowering a text keeps its length. *)
Theorem goal_prefix_length (env : Env) (user_goal : string) :
  5 <= String.length (goal_prefix env user_goal)
  /\ ((forall x, String.length (lower env x) = String.length x) ->
      String.length (goal_prefix env user_goal) <= 30).
Proof.
  unfold goal_prefix. cbv zeta.
  destruct (String.length (lower env _) <? 5) eqn:E.
  - cbn. lia.
  - apply Nat.ltb_ge in E. split; [done|]. intros Hlower.
    rewrite Hlower, length_replace_char. apply length_take.
Qed.

Lemma goal_prefix_length_witness :
  String.length (goal_prefix plain_env "why do cats purr when they are asleep") <= 30
  /\ goal_prefix plain_env "why" = "conversation".
Proof.
  split; [|reflexivity].
  apply (proj2 (goal_prefix_length plain_env "why do cats purr when they are asleep")).
  reflexivity.
Defined.

(** ** The set-up: the key, the agents and the engine *)

Lemma truthy_text_Some key k : truthy_text key = Some k -> key = Some k /\ k <> "".
Proof.
  destruct key as [k'|]; [|done]. cbn. case_bool_decide; [|done].
  by intros [= <-].
Qed.

Lemma truthy_text_idem key k : truthy_text key = Some k -> truthy_text (Some k) = Some k.
Proof.
  intros H. apply truthy_text_Some in H as [_ Hk]. cbn.
  by rewrite bool_decide_eq_true_2.
Qed.

Lemma set_openai_key_inv host key p r p' :
  AgentFactory._set_openai_key host key p = (r, p') ->
  the_world p' = the_world p /\ made_dirs p' = made_dirs p
  /\ match r with
     | Ret _ =>
         exists k, truthy_text (OPENAI_API_KEY p') = Some k
                   /\ ((truthy_text key = Some k /\ embedded_null k = false
                        /\ OPENAI_API_KEY p' = Some k)
                       \/ (truthy_text key = None /\ p' = p))
     | Raise e =>
         key_failure host key (OPENAI_API_KEY p) e
         /\ (p' = p
             \/ exists k, truthy_text key = Some k
                          /\ import_openai host = ImportRaises e
                          /\ p' = set_environ p (Some k))
     end.
Proof.
  unfold AgentFactory._set_openai_key, key_failure.
  destruct (truthy_text key) as [k|] eqn:Hkey.
  - destruct (embedded_null k) eqn:Hnull.
    + intros [= <- <-]. split; [done|]. split; [done|]. split; [|by left].
      right. left. by exists k.
    + destruct (import_openai host) as [| |e] eqn:Himport; intros [= <- <-].
      * split; [done|]. split; [done|]. exists k. cbn.
        split; [by eapply truthy_text_idem | by left].
      * split; [done|]. split; [done|]. exists k. cbn.
        split; [by eapply truthy_text_idem | by left].
      * split; [done|]. split; [done|]. split.
        -- right. right. by exists k.
        -- right. by exists k.
  - destruct (truthy_text (OPENAI_API_KEY p)) as [k|] eqn:Henv; intros [= <- <-].
    + split; [done|]. split; [done|]. exists k. split; [done | by right].
    + split; [done|]. split; [done|]. split; [|by left]. by left.
Qed.

(** X19.  The API key after [_set_openai_key].  When the call returns,
    the environment variable holds a text that is not empty: the key of
    the configuration when that is not empty, whatever the variable held
    before, and otherwise the text the variable already held; the same
    call made again returns and changes nothing.  The call raises in
    exactly three cases: neither the configuration nor the variable
    holds a text that is not empty; the key of the configuration holds a
    null character, which the environment refuses with a [ValueError];
    or the import of [openai] raises something other than
    [ImportError].  In the first two cases nothing is changed; in the
    third the variable has already been set to the key. *)
Theorem set_openai_key_settles (host : Host) (api_key : option string) (p : process) :
  (forall p',
     AgentFactory._set_openai_key host api_key p = (Ret tt, p') ->
     (exists k,
        OPENAI_API_KEY p' = Some k /\ k <> ""
        /\ ((api_key = Some k /\ embedded_null k = false)
            \/ (truthy_text api_key = None /\ OPENAI_API_KEY p = Some k)))
     /\ AgentFactory._set_openai_key host api_key p' = (Ret tt, p'))
  /\ (forall e,
        (exists p', AgentFactory._set_openai_key host api_key p = (Raise e, p'))
        <-> key_failure host api_key (OPENAI_API_KEY p) e)
  /\ (forall e p',
        AgentFactory._set_openai_key host api_key p = (Raise e, p') ->
        p' = p
        \/ exists k, api_key = Some k /\ import_openai host = ImportRaises e
                     /\ p' = set_environ p (Some k)).
Proof.
  split; [|split].
  - intros p' H.
    destruct (set_openai_key_inv _ _ _ _ _ H) as (_ & _ & k & Hk & Hfrom).
    apply truthy_text_Some in Hk as [Hk Hne]. split.
    + exists k. split; [done|]. split; [done|].
      destruct Hfrom as [(Hkey & Hnull & _)|[Hkey ->]].
      * left. by apply truthy_text_Some in Hkey as [-> _].
      * by right.
    + unfold AgentFactory._set_openai_key in *.
      destruct (truthy_text api_key) as [k'|] eqn:Hkey.
      * destruct (embedded_null k'); [done|].
        destruct (import_openai host); [| |done]; by injection H as <-.
      * destruct (truthy_text (OPENAI_API_KEY p)) eqn:Henv; [|done].
        injection H as <-. by rewrite Henv.
  - intros e. split.
    + intros (p' & H). by destruct (set_openai_key_inv _ _ _ _ _ H) as (_ & _ & ? & _).
    + unfold key_failure, AgentFactory._set_openai_key.
      intros [(Hkey & Henv & ->)|[(k & Hkey & Hnull & ->)|(k & Hkey & Hnull & Himport)]].
      * rewrite Hkey, Henv. by eexists.
      * rewrite Hkey, Hnull. by eexists.
      * rewrite Hkey, Hnull, Himport. by eexists.
  - intros e p' H.
    destruct (set_openai_key_inv _ _ _ _ _ H) as (_ & _ & _ & [->|(k & Hk & Hi & ->)]);
      [by left|].
    right. exists k. by apply truthy_text_Some in Hk as [-> _].
Qed.

Lemma set_openai_key_settles_witness :
  (exists p',
     AgentFactory._set_openai_key (plain_host the_config) (Some "sk-config")
       (new_process (Some "sk-env")) = (Ret tt, p')
     /\ OPENAI_API_KEY p' = Some "sk-config"
     /\ AgentFactory._set_openai_key (plain_host the_config) (Some "sk-config") p'
        = (Ret tt, p'))
  /\ exists p',
       AgentFactory._set_openai_key (plain_host the_config)
         (Config.openai_api_key null_key_config) (new_process (Some "sk-env"))
       = (Raise (ValueError "embedded null byte"), p').
Proof.
  split.
  - eexists. split; [reflexivity|]. split; [reflexivity|].
    apply (proj1 (set_openai_key_settles (plain_host the_config) (Some "sk-config")
                    (new_process (Some "sk-env")))).
    reflexivity.
  - apply (proj2 (proj1 (proj2 (set_openai_key_settles (plain_host the_config)
                                  (Config.openai_api_key null_key_config)
                                  (new_process (Some "sk-env"))))
                    (ValueError "embedded null byte"))).
    right. left. eexists. split; [reflexivity|]. split; reflexivity.
Defined.

Lemma create_user_agent_inv host config p r p' :
  AgentFactory.create_user_agent host config p = (r, p') ->
  the_world p' = the_world p /\ made_dirs p' = made_dirs p
  /\ match r with
     | Ret a =>
         (exists k, truthy_text (OPENAI_API_KEY p') = Some k)
         /\ Agent_new host a = None
         /\ Agent_model a = Config.openai_model config
         /\ a = {| Agent_name := match Config.user_agent_config config with
                                 | None => "UserAgent"
                                 | Some c => Config.name c
                                 end;
                   Agent_instructions :=
                     match Config.user_agent_config config with
                     | Some c => Static (Config.instructions c)
                     | None => Dynamic
                     end;
                   Agent_model := Config.openai_model config |}
     | Raise e =>
         key_failure host (Config.openai_api_key config) (OPENAI_API_KEY p) e
         \/ (exists a, Agent_new host a = Some e)
     end.
Proof.
  unfold AgentFactory.create_user_agent.
  destruct (AgentFactory._set_openai_key host _ p) as [[[]|e] p1] eqn:Hkey;
    apply set_openai_key_inv in Hkey as (Hw & Hd & Hr).
  - destruct (Agent_new host _) as [e|] eqn:Hnew; intros [= <- <-].
    + split; [done|]. split; [done|]. right. by eexists.
    + split; [done|]. split; [done|].
      destruct Hr as (k & Hk & _). split; [by exists k|]. split; [done|].
      split; [done|]. unfold Config.get_user_agent_instructions.
      by destruct (Config.user_agent_config config).
  - intros [= <- <-]. split; [done|]. split; [done|]. left. by destruct Hr.
Qed.

Lemma create_expert_agent_inv host config p r p' :
  AgentFactory.create_expert_agent host config p = (r, p') ->
  the_world p' = the_world p /\ made_dirs p' = made_dirs p
  /\ match r with
     | Ret a =>
         (exists k, truthy_text (OPENAI_API_KEY p') = Some k)
         /\ Agent_new host a = None
         /\ Agent_model a = Config.openai_model config
         /\ a = {| Agent_name := match Config.expert_agent_config config with
                                 | Some c => Config.name c
                                 | None => "ExpertAgent"
                                 end;
                   Agent_instructions :=
                     Static match Config.expert_agent_config config with
                            | Some c => Config.instructions c
                            | None => Config.expert_agent_persona config
                            end;
                   Agent_model := Config.openai_model config |}
     | Raise e =>
         key_failure host (Config.openai_api_key config) (OPENAI_API_KEY p) e
         \/ (exists a, Agent_new host a = Some e)
     end.
Proof.
  unfold AgentFactory.create_expert_agent.
  destruct (AgentFactory._set_openai_key host _ p) as [[[]|e] p1] eqn:Hkey;
    apply set_openai_key_inv in Hkey as (Hw & Hd & Hr).
  - destruct (Agent_new host _) as [e|] eqn:Hnew; intros [= <- <-].
    + split; [done|]. split; [done|]. right. by eexists.
    + split; [done|]. split; [done|].
      destruct Hr as (k & Hk & _). split; [by exists k|]. by split.
  - intros [= <- <-]. split; [done|]. split; [done|]. left. by destruct Hr.
Qed.







Lemma new_engine_built host env config p built p' :
  new_engine host env config p = (Ret built, p') ->
  (exists s,
     observe (history (engine built)) (the_world p') = Some s
     /\ max_iterations s = Config.max_iterations config
     /\ current_turn s = 0%Z
     /\ (messages s = [] \/ exists content, messages s = [message "system" content])
     /\ (Config.history_file_path config = None -> messages s = []))
  /\ user_goal (engine built) = Config.user_agent_goal config
  /\ output_dir (engine built) = Config.output_dir config
  /\ made_dirs p' = made_dirs p ++ [Config.output_dir config]
  /\ (exists k, OPENAI_API_KEY p' = Some k /\ k <> "")
  /\ Agent_model (user_agent built) = Config.openai_model config
  /\ Agent_model (expert_agent built) = Config.openai_model config
  /\ (Agent_instructions (user_agent built) = Dynamic
      <-> Config.user_agent_config config = None)
  /\ exists w2,
       run_conversation env (engine built) (the_world p')
       = Some (Ret (history (engine built)), w2).
Proof.
  unfold new_engine.
  destruct (__init__ env _ _ (the_world p)) as [[h|e0] w] eqn:Hinit; [|done].
  apply init_returns in Hinit as (s & Hs & Hmax & Hturn & Hmsgs & Hnone & Hc & Hf).
  unfold _ensure_output_dir_exists.
  destruct (mkdir host (Config.output_dir config)) as [e0|] eqn:Hmk; [done|].
  set (p1 := {| the_world := _ |}).
  destruct (AgentFactory.create_user_agent host config p1) as [[u|e1] p2] eqn:Hu;
    apply create_user_agent_inv in Hu as (Hw2 & Hd2 & Hr2); [|done].
  destruct (AgentFactory.create_expert_agent host config p2) as [[x|e1] p3] eqn:Hx;
    apply create_expert_agent_inv in Hx as (Hw3 & Hd3 & Hr3); [|done].
  intros [= <- <-]. cbn [engine history user_goal output_dir user_agent expert_agent].
  assert (Hw : the_world p3 = w) by (by rewrite Hw3, Hw2).
  rewrite Hw, Hd3, Hd2.
  split; [by exists s|]. split; [done|]. split; [done|]. split; [done|].
  destruct Hr3 as ((k & Hk) & _ & Hxm & _). destruct Hr2 as (_ & _ & Hum & Hu).
  split; [exists k; by apply truthy_text_Some in Hk|].
  split; [done|]. split; [done|]. split.
  - rewrite Hu. cbn. by destruct (Config.user_agent_config config).
  - destruct (run_conversation_files env
                {| history := h; user_goal := Config.user_agent_goal config;
                   output_dir := Config.output_dir config |} w s Hs)
      as (exit & s' & w1 & w2 & _ & Hrun & _).
    by exists w2.
Qed.

(** X21.  An engine that is constructed is ready to run.  Its store has
    the limit of the configuration, a counter of 0 and no message, or
    the one system message of the seed file; the output directory has
    been made; the environment variable holds a key that is not empty;
    the two agents use the model of the configuration, and the User
    Agent has the dynamic instructions exactly when the configuration
    has no section for it.  Run on this engine, [run_conversation]
    returns the store and raises nothing, whatever the service and the
    file system do. *)
Theorem new_engine_ready (host : Host) (env : Env) (config : Config.AppConfig)
    (p : process) (built : ConversationEngine) (p' : process) :
  new_engine host env config p = (Ret built, p') ->
  (exists s,
     observe (history (engine built)) (the_world p') = Some s
     /\ max_iterations s = Config.max_iterations config
     /\ current_turn s = 0%Z
     /\ (messages s = [] \/ exists content, messages s = [message "system" content])
     /\ (Config.history_file_path config = None -> messages s = []))
  /\ user_goal (engine built) = Config.user_agent_goal config
  /\ output_dir (engine built) = Config.output_dir config
  /\ made_dirs p' = made_dirs p ++ [Config.output_dir config]
  /\ (exists k, OPENAI_API_KEY p' = Some k /\ k <> "")
  /\ Agent_model (user_agent built) = Config.openai_model config
  /\ Agent_model (expert_agent built) = Config.openai_model config
  /\ (Agent_instructions (user_agent built) = Dynamic
      <-> Config.user_agent_config config = None)
  /\ exists w2,
       run_conversation env (engine built) (the_world p')
       = Some (Ret (history (engine built)), w2).
Proof. apply new_engine_built. Qed.

Lemma new_engine_ready_witness :
  exists built p' w2,
    new_engine (plain_host the_config) two_turns the_config (new_process None)
    = (Ret built, p')
    /\ made_dirs p' = ["out"]
    /\ OPENAI_API_KEY p' = Some "sk-config"
    /\ run_conversation two_turns (engine built) (the_world p')
       = Some (Ret (history (engine built)), w2).
Proof.
  eexists _, _. 
  destruct (new_engine_ready (plain_host the_config) two_turns the_config
              (new_process None) _ _ eq_refl) as (_ & _ & _ & Hd & _ & _ & _ & _ & w2 & Hrun).
  exists w2. split; [reflexivity|]. split; [exact Hd|]. split; [reflexivity | exact Hrun].
Defined.

(** ** Loading the configuration, and [main] *)

Lemma validated_config_inv host raw :
  match validated_config host raw with
  | inr config => exists k, Config.openai_api_key config = Some k /\ k <> ""
  | inl (Py e) =>
      (forall msg, e <> ValueError msg)
      /\ AppConfig_new host raw = ValidationRaises e
  | inl (ConfigLoaderError _) => True
  end.
Proof.
  unfold validated_config.
  destruct (AppConfig_new host raw) as [msg|e|config] eqn:Hv; [done| |].
  - by destruct e.
  - destruct (truthy_text (Config.openai_api_key config)) as [k|] eqn:Hk; [|done].
    exists k. by apply truthy_text_Some.
Qed.

Lemma load_config_inv host env config_path p r p' :
  load_config host env config_path p = (r, p') ->
  match load_dotenv host (OPENAI_API_KEY p) with
  | inl e => r = inl (Py e) /\ p' = p
  | inr key => p' = set_environ p key /\ loaded host env config_path r
  end.
Proof.
  unfold load_config.
  destruct (load_dotenv host (OPENAI_API_KEY p)) as [e|key]; [by intros [= <- <-]|].
  intros [= <- <-]. split; [done|].
  assert (Hrest :
            fs_lookup env config_path <> Absent ->
            loaded host env config_path
              match read_raw_config host config_path with
              | inl msg => inl (ConfigLoaderError msg)
              | inr RawOther =>
                  inl (ConfigLoaderError
                         ("Invalid config file format in " +:+ config_path +:+
                          ". Root must be an object/dictionary."))
              | inr (RawDict raw_config) =>
                  validated_config host
                    (with_env_api_key raw_config (OPENAI_API_KEY (set_environ p key)))
              end).
  { intros Hfs. destruct (read_raw_config host config_path) as [msg|[d|]]; [done| |done].
    pose proof (validated_config_inv host
                  (with_env_api_key d (OPENAI_API_KEY (set_environ p key)))) as Hv.
    unfold loaded.
    destruct (validated_config host _) as [[msg|e]|config]; [done| |done].
    right. destruct Hv as [Hne Hv]. split; [done|]. split; [done | by eexists]. }
  destruct (fs_lookup env config_path) eqn:Hfs; [by left | by apply Hrest..].
Qed.

Lemma load_config_world host env config_path p :
  the_world (load_config host env config_path p).2 = the_world p
  /\ made_dirs (load_config host env config_path p).2 = made_dirs p.
Proof.
  unfold load_config. by destruct (load_dotenv host (OPENAI_API_KEY p)).
Qed.





Lemma new_engine_returns host env config p :
  (Config.history_file_path config = None
   \/ exists path text, Config.history_file_path config = Some path
                        /\ fs_lookup env path = RegularFile (inl text)) ->
  mkdir host (Config.output_dir config) = None ->
  (forall a, Agent_new host a = None) ->
  (forall e, import_openai host <> ImportRaises e) ->
  (exists k, Config.openai_api_key config = Some k /\ k <> ""
             /\ embedded_null k = false) ->
  exists built p', new_engine host env config p = (Ret built, p').
Proof.
  intros Hpath Hmk Hnew Himport (k & Hk & Hne & Hnull).
  assert (Hinit : exists h w, __init__ env (Config.max_iterations config)
                                (Config.history_file_path config) (the_world p)
                              = (Ret h, w)).
  { destruct Hpath as [->|(path & text & -> & Hfs)].
    - destruct (init_unseeded env (the_world p) (Config.max_iterations config))
        as (h & w & Heq & _). by exists h, w.
    - destruct (init_regular_file env (the_world p) (Config.max_iterations config)
                  path text Hfs) as (h & w & Heq & _). by exists h, w. }
  destruct Hinit as (h & w & Hinit).
  unfold new_engine, _ensure_output_dir_exists. rewrite Hinit, Hmk.
  unfold AgentFactory.create_user_agent, AgentFactory.create_expert_agent,
    AgentFactory._set_openai_key.
  rewrite Hk. cbn [truthy_text]. rewrite bool_decide_eq_true_2 by done.
  rewrite Hnull.
  destruct (import_openai host) as [| |e] eqn:Hi; [| |by destruct (Himport e)];
    rewrite !Hnew; by eexists _, _.
Qed.

(** X24.  When [main] returns normally.  If the command line parses,
    the configuration file is a regular file that [load_config] loads,
    the key of the configuration holds no null character, the import of
    [openai] raises nothing but [ImportError], the seed file of the
    configuration, if it names one, can be read, the output directory
    can be made and the constructor of the agents does not raise, then
    [main] returns normally and the output directory has been made,
    whatever the inference service replies or raises and whether or not
    the files of the run can be written. *)
Theorem main_returns (host : Host) (env : Env) (argv : list string)
    (config_file : string) (max_iterations : option Z) (p : process)
    (config : Config.AppConfig) :
  parse_arguments host argv = Args config_file max_iterations ->
  (exists content, fs_lookup env config_file = RegularFile content) ->
  (load_config host env config_file p).1 = inr config ->
  (forall k, Config.openai_api_key config = Some k -> embedded_null k = false) ->
  (forall e, import_openai host <> ImportRaises e) ->
  (Config.history_file_path config = None
   \/ exists path text, Config.history_file_path config = Some path
                        /\ fs_lookup env path = RegularFile (inl text)) ->
  mkdir host (Config.output_dir config) = None ->
  (forall a, Agent_new host a = None) ->
  exists p',
    main host env argv p = Some (Returned, p')
    /\ made_dirs p' = made_dirs p ++ [Config.output_dir config].
Proof.
  intros Hargs (content & Hfile) Hload Hnull Himport Hpath Hmk Hnew.
  unfold main. rewrite Hargs, Hfile.
  destruct (load_config host env config_file p) as [r p1] eqn:Hl.
  cbn [fst] in Hload. subst r.
  pose proof (load_config_world host env config_file p) as [_ Hd1].
  rewrite Hl in Hd1. cbn [snd] in Hd1.
  pose proof (load_config_inv _ _ _ _ _ _ Hl) as Hinv.
  assert (Hkey : exists k, Config.openai_api_key config = Some k /\ k <> "").
  { destruct (load_dotenv host (OPENAI_API_KEY p)); [by destruct Hinv|].
    by destruct Hinv as (_ & _ & Hkey). }
  set (config' := match max_iterations with
                  | Some n => if (n >? 0)%Z then Config.set_max_iterations config n
                              else config
                  | None => config
                  end).
  assert (Hsame : Config.history_file_path config' = Config.history_file_path config
                  /\ Config.output_dir config' = Config.output_dir config
                  /\ Config.openai_api_key config' = Config.openai_api_key config).
  { subst config'. destruct max_iterations as [n|]; [|done].
    by destruct (n >? 0)%Z. }
  destruct Hsame as (Hh & Ho & Hk).
  destruct (new_engine_returns host env config' p1) as (built & p2 & Hbuilt).
  { by rewrite Hh. } { by rewrite Ho. } { done. } { done. }
  { rewrite Hk. destruct Hkey as (k & Hkey & Hne). exists k.
    split; [done|]. split; [done | by apply Hnull]. }
  rewrite Hbuilt.
  destruct (new_engine_built _ _ _ _ _ _ Hbuilt)
    as (_ & _ & _ & Hd & _ & _ & _ & _ & w2 & Hrun).
  rewrite Hrun. eexists. split; [done|].
  cbn [made_dirs set_world]. by rewrite Hd, Ho, Hd1.
Qed.

Lemma main_returns_witness :
  exists p',
    main (plain_host the_config) with_config_file
      ["config.json"; "--max-iterations"; "2"] (new_process None)
    = Some (Returned, p')
    /\ made_dirs p' = ["out"]
    /\ (call_key <$> calls (the_world p'))
       = [(AtTurn 1, UserAgent); (AtTurn 1, ExpertAgent);
          (AtTurn 2, UserAgent); (AtTurn 2, ExpertAgent); (Takeaways, ExpertAgent)].
Proof.
  destruct (main_returns (plain_host the_config) with_config_file
              ["config.json"; "--max-iterations"; "2"] "config.json" (Some 2%Z)
              (new_process None) the_config)
    as (p' & Hmain & Hdirs).
  - reflexivity.
  - by eexists.
  - reflexivity.
  - by intros k [= <-].
  - done.
  - by left.
  - reflexivity.
  - reflexivity.
  - exists p'. split; [exact Hmain|]. split; [exact Hdirs|].
    vm_compute in Hmain. injection Hmain as <-. vm_compute. reflexivity.
Defined.
